(** * form-builder: a shallow embedding of [main.go]

    The service stores form schemas under [form-build/<FormID>/form.json],
    renders them through [form-build/form.html] and appends submitted
    answers to [form-build/<FormID>/form_answer.csv].

    Go strings are byte sequences and are modelled by [string] (a list of
    [ascii], one per byte).  Go maps are modelled by stdpp's [gmap]; the
    order in which [range] visits a map is chosen by the runtime and is an
    explicit argument of every function that ranges over a map.  The file
    system is an explicit store threaded through a small state monad that
    also records every call made to package [os]. *)

From Stdlib Require Import ZArith NArith Ascii String List Lia.
From Stdlib Require Import DecimalString DecimalPos DecimalZ.
From stdpp Require Import base gmap strings list sorting.

Local Open Scope string_scope.
Local Open Scope list_scope.

(** ** Bytes *)

Module Byte.

Definition val (c : ascii) : N := N_of_ascii c.
Definition of_N (n : N) : ascii := ascii_of_N (n mod 256).

Definition quote : ascii := "034"%char.
Definition backslash : ascii := "\"%char.
Definition newline : ascii := "010"%char.
Definition cr : ascii := "013"%char.
Definition tab : ascii := "009"%char.
Definition nul : ascii := "000"%char.

Definition eqb (a b : ascii) : bool := Ascii.eqb a b.

Definition is_digit (c : ascii) : bool :=
  (48 <=? val c)%N && (val c <=? 57)%N.
Definition is_upper (c : ascii) : bool :=
  (65 <=? val c)%N && (val c <=? 90)%N.
Definition is_lower (c : ascii) : bool :=
  (97 <=? val c)%N && (val c <=? 122)%N.

Definition hex_digit (n : N) : ascii :=
  if (n <? 10)%N then of_N (48 + n) else of_N (87 + n).

Definition hex_val (c : ascii) : option N :=
  if is_digit c then Some (val c - 48)%N
  else if (97 <=? val c)%N && (val c <=? 102)%N then Some (val c - 87)%N
  else if (65 <=? val c)%N && (val c <=? 70)%N then Some (val c - 55)%N
  else None.

End Byte.

Abbreviation bytes := (list ascii) (only parsing).
Abbreviation to_bytes := list_ascii_of_string (only parsing).
Abbreviation of_bytes := string_of_list_ascii (only parsing).

(** ** Package [unicode/utf8] and [unicode.IsSpace] *)

Module Utf8.

Definition RuneError : N := 65533.
Definition MaxRune : N := 1114111.

(** The classification table [first] of the Go implementation, written as
    ranges: the result is [None] for an invalid leading byte, and
    otherwise the encoded size with the bounds accepted for the second
    byte. *)
Definition first (b : N) : option (nat * N * N) :=
  if (b <? 194)%N then None
  else if (b <? 224)%N then Some (2%nat, 128, 191)%N
  else if (b =? 224)%N then Some (3%nat, 160, 191)%N
  else if (b <? 237)%N then Some (3%nat, 128, 191)%N
  else if (b =? 237)%N then Some (3%nat, 128, 159)%N
  else if (b <? 240)%N then Some (3%nat, 128, 191)%N
  else if (b =? 240)%N then Some (4%nat, 144, 191)%N
  else if (b <? 244)%N then Some (4%nat, 128, 191)%N
  else if (b =? 244)%N then Some (4%nat, 128, 143)%N
  else None.

Definition cont (b : N) : bool := (128 <=? b)%N && (b <=? 191)%N.

(** [utf8.DecodeRuneInString]: the rune at the head of [s] and its width
    in bytes; [(RuneError, 1)] for an invalid encoding and
    [(RuneError, 0)] for the empty string. *)
Definition DecodeRune (s : bytes) : N * nat :=
  match s with
  | [] => (RuneError, 0%nat)
  | c0 :: r0 =>
    let s0 := Byte.val c0 in
    if (s0 <? 128)%N then (s0, 1%nat)
    else match first s0 with
    | None => (RuneError, 1%nat)
    | Some (sz, lo, hi) =>
      match r0 with
      | [] => (RuneError, 1%nat)
      | c1 :: r1 =>
        let s1 := Byte.val c1 in
        if (length s <? sz)%nat then (RuneError, 1%nat)
        else if (s1 <? lo)%N || (hi <? s1)%N then (RuneError, 1%nat)
        else if (sz <=? 2)%nat
        then (N.lor (N.shiftl (N.land s0 31) 6) (N.land s1 63), 2%nat)
        else match r1 with
        | [] => (RuneError, 1%nat)
        | c2 :: r2 =>
          let s2 := Byte.val c2 in
          if negb (cont s2) then (RuneError, 1%nat)
          else if (sz <=? 3)%nat
          then (N.lor (N.lor (N.shiftl (N.land s0 15) 12)
                             (N.shiftl (N.land s1 63) 6))
                      (N.land s2 63), 3%nat)
          else match r2 with
          | [] => (RuneError, 1%nat)
          | c3 :: _ =>
            let s3 := Byte.val c3 in
            if negb (cont s3) then (RuneError, 1%nat)
            else (N.lor (N.lor (N.lor (N.shiftl (N.land s0 7) 18)
                                      (N.shiftl (N.land s1 63) 12))
                               (N.shiftl (N.land s2 63) 6))
                        (N.land s3 63), 4%nat)
          end
        end
      end
    end
  end.

Definition is_surrogate (r : N) : bool := (55296 <=? r)%N && (r <=? 57343)%N.

Definition encode3 (r : N) : bytes :=
  [ Byte.of_N (N.lor 224 (N.shiftr r 12));
    Byte.of_N (N.lor 128 (N.land (N.shiftr r 6) 63));
    Byte.of_N (N.lor 128 (N.land r 63)) ].

(** [utf8.EncodeRune] (runes are never negative in this program). *)
Definition EncodeRune (r : N) : bytes :=
  if (r <=? 127)%N then [ Byte.of_N r ]
  else if (r <=? 2047)%N then
    [ Byte.of_N (N.lor 192 (N.shiftr r 6));
      Byte.of_N (N.lor 128 (N.land r 63)) ]
  else if (MaxRune <? r)%N || is_surrogate r then encode3 RuneError
  else if (r <=? 65535)%N then encode3 r
  else
    [ Byte.of_N (N.lor 240 (N.shiftr r 18));
      Byte.of_N (N.lor 128 (N.land (N.shiftr r 12) 63));
      Byte.of_N (N.lor 128 (N.land (N.shiftr r 6) 63));
      Byte.of_N (N.lor 128 (N.land r 63)) ].

(** [utf8.ValidString]. *)
Fixpoint valid_fuel (fuel : nat) (s : bytes) : bool :=
  match fuel with
  | O => match s with [] => true | _ => false end
  | S fuel' =>
    match s with
    | [] => true
    | _ :: _ =>
      let '(r, size) := DecodeRune s in
      if (r =? RuneError)%N && (size =? 1)%nat then false
      else valid_fuel fuel' (skipn size s)
    end
  end.

Definition Valid (s : string) : bool :=
  valid_fuel (String.length s) (to_bytes s).

(** [unicode.IsSpace]. *)
Definition IsSpace (r : N) : bool :=
  if (r <=? 255)%N then
    ((9 <=? r)%N && (r <=? 13)%N) || (r =? 32)%N || (r =? 133)%N
    || (r =? 160)%N
  else
    (r =? 5760)%N || ((8192 <=? r)%N && (r <=? 8202)%N)
    || (r =? 8232)%N || (r =? 8233)%N || (r =? 8239)%N || (r =? 8287)%N
    || (r =? 12288)%N.

End Utf8.

(** ** Package [path/filepath] (Unix) *)

Module Filepath.

(** The elements of a path between its separators. *)
Fixpoint split (s : string) : list string :=
  match s with
  | EmptyString => [""]
  | String c s' =>
    if Byte.eqb c "/"%char then "" :: split s'
    else match split s' with
         | e :: rest => String c e :: rest
         | [] => [String c ""]
         end
  end.

Fixpoint join_sep (sep : string) (l : list string) : string :=
  match l with
  | [] => ""
  | [x] => x
  | x :: r => x ++ sep ++ join_sep sep r
  end.

(** The loop of [Clean], one path element at a time; [out] holds the
    elements kept so far, last first.  An empty element and [.] are
    dropped; [..] removes the last element kept, is dropped at the root
    and is kept at the head of a relative path. *)
Fixpoint clean_go (rooted : bool) (out : list string) (elems : list string)
  : list string :=
  match elems with
  | [] => out
  | e :: rest =>
    if decide (e = "" \/ e = ".") then clean_go rooted out rest
    else if decide (e = "..") then
      match out with
      | top :: out' =>
        if decide (top = "..") then clean_go rooted (e :: out) rest
        else clean_go rooted out' rest
      | [] =>
        if rooted then clean_go rooted out rest
        else clean_go rooted [e] rest
      end
    else clean_go rooted (e :: out) rest
  end.

Definition is_rooted (path : string) : bool :=
  match path with
  | String c _ => Byte.eqb c "/"%char
  | EmptyString => false
  end.

Definition Clean (path : string) : string :=
  if decide (path = "") then "."
  else
    let rooted := is_rooted path in
    let out := rev (clean_go rooted [] (split path)) in
    if rooted then "/" ++ join_sep "/" out
    else match out with [] => "." | _ => join_sep "/" out end.

(** [filepath.Join]: leading empty elements are ignored, the rest is
    joined with the separator and cleaned. *)
Fixpoint Join (elem : list string) : string :=
  match elem with
  | [] => ""
  | e :: rest =>
    if decide (e = "") then Join rest else Clean (join_sep "/" elem)
  end.

End Filepath.

(** ** Package [os]: the file system as an explicit store *)

Module Os.

Inductive errno : Set := ENOENT | ENOTDIR | EISDIR | EINVAL.

Inductive node : Set :=
| Dir
| File (data : string).

(** One entry per call into package [os]; [CWrite] is a write through an
    open file and carries the bytes written. *)
Inductive call : Set :=
| CStat (path : string)
| CMkdirAll (path : string)
| CCreate (path : string)
| COpenFile (path : string)
| CFileStat (path : string)
| CWrite (path : string) (data : string)
| CReadFile (path : string).

Record state : Type := mkState {
  files : gmap string node;
  log : list call
}.

Definition M (A : Type) : Type := state -> A * state.

Definition ret {A} (a : A) : M A := fun s => (a, s).
Definition bind {A B} (m : M A) (k : A -> M B) : M B :=
  fun s => let '(a, s') := m s in k a s'.

Definition result (A : Type) : Type := A + errno.
Definition Ok {A} (a : A) : result A := inl a.
Definition Err {A} (e : errno) : result A := inr e.

Definition has_nul (path : string) : bool :=
  existsb (Byte.eqb Byte.nul) (to_bytes path).

Definition render (elems : list string) : string :=
  match elems with
  | [e] => if decide (e = "") then "/" else e
  | _ => Filepath.join_sep "/" elems
  end.

(** The proper, non-empty prefixes of a path, outermost first. *)
Definition ancestors (path : string) : list string :=
  let elems := Filepath.split path in
  map (fun n => render (take n elems)) (seq 1 (length elems - 1)).

(** [.], [/] and chains of [..] always name directories. *)
Definition always_dir (path : string) : bool :=
  bool_decide (path = "/")
  || forallb (fun e => bool_decide (e = "." \/ e = ".."))
             (Filepath.split path).

Definition node_at (fs : gmap string node) (path : string) : option node :=
  if always_dir path then Some Dir else fs !! path.

(** Path resolution: every ancestor must be a directory. *)
Fixpoint walk (fs : gmap string node) (dirs : list string) : option errno :=
  match dirs with
  | [] => None
  | d :: rest =>
    match node_at fs d with
    | Some Dir => walk fs rest
    | Some (File _) => Some ENOTDIR
    | None => Some ENOENT
    end
  end.

Definition resolve (fs : gmap string node) (path : string)
  : result (option node) :=
  if has_nul path then Err EINVAL
  else match walk fs (ancestors path) with
       | Some e => Err e
       | None => Ok (node_at fs path)
       end.

Definition record (c : call) : M unit :=
  fun s => (tt, mkState (files s) (log s ++ [c])).

Definition get_files : M (gmap string node) := fun s => (files s, s).
Definition put_files (fs : gmap string node) : M unit :=
  fun s => (tt, mkState fs (log s)).

(** [os.Stat] *)
Definition Stat (path : string) : M (result node) :=
  bind (record (CStat path)) (fun _ =>
  bind get_files (fun fs =>
  ret match resolve fs path with
      | inr e => Err e
      | inl None => Err ENOENT
      | inl (Some n) => Ok n
      end)).

(** [os.IsNotExist] on the error of a call. *)
Definition IsNotExist {A} (r : result A) : bool :=
  match r with
  | inr ENOENT => true
  | _ => false
  end.

Fixpoint mkdir_chain (fs : gmap string node) (dirs : list string)
  : gmap string node * option errno :=
  match dirs with
  | [] => (fs, None)
  | d :: rest =>
    match node_at fs d with
    | Some Dir => mkdir_chain fs rest
    | Some (File _) => (fs, Some ENOTDIR)
    | None => mkdir_chain (<[d := Dir]> fs) rest
    end
  end.

(** [os.MkdirAll]: creates the directory and every missing parent, and
    succeeds without change when the directory exists. *)
Definition MkdirAll (path : string) : M (option errno) :=
  bind (record (CMkdirAll path)) (fun _ =>
  bind get_files (fun fs =>
  if has_nul path then ret (Some EINVAL)
  else
    let '(fs', e) := mkdir_chain fs (ancestors path ++ [path]) in
    bind (put_files fs') (fun _ => ret e))).

(** Opening for writing with [O_CREATE]; [trunc] is [O_TRUNC].  The
    result is the open file, named by its path. *)
Definition open_write (trunc : bool) (path : string) : M (result string) :=
  bind get_files (fun fs =>
  match resolve fs path with
  | inr e => ret (Err e)
  | inl (Some Dir) => ret (Err EISDIR)
  | inl (Some (File d)) =>
    if trunc
    then bind (put_files (<[path := File ""]> fs)) (fun _ => ret (Ok path))
    else ret (Ok path)
  | inl None =>
    bind (put_files (<[path := File ""]> fs)) (fun _ => ret (Ok path))
  end).

(** [os.Create] *)
Definition Create (path : string) : M (result string) :=
  bind (record (CCreate path)) (fun _ => open_write true path).

(** [os.OpenFile] with [O_APPEND|O_CREATE|O_WRONLY] *)
Definition OpenFileAppend (path : string) : M (result string) :=
  bind (record (COpenFile path)) (fun _ => open_write false path).

(** [File.Stat], reduced to the size it reports. *)
Definition FileSize (file : string) : M (result nat) :=
  bind (record (CFileStat file)) (fun _ =>
  bind get_files (fun fs =>
  ret match fs !! file with
      | Some (File d) => Ok (String.length d)
      | _ => Err ENOENT
      end)).

(** A write through a file opened by [Create] or [OpenFileAppend]: the
    bytes go to the end of the file. *)
Definition Write (file : string) (data : string) : M (option errno) :=
  bind (record (CWrite file data)) (fun _ =>
  bind get_files (fun fs =>
  match fs !! file with
  | Some (File d) =>
    bind (put_files (<[file := File (d ++ data)]> fs)) (fun _ => ret None)
  | _ => ret (Some ENOENT)
  end)).

(** [os.ReadFile] *)
Definition ReadFile (path : string) : M (result string) :=
  bind (record (CReadFile path)) (fun _ =>
  bind get_files (fun fs =>
  ret match resolve fs path with
      | inr e => Err e
      | inl None => Err ENOENT
      | inl (Some Dir) => Err EISDIR
      | inl (Some (File d)) => Ok d
      end)).

Definition empty : state := mkState ∅ [].

End Os.

Notation "'do' x <- m ; k" := (Os.bind m (fun x => k))
  (at level 10, x pattern, m at level 100, k at level 200,
   format "'[v' 'do'  x  <-  m ; '/' k ']'").
Notation "'run' m ; k" := (Os.bind m (fun _ => k))
  (at level 10, m at level 100, k at level 200,
   format "'[v' 'run'  m ; '/' k ']'").

(** ** Package [encoding/json] *)

Module Json.

(** A JSON document; the members of an object are kept in document
    order. *)
Inductive value : Type :=
| Null
| Bool (b : bool)
| Number (lit : string)
| Str (s : string)
| Array (l : list value)
| Object (ms : list (string * value)).

(** *** Encoding of strings ([appendString] with HTML escaping) *)

Definition html_safe (b : N) : bool :=
  (32 <=? b)%N && negb (b =? 34)%N && negb (b =? 92)%N
  && negb (b =? 60)%N && negb (b =? 62)%N && negb (b =? 38)%N.

Definition escape_byte (c : ascii) : bytes :=
  let b := Byte.val c in
  if (b =? 92)%N || (b =? 34)%N then [Byte.backslash; c]
  else if (b =? 8)%N then to_bytes "\b"
  else if (b =? 12)%N then to_bytes "\f"
  else if (b =? 10)%N then to_bytes "\n"
  else if (b =? 13)%N then to_bytes "\r"
  else if (b =? 9)%N then to_bytes "\t"
  else to_bytes "\u00"
       ++ [Byte.hex_digit (N.shiftr b 4); Byte.hex_digit (N.land b 15)].

Fixpoint quote_go (fuel : nat) (src : bytes) : bytes :=
  match fuel with
  | O => []
  | S fuel' =>
    match src with
    | [] => []
    | c :: rest =>
      let b := Byte.val c in
      if (b <? 128)%N then
        (if html_safe b then [c] else escape_byte c) ++ quote_go fuel' rest
      else
        let '(r, size) := Utf8.DecodeRune src in
        if (r =? Utf8.RuneError)%N && (size =? 1)%nat then
          to_bytes "\u" ++ to_bytes "fffd" ++ quote_go fuel' rest
        else if (r =? 8232)%N || (r =? 8233)%N then
          to_bytes "\u202" ++ [Byte.hex_digit (N.land r 15)]
          ++ quote_go fuel' (skipn size src)
        else take size src ++ quote_go fuel' (skipn size src)
    end
  end.

Definition appendString (s : string) : bytes :=
  [Byte.quote] ++ quote_go (String.length s) (to_bytes s) ++ [Byte.quote].

(** *** Compact and indented output *)

Fixpoint compact (v : value) : bytes :=
  match v with
  | Null => to_bytes "null"
  | Bool true => to_bytes "true"
  | Bool false => to_bytes "false"
  | Number lit => to_bytes lit
  | Str s => appendString s
  | Array l =>
    to_bytes "[" ++
    match l with
    | [] => []
    | x :: xs =>
      compact x ++
      (fix more (l : list value) : bytes :=
         match l with
         | [] => []
         | y :: ys => to_bytes "," ++ compact y ++ more ys
         end) xs
    end ++ to_bytes "]"
  | Object ms =>
    to_bytes "{" ++
    match ms with
    | [] => []
    | (k, x) :: xs =>
      appendString k ++ to_bytes ":" ++ compact x ++
      (fix more (l : list (string * value)) : bytes :=
         match l with
         | [] => []
         | (k', y) :: ys =>
           to_bytes "," ++ appendString k' ++ to_bytes ":" ++ compact y
           ++ more ys
         end) xs
    end ++ to_bytes "}"
  end.

Definition newline (indent : string) (depth : nat) : bytes :=
  Byte.newline :: concat (repeat (to_bytes indent) depth).

(** The text [json.Indent] makes of [compact v] with an empty prefix:
    one element or member per line, a space after each colon, and empty
    arrays and objects kept on one line. *)
Fixpoint indented (indent : string) (depth : nat) (v : value) : bytes :=
  match v with
  | Array (x :: xs) =>
    to_bytes "[" ++ newline indent (S depth) ++ indented indent (S depth) x
    ++ (fix more (l : list value) : bytes :=
          match l with
          | [] => []
          | y :: ys =>
            to_bytes "," ++ newline indent (S depth)
            ++ indented indent (S depth) y ++ more ys
          end) xs
    ++ newline indent depth ++ to_bytes "]"
  | Object ((k, x) :: xs) =>
    to_bytes "{" ++ newline indent (S depth)
    ++ appendString k ++ to_bytes ": " ++ indented indent (S depth) x
    ++ (fix more (l : list (string * value)) : bytes :=
          match l with
          | [] => []
          | (k', y) :: ys =>
            to_bytes "," ++ newline indent (S depth)
            ++ appendString k' ++ to_bytes ": "
            ++ indented indent (S depth) y ++ more ys
          end) xs
    ++ newline indent depth ++ to_bytes "}"
  | _ => compact v
  end.

(** *** Decoding: the syntax *)

Definition is_ws (c : ascii) : bool :=
  let b := Byte.val c in
  (b =? 32)%N || (b =? 9)%N || (b =? 13)%N || (b =? 10)%N.

Fixpoint skip_ws (s : bytes) : bytes :=
  match s with
  | c :: r => if is_ws c then skip_ws r else s
  | [] => []
  end.

Fixpoint strip_prefix (p s : bytes) : option bytes :=
  match p, s with
  | [], _ => Some s
  | a :: p', b :: s' => if Byte.eqb a b then strip_prefix p' s' else None
  | _ :: _, [] => None
  end.

(** Four hexadecimal digits ([getu4] after the [\u]). *)
Definition hex4 (s : bytes) : option (N * bytes) :=
  match s with
  | a :: b :: c :: d :: r =>
    match Byte.hex_val a, Byte.hex_val b, Byte.hex_val c, Byte.hex_val d with
    | Some x, Some y, Some z, Some w =>
      Some (x * 4096 + y * 256 + z * 16 + w, r)%N
    | _, _, _, _ => None
    end
  | _ => None
  end.

(** [utf16.DecodeRune] *)
Definition utf16_pair (r1 r2 : N) : option N :=
  if (55296 <=? r1)%N && (r1 <? 56320)%N
     && (56320 <=? r2)%N && (r2 <? 57344)%N
  then Some (N.lor (N.shiftl (r1 - 55296) 10) (r2 - 56320) + 65536)%N
  else None.

(** The rune of a [\uXXXX] escape whose digits are [rr], and the input
    left: a surrogate is combined with a following low surrogate escape
    or replaced by U+FFFD. *)
Definition unicode_escape (rr : N) (rest : bytes) : N * bytes :=
  if Utf8.is_surrogate rr then
    match rest with
    | a :: b :: rest' =>
      if Byte.eqb a Byte.backslash && Byte.eqb b "u"%char then
        match hex4 rest' with
        | Some (rr1, rest'') =>
          match utf16_pair rr rr1 with
          | Some dec => (dec, rest'')
          | None => (Utf8.RuneError, rest)
          end
        | None => (Utf8.RuneError, rest)
        end
      else (Utf8.RuneError, rest)
    | _ => (Utf8.RuneError, rest)
    end
  else (rr, rest).

(** A string literal after its opening quote: the decoded bytes and the
    input after the closing quote.  Control characters and unknown
    escapes are syntax errors; malformed UTF-8 is replaced by U+FFFD. *)
Fixpoint string_body (fuel : nat) (s : bytes) : option (bytes * bytes) :=
  match fuel with
  | O => None
  | S fuel' =>
    match s with
    | [] => None
    | c :: r =>
      let b := Byte.val c in
      if (b =? 34)%N then Some ([], r)
      else if (b =? 92)%N then
        match r with
        | [] => None
        | e :: r' =>
          let simple (x : ascii) :=
            match string_body fuel' r' with
            | Some (t, r'') => Some (x :: t, r'')
            | None => None
            end in
          let eb := Byte.val e in
          if (eb =? 34)%N || (eb =? 92)%N || (eb =? 47)%N then simple e
          else if (eb =? 98)%N then simple (Byte.of_N 8)
          else if (eb =? 102)%N then simple (Byte.of_N 12)
          else if (eb =? 110)%N then simple (Byte.of_N 10)
          else if (eb =? 114)%N then simple (Byte.of_N 13)
          else if (eb =? 116)%N then simple (Byte.of_N 9)
          else if (eb =? 117)%N then
            match hex4 r' with
            | Some (rr, r'') =>
              let '(rune, r3) := unicode_escape rr r'' in
              match string_body fuel' r3 with
              | Some (t, r4) => Some (Utf8.EncodeRune rune ++ t, r4)
              | None => None
              end
            | None => None
            end
          else None
        end
      else if (b <? 32)%N then None
      else if (b <? 128)%N then
        match string_body fuel' r with
        | Some (t, r') => Some (c :: t, r')
        | None => None
        end
      else
        let '(rune, size) := Utf8.DecodeRune s in
        match string_body fuel' (skipn size s) with
        | Some (t, r') => Some (Utf8.EncodeRune rune ++ t, r')
        | None => None
        end
    end
  end.

Fixpoint digits (s : bytes) : bytes * bytes :=
  match s with
  | c :: r =>
    if Byte.is_digit c then let '(d, r') := digits r in (c :: d, r')
    else ([], s)
  | [] => ([], [])
  end.

Definition digits1 (s : bytes) : option (bytes * bytes) :=
  match digits s with
  | ([], _) => None
  | (d, r) => Some (d, r)
  end.

(** The longest number literal at the head of the input. *)
Definition number (s : bytes) : option (bytes * bytes) :=
  let '(sign, s1) :=
    match s with
    | c :: r => if Byte.eqb c "-"%char then ([c], r) else ([], s)
    | [] => ([], s)
    end in
  match s1 with
  | [] => None
  | c :: r =>
    let int_part :=
      if Byte.eqb c "0"%char then Some ([c], r)
      else if Byte.is_digit c then digits1 s1
      else None in
    match int_part with
    | None => None
    | Some (i, s2) =>
      let frac_part :=
        match s2 with
        | c2 :: r2 =>
          if Byte.eqb c2 "."%char then
            match digits1 r2 with
            | Some (d, r3) => Some (c2 :: d, r3)
            | None => None
            end
          else Some ([], s2)
        | [] => Some ([], s2)
        end in
      match frac_part with
      | None => None
      | Some (f, s3) =>
        match s3 with
        | c3 :: r3 =>
          if Byte.eqb c3 "e"%char || Byte.eqb c3 "E"%char then
            let '(esign, r4) :=
              match r3 with
              | c4 :: r4 =>
                if Byte.eqb c4 "+"%char || Byte.eqb c4 "-"%char
                then ([c4], r4) else ([], r3)
              | [] => ([], r3)
              end in
            match digits1 r4 with
            | Some (d, r5) => Some (sign ++ i ++ f ++ c3 :: esign ++ d, r5)
            | None => None
            end
          else Some (sign ++ i ++ f, s3)
        | [] => Some (sign ++ i ++ f, s3)
        end
      end
    end
  end.

Definition maxNestingDepth : N := 10000.

(** One value at the head of the input, after white space; [depth] is
    the number of arrays and objects already open. *)
Fixpoint parse_value (fuel : nat) (depth : N) (s : bytes)
  : option (value * bytes) :=
  match fuel with
  | O => None
  | S fuel' =>
    match skip_ws s with
    | [] => None
    | c :: r =>
      let b := Byte.val c in
      if (b =? 34)%N then
        match string_body (length r) r with
        | Some (t, r') => Some (Str (of_bytes t), r')
        | None => None
        end
      else if (b =? 91)%N then
        if (maxNestingDepth <? depth + 1)%N then None
        else match skip_ws r with
             | c' :: r' =>
               if (Byte.val c' =? 93)%N then Some (Array [], r')
               else match parse_elems fuel' (depth + 1) r with
                    | Some (l, r'') => Some (Array l, r'')
                    | None => None
                    end
             | [] => None
             end
      else if (b =? 123)%N then
        if (maxNestingDepth <? depth + 1)%N then None
        else match skip_ws r with
             | c' :: r' =>
               if (Byte.val c' =? 125)%N then Some (Object [], r')
               else match parse_members fuel' (depth + 1) r with
                    | Some (l, r'') => Some (Object l, r'')
                    | None => None
                    end
             | [] => None
             end
      else if (b =? 116)%N then
        option_map (pair (Bool true)) (strip_prefix (to_bytes "true") (c :: r))
      else if (b =? 102)%N then
        option_map (pair (Bool false))
                   (strip_prefix (to_bytes "false") (c :: r))
      else if (b =? 110)%N then
        option_map (pair Null) (strip_prefix (to_bytes "null") (c :: r))
      else
        match number (c :: r) with
        | Some (lit, r') => Some (Number (of_bytes lit), r')
        | None => None
        end
    end
  end
with parse_elems (fuel : nat) (depth : N) (s : bytes)
  : option (list value * bytes) :=
  match fuel with
  | O => None
  | S fuel' =>
    match parse_value fuel' depth s with
    | Some (v, r) =>
      match skip_ws r with
      | c :: r' =>
        if (Byte.val c =? 44)%N then
          match parse_elems fuel' depth r' with
          | Some (l, r'') => Some (v :: l, r'')
          | None => None
          end
        else if (Byte.val c =? 93)%N then Some ([v], r')
        else None
      | [] => None
      end
    | None => None
    end
  end
with parse_members (fuel : nat) (depth : N) (s : bytes)
  : option (list (string * value) * bytes) :=
  match fuel with
  | O => None
  | S fuel' =>
    match skip_ws s with
    | q :: r0 =>
      if (Byte.val q =? 34)%N then
        match string_body (length r0) r0 with
        | Some (k, r1) =>
          match skip_ws r1 with
          | colon :: r2 =>
            if (Byte.val colon =? 58)%N then
              match parse_value fuel' depth r2 with
              | Some (v, r3) =>
                match skip_ws r3 with
                | c :: r4 =>
                  if (Byte.val c =? 44)%N then
                    match parse_members fuel' depth r4 with
                    | Some (l, r5) => Some ((of_bytes k, v) :: l, r5)
                    | None => None
                    end
                  else if (Byte.val c =? 125)%N
                  then Some ([(of_bytes k, v)], r4)
                  else None
                | [] => None
                end
              | None => None
              end
            else None
          | [] => None
          end
        | None => None
        end
      else None
    | [] => None
    end
  end.

(** A whole document: one value and nothing but white space after it
    ([checkValid]). *)
Definition parse (text : string) : option value :=
  let s := to_bytes text in
  match parse_value (2 * length s + 2) 0 s with
  | Some (v, r) => match skip_ws r with [] => Some v | _ => None end
  | None => None
  end.

(** *** Decoding into Go values *)

(** A Go map with string keys, as the association list of its entries
    in increasing key order (the order in which [Marshal] writes them). *)
Fixpoint map_insert (k : string) (v : value) (l : list (string * value))
  : list (string * value) :=
  match l with
  | [] => [(k, v)]
  | (k', v') :: r =>
    match String.compare k k' with
    | Lt => (k, v) :: l
    | Eq => (k, v) :: r
    | Gt => (k', v') :: map_insert k v r
    end
  end.

Definition map_of_members (ms : list (string * value))
  : list (string * value) :=
  fold_left (fun acc kv => map_insert (fst kv) (snd kv) acc) ms [].

Section Interface.

(** The text [Marshal] writes for the [float64] that
    [strconv.ParseFloat] reads from a number literal, [None] when the
    literal is out of range.  Floating point stays outside the model. *)
Variable float64 : string -> option string.

(** Decoding into [interface{}]: objects become maps (a repeated key
    keeps its last value), numbers become [float64]. *)
Fixpoint valueInterface (v : value) : option value :=
  match v with
  | Number lit => option_map Number (float64 lit)
  | Array l =>
    option_map Array
      ((fix each (l : list value) : option (list value) :=
          match l with
          | [] => Some []
          | x :: xs =>
            match valueInterface x, each xs with
            | Some a, Some b => Some (a :: b)
            | _, _ => None
            end
          end) l)
  | Object ms =>
    option_map (fun ms' => Object (map_of_members ms'))
      ((fix each (l : list (string * value))
          : option (list (string * value)) :=
          match l with
          | [] => Some []
          | (k, x) :: xs =>
            match valueInterface x, each xs with
            | Some a, Some b => Some ((k, a) :: b)
            | _, _ => None
            end
          end) ms)
  | _ => Some v
  end.

(** [json.Unmarshal] into a nil [map[string]interface{}]: the map
    ([Null] is the nil map that the document [null] leaves), or
    [None] when [Unmarshal] returns an error. *)
Definition Unmarshal_map (data : string) : option value :=
  match parse data with
  | Some Null => Some Null
  | Some (Object ms) => valueInterface (Object ms)
  | _ => None
  end.

End Interface.

(** An element of a JSON array decoded into a [string]: [null] leaves
    the zero value, and so does any other non-string value, with a type
    error. *)
Definition string_element (v : value) : string * bool :=
  match v with
  | Str s => (s, true)
  | Null => ("", true)
  | _ => ("", false)
  end.

(** [json.Unmarshal] into a [[]string] that holds [old]: the slice
    afterwards and whether the returned error is nil.  A syntax error
    and a document that is not an array leave the slice as it was. *)
Definition Unmarshal_strings (data : string) (old : list string)
  : list string * bool :=
  match parse data with
  | None => (old, false)
  | Some Null => ([], true)
  | Some (Array l) =>
    (map (fun v => fst (string_element v)) l,
     forallb (fun v => snd (string_element v)) l)
  | Some _ => (old, false)
  end.

(** [json.Marshal] of a decoded value. *)
Definition Marshal (v : value) : string := of_bytes (compact v).

End Json.

(** ** Package [encoding/csv]: the writer *)

Module Csv.

Definition special (c : ascii) : bool :=
  let b := Byte.val c in
  (b =? 10)%N || (b =? 13)%N || (b =? 34)%N || (b =? 44)%N.

(** [fieldNeedsQuotes] for the comma delimiter. *)
Definition fieldNeedsQuotes (field : string) : bool :=
  if decide (field = "") then false
  else if decide (field = "\.") then true
  else if existsb special (to_bytes field) then true
  else Utf8.IsSpace (fst (Utf8.DecodeRune (to_bytes field))).

Fixpoint quoted (s : bytes) : bytes :=
  match s with
  | [] => []
  | c :: r =>
    if Byte.eqb c Byte.quote then Byte.quote :: Byte.quote :: quoted r
    else c :: quoted r
  end.

Definition field_text (field : string) : bytes :=
  if fieldNeedsQuotes field
  then [Byte.quote] ++ quoted (to_bytes field) ++ [Byte.quote]
  else to_bytes field.

Fixpoint fields_text (record : list string) : bytes :=
  match record with
  | [] => []
  | [f] => field_text f
  | f :: r => field_text f ++ to_bytes "," ++ fields_text r
  end.

(** [Writer.Write] without [UseCRLF]: the bytes of one record. *)
Definition Write (record : list string) : string :=
  of_bytes (fields_text record ++ [Byte.newline]).

End Csv.

(** ** Package [text/template]

    The fragment of the template language that [form.html] uses: text and
    actions that print one key of the data map, [{{ .key }}].  Any other
    action is reported as an error. *)

Module Template.

Inductive node : Type :=
| Text (t : bytes)
| Field (name : string).

Definition is_space (c : ascii) : bool :=
  let b := Byte.val c in
  (b =? 32)%N || (b =? 9)%N || (b =? 13)%N || (b =? 10)%N.

Fixpoint skip_space (s : bytes) : bytes :=
  match s with
  | c :: r => if is_space c then skip_space r else s
  | [] => []
  end.

Definition is_ident (c : ascii) : bool :=
  Byte.is_digit c || Byte.is_upper c || Byte.is_lower c
  || Byte.eqb c "_"%char.

Fixpoint ident (s : bytes) : bytes * bytes :=
  match s with
  | c :: r =>
    if is_ident c then let '(i, r') := ident r in (c :: i, r')
    else ([], s)
  | [] => ([], [])
  end.

(** The inside of an action, after the left delimiter. *)
Definition action (s : bytes) : option (string * bytes) :=
  match skip_space s with
  | dot :: r =>
    if Byte.eqb dot "."%char then
      match ident r with
      | ([], _) => None
      | (name, r') =>
        match skip_space r' with
        | a :: b :: r'' =>
          if Byte.eqb a "}"%char && Byte.eqb b "}"%char
          then Some (of_bytes name, r'')
          else None
        | _ => None
        end
      end
    else None
  | [] => None
  end.

Definition add_text (c : ascii) (ns : list node) : list node :=
  match ns with
  | Text t :: ns' => Text (c :: t) :: ns'
  | _ => Text [c] :: ns
  end.

Fixpoint parse_go (fuel : nat) (s : bytes) : option (list node) :=
  match fuel with
  | O => None
  | S fuel' =>
    match s with
    | [] => Some []
    | c :: r =>
      let text := option_map (add_text c) (parse_go fuel' r) in
      if Byte.eqb c "{"%char then
        match r with
        | c' :: r' =>
          if Byte.eqb c' "{"%char then
            match action r' with
            | Some (name, rest) =>
              option_map (cons (Field name)) (parse_go fuel' rest)
            | None => None
            end
          else text
        | [] => text
        end
      else text
    end
  end.

Definition Parse (text : string) : option (list node) :=
  parse_go (S (String.length text)) (to_bytes text).

(** Execution on a map of strings: a missing key prints [<no value>]. *)
Definition exec_node (data : gmap string string) (n : node) : bytes :=
  match n with
  | Text t => t
  | Field name => to_bytes (default "<no value>" (data !! name))
  end.

Definition Execute (t : list node) (data : gmap string string) : string :=
  of_bytes (concat (map (exec_node data) t)).

End Template.

(** ** The program: types and configuration *)

(** A Go string literal may hold a double quote; here it is spliced in. *)
Definition dq : string := String Byte.quote "".
Definition lf : string := String Byte.newline "".
Definition ht : string := String Byte.tab "".

Record Field : Type := mkField {
  Label : string;
  Type_ : string;
  Name : string;
  Placeholder : string
}.

(** [Fields] is a slice: [None] is the nil slice, which an absent or
    [null] member leaves behind, and [Some []] the empty one. *)
Record Form : Type := mkForm {
  Title : string;
  Fields : option (list Field)
}.

Record APPConfig : Type := mkAPPConfig {
  Host : string;
  Port : string;
  Domain : string
}.

Record Config : Type := mkConfig {
  APPConfig_ : APPConfig;
  ClientKeys : string
}.

Definition versionAPP : string := "1.0.0".

Definition validFieldTypes : gmap string bool :=
  list_to_map [("text", true); ("email", true); ("textarea", true);
               ("number", true); ("date", true); ("checkbox", true)].

(** The defaults of the [env] tags. *)
Definition defaultConfig : Config :=
  mkConfig (mkAPPConfig "0.0.0.0" "8080" "http://0.0.0.0:8080")
           ("[" ++ dq ++ "api-key-1" ++ dq ++ "," ++ dq ++ "api-key-2" ++ dq
            ++ "]").

Definition fieldTypeValidator (fieldType : string) : bool :=
  bool_decide (is_Some (validFieldTypes !! fieldType)).

(** [main], as far as the key store goes: [allowedClientKeys] starts as
    an empty slice and the error of [json.Unmarshal] is dropped. *)
Definition main_allowedClientKeys (conf : Config) : list string :=
  fst (Json.Unmarshal_strings (ClientKeys conf) []).

(** [fmt.Sprintf("%d", n)] *)
Definition fmt_d (n : Z) : string := NilZero.string_of_int (Z.to_int n).

(** ** Package [validator]: the tags of [Form] and [Field] *)

Module Validator.

Record FieldError : Type := mkFieldError {
  Namespace : string;
  FieldName : string;
  Tag : string
}.

Definition required (s : string) : bool := negb (bool_decide (s = "")).

(** [alphanum]: the whole value matches [[a-zA-Z0-9]+]. *)
Definition is_alnum (c : ascii) : bool :=
  Byte.is_digit c || Byte.is_upper c || Byte.is_lower c.

Definition alphanum (s : string) : bool :=
  negb (bool_decide (s = "")) && forallb is_alnum (to_bytes s).

(** The tags of one field are tried in order and the first that fails
    is reported. *)
Fixpoint first_failure (tags : list (string * bool)) : option string :=
  match tags with
  | [] => None
  | (tag, ok) :: rest => if ok then first_failure rest else Some tag
  end.

Definition check (ns name : string) (tags : list (string * bool))
  : list FieldError :=
  match first_failure tags with
  | Some tag => [mkFieldError (ns ++ name) name tag]
  | None => []
  end.

Definition validate_Field (ns : string) (f : Field) : list FieldError :=
  check ns "Label" [("required", required (Label f))]
  ++ check ns "Type" [("required", required (Type_ f));
                      ("fieldtype", fieldTypeValidator (Type_ f))]
  ++ check ns "Name" [("required", required (Name f));
                      ("alphanum", alphanum (Name f))].

Fixpoint dive (i : nat) (l : list Field) : list FieldError :=
  match l with
  | [] => []
  | f :: rest =>
    validate_Field ("Form.Fields[" ++ fmt_d (Z.of_nat i) ++ "].") f
    ++ dive (S i) rest
  end.

(** [validate.Struct] on a [Form]: [required] on a slice asks for a
    slice that is not nil. *)
Definition Struct (form : Form) : list FieldError :=
  check "Form." "Title" [("required", required (Title form))]
  ++ match Fields form with
     | None => check "Form." "Fields" [("required", false)]
     | Some l => dive 0 l
     end.

Definition Error_one (e : FieldError) : string :=
  "Key: '" ++ Namespace e ++ "' Error:Field validation for '"
  ++ FieldName e ++ "' failed on the '" ++ Tag e ++ "' tag".

(** [ValidationErrors.Error]: one line per failure. *)
Definition Error (errs : list FieldError) : string :=
  Filepath.join_sep lf (map Error_one errs).

End Validator.

(** [CustomValidator.Validate]: the error, if any. *)
Definition Validate (form : Form) : option string :=
  match Validator.Struct form with
  | [] => None
  | errs => Some (Validator.Error errs)
  end.

(** ** Responses *)

Inductive Body : Type :=
| JSONMap (m : gmap string string)
| JSONString (s : string)
| HTML (s : string).

Record Response : Type := mkResponse {
  Status : nat;
  Payload : Body
}.

Definition message (status : nat) (msg : string) : Response :=
  mkResponse status (JSONMap {[ "message" := msg ]}).

Definition StatusOK : nat := 200.
Definition StatusBadRequest : nat := 400.
Definition StatusForbidden : nat := 403.
Definition StatusNotFound : nat := 404.
Definition StatusInternalServerError : nat := 500.

(** [c.JSON(http.StatusInternalServerError, http.StatusText(...))] *)
Definition internalServerError : Response :=
  mkResponse StatusInternalServerError (JSONString "Internal Server Error").

(** ** The access gate *)

(** [next] is the gated handler; it receives the values the middleware
    has set on the request context. *)
Definition clientKeyMiddleware (allowedClientKeys : list string)
    (next : gmap string string -> Os.M Response) (header : option string)
  : Os.M Response :=
  let clientKey := default "" header in
  if decide (clientKey = "") then
    Os.ret (message StatusForbidden "x-client-key header is required")
  else if existsb (fun v => bool_decide (clientKey = v)) allowedClientKeys
  then next {[ "clientKey" := clientKey ]}
  else Os.ret (message StatusForbidden "key is not found").

(** ** Helpers *)

Definition makeHTML (templateFileName : string) (data : gmap string string)
  : Os.M (option string) :=
  do file <- Os.ReadFile templateFileName;
  match file with
  | inr _ => Os.ret None
  | inl text =>
    match Template.Parse text with
    | None => Os.ret None
    | Some t => Os.ret (Some (Template.Execute t data))
    end
  end.

Definition fileExists (path : string) : Os.M bool :=
  do r <- Os.Stat path;
  Os.ret (negb (Os.IsNotExist r)).

Definition loadJSON (float64 : string -> option string) (path : string)
  : Os.M (option Json.value) :=
  do file <- Os.ReadFile path;
  match file with
  | inr _ => Os.ret None
  | inl data => Os.ret (Json.Unmarshal_map float64 data)
  end.

(** [m[k]] on a map of strings: the zero value for a missing key. *)
Definition index (m : gmap string string) (k : string) : string :=
  default "" (m !! k).

(** The keys of a map in an order in which [range] may visit them: each
    key once, in any order. *)
Definition range_order (m : gmap string string) (keys : list string) : Prop :=
  NoDup keys /\ (list_to_set keys : gset string) = dom m.

(** [sort.Strings] *)
Definition sort_Strings (keys : list string) : list string :=
  merge_sort String.le keys.

(** [sortByKey]; [visit] is the order in which [range] visits [in_]. *)
Definition sortByKey (visit : list string) (in_ : gmap string string)
  : gmap string string :=
  let keys := sort_Strings visit in
  foldl (fun out key => <[ key := index in_ key ]> out) ∅ keys.

(** ** The handlers of [registerPath] *)

Definition failedMissingMandatoryParameterMsg : gmap string string :=
  {[ "message" := "Missing mandatory parameter" ]}.

Definition failedNotfoundMsg : gmap string string :=
  {[ "message" :=
       "Failed get form because the form not found or no longer exists" ]}.

(** The value a [Form] is encoded as, members in field order. *)
Definition Field_value (f : Field) : Json.value :=
  Json.Object [("label", Json.Str (Label f)); ("type", Json.Str (Type_ f));
               ("name", Json.Str (Name f));
               ("placeholder", Json.Str (Placeholder f))].

Definition Form_value (form : Form) : Json.value :=
  Json.Object [("title", Json.Str (Title form));
               ("fields", match Fields form with
                          | None => Json.Null
                          | Some l => Json.Array (map Field_value l)
                          end)].

(** [Encoder.Encode] after [SetIndent("", "  ")]. *)
Definition Encode (form : Form) : string :=
  of_bytes (Json.indented "  " 0 (Form_value form) ++ [Byte.newline]).

(** [POST /api/save-form]; [bound] is what [c.Bind] made of the body
    ([None] when it failed) and [now] is [time.Now().UnixMilli()]. *)
Definition saveForm (now : Z) (bound : option Form) : Os.M Response :=
  match bound with
  | None => Os.ret (message StatusBadRequest "Invalid form structure")
  | Some form =>
    match Validate form with
    | Some err => Os.ret (message StatusBadRequest err)
    | None =>
      let timestamp := now in
      let dir := Filepath.Join ["form-build"; fmt_d timestamp] in
      do e <- Os.MkdirAll dir;
      match e with
      | Some _ =>
        Os.ret (message StatusInternalServerError "Failed to create directory")
      | None =>
        let filePath := Filepath.Join [dir; "form.json"] in
        do r <- Os.Create filePath;
        match r with
        | inr _ =>
          Os.ret (message StatusInternalServerError "Failed to create file")
        | inl file =>
          do w <- Os.Write file (Encode form);
          match w with
          | Some _ =>
            Os.ret (message StatusInternalServerError
                            "Failed to write to file")
          | None =>
            Os.ret (mkResponse StatusOK
                      (JSONMap {[ "message" := "Form saved successfully";
                                  "path" := filePath ]}))
          end
        end
      end
    end
  end.

(** [GET /api/get-form/:formID] *)
Definition getForm (appConf : APPConfig) (float64 : string -> option string)
    (ID : string) : Os.M Response :=
  if decide (ID = "") then
    Os.ret (mkResponse StatusBadRequest
                       (JSONMap failedMissingMandatoryParameterMsg))
  else
    let filePath := Filepath.Join ["form-build"; ID; "form.json"] in
    do found <- fileExists filePath;
    if negb found then
      Os.ret (mkResponse StatusNotFound (JSONMap failedNotfoundMsg))
    else
      do loaded <- loadJSON float64 filePath;
      match loaded with
      | None => Os.ret internalServerError
      | Some jsonData =>
        let jsonStr := Json.Marshal jsonData in
        do form <- makeHTML (Filepath.Join ["form-build"; "form.html"])
                     {[ "data" := jsonStr;
                        "url" := (Domain appConf
                                  ++ Filepath.Join ["/api/submit-form/"; ID])
                                 %string;
                        "clientXToken" := "x.y.z" ]};
        match form with
        | None => Os.ret internalServerError
        | Some html => Os.ret (mkResponse StatusOK (HTML html))
        end
      end.

(** The orders in which the three [range] loops of the submit handler
    visit their maps. *)
Record Ranges : Type := mkRanges {
  range_sortByKey : list string;
  range_headers : list string;
  range_record : list string
}.

Definition htmlResponse (referrer : string) : string :=
  "<meta http-equiv=" ++ dq ++ "refresh" ++ dq ++ " content=" ++ dq
  ++ "3;url=" ++ referrer ++ dq ++ " />" ++ lf ++ ht ++ ht
  ++ "<h1>Form submitted successfully, you will redirect previous page in 3 seconds</h1>"
  ++ lf ++ ht ++ ht.

(** The map the submit handler writes: the bound map without the
    reserved keys, through [sortByKey]. *)
Definition answer (visit : list string) (formData : gmap string string)
  : gmap string string :=
  sortByKey visit
    (delete "referrer" (delete "clientXToken" (delete "formID" formData))).

(** [POST /api/submit-form/:formID].  The csv writer buffers the rows and
    the deferred [Flush] hands them to the file. *)
Definition submitForm (ranges : Ranges) (bound : option (gmap string string))
  : Os.M Response :=
  match bound with
  | None => Os.ret (message StatusBadRequest "Invalid form data")
  | Some formData =>
    if decide (index formData "formID" = "") then
      Os.ret (message StatusBadRequest "Invalid form data")
    else
      let dir := Filepath.Join ["form-build"; index formData "formID"] in
      do e <- Os.MkdirAll dir;
      match e with
      | Some _ =>
        Os.ret (message StatusInternalServerError "Failed to create directory")
      | None =>
        let referrer := index formData "referrer" in
        let formData := answer (range_sortByKey ranges) formData in
        let csvFilePath := Filepath.Join [dir; "form_answer.csv"] in
        do r <- Os.OpenFileAppend csvFilePath;
        match r with
        | inr _ =>
          Os.ret (message StatusInternalServerError "Failed to open CSV file")
        | inl file =>
          do info <- Os.FileSize file;
          match info with
          | inr _ =>
            Os.ret (message StatusInternalServerError
                            "Failed to get file info")
          | inl size =>
            let isNewFile := (size =? 0)%nat in
            let headers :=
              if isNewFile then Csv.Write (range_headers ranges) else "" in
            let record := map (index formData) (range_record ranges) in
            run Os.Write file (headers ++ Csv.Write record);
            Os.ret (mkResponse StatusOK (HTML (htmlResponse referrer)))
          end
        end
      end
  end.

(** What the runtime contributes to a request: the clock and the orders
    of map iteration. *)
Record Runtime : Type := mkRuntime {
  Now : Z;
  MapRanges : Ranges
}.

Inductive Route : Type :=
| SaveForm (bound : option Form)
| GetForm (formID : string)
| SubmitForm (bound : option (gmap string string)).

Record Request : Type := mkRequest {
  XClientKey : option string;
  Target : Route
}.

(** [registerPath]: the three routes of the [/api] group; only
    [save-form] carries [clientKeyMiddleware]. *)
Definition registerPath (appConf : APPConfig)
    (allowedClientKeys : list string) (float64 : string -> option string)
    (rt : Runtime) (req : Request) : Os.M Response :=
  match Target req with
  | SaveForm bound =>
    clientKeyMiddleware allowedClientKeys
      (fun _ => saveForm (Now rt) bound) (XClientKey req)
  | GetForm formID => getForm appConf float64 formID
  | SubmitForm bound => submitForm (MapRanges rt) bound
  end.

(** ** The template [form-build/form.html]

    The text of the file, cut at its three actions. *)

Definition formHTML_head : string :=
  String.concat lf
  ["<!DOCTYPE html>";
   ("<html lang=" ++ dq ++ "en" ++ dq ++ ">");
   "<head>";
   ("  <meta charset=" ++ dq ++ "UTF-8" ++ dq ++ ">");
   ("  <meta name=" ++ dq ++ "viewport" ++ dq ++ " content=" ++ dq ++ "width=device-width, initial-scale=1.0" ++ dq ++ ">");
   "  <title>Dynamic Form</title>";
   "  <style>";
   "    body {";
   "      font-family: Arial, sans-serif;";
   "      background-color: #f4f4f9;";
   "      margin: 0;";
   "      padding: 20px;";
   "      display: flex;";
   "      justify-content: center;";
   "      align-items: center;";
   "      height: 100vh;";
   "    }";
   "    #form-container {";
   "      background-color: #fff;";
   "      padding: 20px;";
   "      border-radius: 8px;";
   "      box-shadow: 0 0 10px rgba(0, 0, 0, 0.1);";
   "      max-width: 500px;";
   "      width: 100%;";
   "      box-sizing: border-box;";
   "    }";
   "    h2 {";
   "      text-align: center;";
   "      margin-bottom: 20px;";
   "      color: #333;";
   "    }";
   "    form div {";
   "      margin-bottom: 15px;";
   "    }";
   "    label {";
   "      display: block;";
   "      margin-bottom: 5px;";
   "      color: #555;";
   "    }";
   "    input, textarea {";
   "      width: 100%;";
   "      padding: 10px;";
   "      border: 1px solid #ccc;";
   "      border-radius: 4px;";
   "      font-size: 16px;";
   "      box-sizing: border-box;";
   "    }";
   "    textarea {";
   "      resize: vertical;";
   "      min-height: 100px;";
   "    }";
   "    button {";
   "      display: block;";
   "      width: 100%;";
   "      padding: 10px;";
   "      background-color: #007BFF;";
   "      color: #fff;";
   "      border: none;";
   "      border-radius: 4px;";
   "      font-size: 16px;";
   "      cursor: pointer;";
   "    }";
   "    button:hover {";
   "      background-color: #0056b3;";
   "    }";
   "  </style>";
   "  <script>";
   "    document.addEventListener('DOMContentLoaded', function () {";
   "      data = `"]%string.

Definition formHTML_mid1 : string :=
  String.concat lf
  ["`;";
   "      data = JSON.parse(data);";
   "      renderForm(data);";
   "";
   "      function renderForm(data) {";
   "        const formContainer = document.getElementById('form-container');";
   "        const form = document.createElement('form');";
   ("        form.action = " ++ dq)]%string.

Definition formHTML_mid2 : string :=
  String.concat lf
  [(dq ++ ";");
   ("        form.method = " ++ dq ++ "POST" ++ dq ++ ";");
   "        formContainer.appendChild(form);";
   "";
   "        const title = document.createElement('h2');";
   "        title.textContent = data.title;";
   "        form.appendChild(title);";
   "";
   "        data.fields.forEach(field => {";
   "          const fieldContainer = document.createElement('div');";
   "          const label = document.createElement('label');";
   "          label.textContent = field.label;";
   "          fieldContainer.appendChild(label);";
   "";
   "          let input;";
   "          if (field.type === 'textarea') {";
   "            input = document.createElement('textarea');";
   "          } else {";
   "            input = document.createElement('input');";
   "            input.type = field.type;";
   "          }";
   "";
   "          input.name = field.name;";
   "          input.placeholder = field.placeholder;";
   "          fieldContainer.appendChild(input);";
   "          form.appendChild(fieldContainer);";
   "        });";
   "";
   "        const tokenField = document.createElement('input');";
   "        tokenField.type = 'hidden';";
   "        tokenField.name = 'clientXToken';";
   ("        tokenField.value = " ++ dq)]%string.

Definition formHTML_tail : string :=
  String.concat lf
  [(dq ++ ";");
   "        form.appendChild(tokenField);";
   "";
   "        const referrerInput = document.createElement('input');";
   "        referrerInput.type = 'hidden';";
   "        referrerInput.name = 'referrer';";
   "        referrerInput.value = document.referrer;";
   "        form.appendChild(referrerInput);";
   "";
   "        const submitButton = document.createElement('button');";
   "        submitButton.textContent = 'Submit';";
   "        form.appendChild(submitButton);";
   "      }";
   "    });";
   "  </script>";
   "</head>";
   "<body>";
   ("  <div id=" ++ dq ++ "form-container" ++ dq ++ "></div>");
   "</body>";
   "</html>"]%string.

Definition formHTML : string :=
  (formHTML_head ++ "{{ .data }}" ++ formHTML_mid1 ++ "{{ .url }}"
   ++ formHTML_mid2 ++ "{{ .clientXToken }}" ++ formHTML_tail)%string.

(** ** Notions used to state the properties *)

(** The fixed enumeration of field types. *)
Definition fieldTypes : list string :=
  ["text"; "email"; "textarea"; "number"; "date"; "checkbox"].

(** A form that the rules of the tags reject: empty title, nil field
    list, or a field with an empty label, a type outside the enumeration,
    or a name that is empty or not made of letters and digits only. *)
Definition invalid_Field (f : Field) : Prop :=
  Label f = "" \/ ~ In (Type_ f) fieldTypes \/ Name f = ""
  \/ Exists (fun c => Validator.is_alnum c = false) (to_bytes (Name f)).

Definition invalid_Form (form : Form) : Prop :=
  Title form = "" \/ Fields form = None
  \/ exists l, Fields form = Some l /\ Exists invalid_Field l.

(** A name that is a single path element: not empty, not [.] or [..],
    without separator and without NUL. *)
Definition plain_name (s : string) : bool :=
  negb (bool_decide (s = "" \/ s = "." \/ s = ".."))
  && forallb (fun c => negb (Byte.eqb c "/"%char) && negb (Byte.eqb c Byte.nul))
             (to_bytes s).

(** The directory and the stored form of a FormID. *)
Definition dir_of (id : string) : string := ("form-build/" ++ id)%string.
Definition file_of (id : string) : string :=
  ("form-build/" ++ id ++ "/form.json")%string.

(** The strings of a form are well-formed UTF-8, as [c.Bind] leaves them
    when it decodes a JSON body. *)
Definition utf8_Field (f : Field) : bool :=
  Utf8.Valid (Label f) && Utf8.Valid (Type_ f) && Utf8.Valid (Name f)
  && Utf8.Valid (Placeholder f).

Definition utf8_Form (form : Form) : bool :=
  Utf8.Valid (Title form)
  && match Fields form with
     | None => true
     | Some l => forallb utf8_Field l
     end.





(** The layout of a stored form written out by hand: two more spaces per
    level, one member per line, a space after each colon. *)
Definition json_string (s : string) : string := of_bytes (Json.appendString s).

Definition pretty_member (indent key : string) (s : string) : string :=
  (indent ++ dq ++ key ++ dq ++ ": " ++ json_string s)%string.

Definition pretty_Field (f : Field) : string :=
  ("    {" ++ lf
   ++ pretty_member "      " "label" (Label f) ++ "," ++ lf
   ++ pretty_member "      " "type" (Type_ f) ++ "," ++ lf
   ++ pretty_member "      " "name" (Name f) ++ "," ++ lf
   ++ pretty_member "      " "placeholder" (Placeholder f) ++ lf
   ++ "    }")%string.

Definition pretty_Fields (fields : option (list Field)) : string :=
  match fields with
  | None => "null"
  | Some [] => "[]"
  | Some l =>
    ("[" ++ lf ++ String.concat ("," ++ lf) (map pretty_Field l) ++ lf
     ++ "  ]")%string
  end.

Definition pretty_Form (form : Form) : string :=
  ("{" ++ lf
   ++ pretty_member "  " "title" (Title form) ++ "," ++ lf
   ++ "  " ++ dq ++ "fields" ++ dq ++ ": " ++ pretty_Fields (Fields form) ++ lf
   ++ "}" ++ lf)%string.

(** The orders handed to the submit handler are orders in which the
    runtime may visit the maps the handler ranges over. *)
Definition valid_Ranges (formData : gmap string string) (r : Ranges) : Prop :=
  let stripped :=
    delete "referrer" (delete "clientXToken" (delete "formID" formData)) in
  range_order stripped (range_sortByKey r)
  /\ range_order (answer (range_sortByKey r) formData) (range_headers r)
  /\ range_order (answer (range_sortByKey r) formData) (range_record r).

(** A form to try things on. *)
Definition sample_form : Form :=
  mkForm "Contact"
    (Some [mkField "Your name" "text" "name" "Jane Doe";
           mkField "E-mail" "email" "email" ""]).

(** [form.html] with its three actions replaced. *)
Definition render_formHTML (data url token : string) : string :=
  (formHTML_head ++ data ++ formHTML_mid1 ++ url ++ formHTML_mid2 ++ token
   ++ formHTML_tail)%string.

(** The size of a page, to tell two pages apart. *)
Definition body_length (b : Body) : nat :=
  match b with
  | HTML h => String.length h
  | _ => 0
  end.

(** A deployment in which a document sits next to the template, at
    [form-build/form.json]. *)
Definition stray_document : Os.state :=
  Os.mkState
    (list_to_map [("form-build", Os.Dir);
                  ("form-build/form.json", Os.File "{}");
                  ("form-build/form.html", Os.File formHTML)])
    [].

(** A deployment with the template only. *)
Definition deployed : Os.state :=
  Os.mkState
    (list_to_map [("form-build", Os.Dir);
                  ("form-build/form.html", Os.File formHTML)])
    [].

(** A configured key list that is no JSON array: a syntax error, or a
    document of another kind. *)
Definition not_a_JSON_array (text : string) : Prop :=
  match Json.parse text with
  | Some (Json.Array _) => False
  | _ => True
  end.

(** ** Notions used in the proofs *)

(** Closed instances of [range_order] are settled by evaluation. *)
Ltac solve_range_order :=
  split; [apply (bool_decide_unpack _)|]; vm_compute; reflexivity.

(** The two submissions of the column-order examples. *)
Definition alice : gmap string string :=
  list_to_map [("formID", "123"); ("clientXToken", "x");
               ("referrer", "http://x"); ("name", "Alice");
               ("email", "a@b.com")].

Definition bob : gmap string string :=
  list_to_map [("formID", "123"); ("clientXToken", "x");
               ("referrer", "http://x"); ("name", "Bob");
               ("email", "b@c.com")].

Definition answers_csv : string := "form-build/123/form_answer.csv".

(** What [plain_name] says, as propositions. *)
Definition no_sep (s : string) : Prop :=
  Forall (fun c => c <> "/"%char /\ c <> Byte.nul) (to_bytes s).

(** Linear arithmetic with division and remainder by constants. *)
Ltac dlia := zify; Z.to_euclidean_division_equations; lia.

Ltac flatten_app :=
  repeat first [ rewrite <- app_assoc | progress cbn [app] ].

Definition all_ws (ws : list ascii) : Prop :=
  Forall (fun c => Json.is_ws c = true) ws.

Ltac flatten_bytes :=
  repeat first [ rewrite <- app_assoc
               | progress cbn [app list_ascii_of_string] ].

(** The elements of an array after the first, as [Json.indented] writes
    them. *)
Fixpoint more_elems (d : nat) (l : list Json.value) : list ascii :=
  match l with
  | [] => []
  | y :: ys =>
    to_bytes "," ++ Json.newline "  " d ++ Json.indented "  " d y
    ++ more_elems d ys
  end.

Definition Fields_value (fields : option (list Field)) : Json.value :=
  match fields with
  | None => Json.Null
  | Some l => Json.Array (map Field_value l)
  end.

Definition Fields_count (fields : option (list Field)) : nat :=
  match fields with
  | None => 0
  | Some l => length l
  end.

Definition utf8_Fields (fields : option (list Field)) : bool :=
  match fields with
  | None => true
  | Some l => forallb utf8_Field l
  end.

(** The generic value [json.Unmarshal] makes of a stored form: maps with
    their keys in increasing order. *)
Definition Field_interface (f : Field) : Json.value :=
  Json.Object [("label", Json.Str (Label f)); ("name", Json.Str (Name f));
               ("placeholder", Json.Str (Placeholder f));
               ("type", Json.Str (Type_ f))].

Definition Form_interface (form : Form) : Json.value :=
  Json.Object [("fields", match Fields form with
                          | None => Json.Null
                          | Some l => Json.Array (map Field_interface l)
                          end);
               ("title", Json.Str (Title form))].

Section RuneShapes.

Local Open Scope N_scope.

(** The lead bytes and the bounds on the second byte. *)
Definition lead_ok (size : nat) (s0 s1 : N) : Prop :=
  128 <= s1 <= 191
  /\ match size with
     | 2%nat => 194 <= s0 < 224
     | 3%nat => 224 <= s0 < 240 /\ (s0 = 224 -> 160 <= s1)
                /\ (s0 = 237 -> s1 <= 159)
     | 4%nat => 240 <= s0 <= 244 /\ (s0 = 240 -> 144 <= s1)
                /\ (s0 = 244 -> s1 <= 143)
     | _ => False
     end.

(** A well-formed sequence of more than one byte. *)
Inductive multibyte : list ascii -> N -> nat -> Prop :=
| multibyte2 c0 c1 :
    lead_ok 2 (Byte.val c0) (Byte.val c1) ->
    multibyte [c0; c1]
      ((Byte.val c0 mod 32) * 64 + Byte.val c1 mod 64) 2
| multibyte3 c0 c1 c2 :
    lead_ok 3 (Byte.val c0) (Byte.val c1) ->
    Utf8.cont (Byte.val c2) = true ->
    multibyte [c0; c1; c2]
      ((Byte.val c0 mod 16) * 4096 + (Byte.val c1 mod 64) * 64
       + Byte.val c2 mod 64) 3
| multibyte4 c0 c1 c2 c3 :
    lead_ok 4 (Byte.val c0) (Byte.val c1) ->
    Utf8.cont (Byte.val c2) = true ->
    Utf8.cont (Byte.val c3) = true ->
    multibyte [c0; c1; c2; c3]
      ((Byte.val c0 mod 8) * 262144 + (Byte.val c1 mod 64) * 4096
       + (Byte.val c2 mod 64) * 64 + Byte.val c3 mod 64) 4.

End RuneShapes.

(** ** Notions used to state further properties *)


(** The file of answers of a FormID. *)
Definition csv_of (id : string) : string :=
  ("form-build/" ++ id ++ "/form_answer.csv")%string.

(** The compact layout of a decoded form written out by hand: no white
    space, the keys of every object in increasing order. *)
Definition compact_member (key : string) (s : string) : string :=
  (dq ++ key ++ dq ++ ":" ++ json_string s)%string.

Definition compact_Field (f : Field) : string :=
  ("{" ++ compact_member "label" (Label f) ++ ","
   ++ compact_member "name" (Name f) ++ ","
   ++ compact_member "placeholder" (Placeholder f) ++ ","
   ++ compact_member "type" (Type_ f) ++ "}")%string.

Definition compact_Fields (fields : option (list Field)) : string :=
  match fields with
  | None => "null"
  | Some l => ("[" ++ String.concat "," (map compact_Field l) ++ "]")%string
  end.

Definition compact_Form (form : Form) : string :=
  ("{" ++ dq ++ "fields" ++ dq ++ ":" ++ compact_Fields (Fields form) ++ ","
   ++ compact_member "title" (Title form) ++ "}")%string.

(** A list of keys as the JSON array that configures them. *)
Definition keys_json (keys : list string) : string :=
  ("[" ++ String.concat "," (map json_string keys) ++ "]")%string.

(** The calls that only look at the file system. *)
Definition reads (c : Os.call) : bool :=
  match c with
  | Os.CStat _ | Os.CReadFile _ => true
  | _ => false
  end.

(** Running the reading calls of package [os] inside a goal. *)
Ltac run_os :=
  cbv beta iota zeta
      delta [fileExists loadJSON makeHTML Os.Stat Os.ReadFile Os.bind
             Os.record Os.get_files Os.ret Os.files Os.log Os.IsNotExist
             negb Os.Err Os.Ok];
  rewrite <- ?app_assoc; cbn [app].

(** * Properties *)

(** Appending to a string literal computes under [simpl] and [cbn]. *)
Local Arguments String.append !s1 s2 : simpl nomatch.


(** ** [sortByKey] *)

Section SortByKey.

Implicit Types (m acc : gmap string string) (keys visit : list string).

Lemma foldl_insert_lookup m keys acc k :
  foldl (fun out key => <[ key := index m key ]> out) acc keys !! k
  = if decide (k ∈ keys) then Some (index m k) else acc !! k.
Proof.
  revert acc. induction keys as [|key keys IH]; intros acc.
  - destruct (decide (k ∈ [])) as [Hin|]; [by apply elem_of_nil in Hin|done].
  - cbn [foldl]. rewrite IH. destruct (decide (k = key)) as [->|Hne].
    + rewrite lookup_insert_eq.
      repeat case_decide; try done; set_solver.
    + rewrite lookup_insert_ne by done.
      repeat case_decide; try done; set_solver.
Qed.

Lemma range_order_elem m visit k :
  range_order m visit -> k ∈ visit <-> is_Some (m !! k).
Proof.
  intros [_ Hdom]. rewrite <- elem_of_dom, <- Hdom. set_solver.
Qed.

Lemma sort_Strings_elem keys k : k ∈ sort_Strings keys <-> k ∈ keys.
Proof.
  unfold sort_Strings. by rewrite merge_sort_Permutation.
Qed.

Lemma sortByKey_id m visit : range_order m visit -> sortByKey visit m = m.
Proof.
  intros Hr. apply map_eq. intros k. unfold sortByKey.
  rewrite foldl_insert_lookup.
  case_decide as Hin.
  - apply (proj1 (sort_Strings_elem visit k)) in Hin.
    apply (proj1 (range_order_elem m visit k Hr)) in Hin as [v Hv].
    unfold index. by rewrite Hv.
  - rewrite lookup_empty. symmetry. apply eq_None_not_Some.
    intros Hs. apply Hin, (proj2 (sort_Strings_elem visit k)).
    by apply (proj2 (range_order_elem m visit k Hr)).
Qed.

End SortByKey.

(** C9. For every map [m] and every order in which [range] may visit it,
    [sortByKey] returns a map with exactly the entries of [m]; and the
    orders in which [range] may visit the result are those in which it may
    visit [m]: sorting the keys leaves no trace in the result. *)
Theorem sortByKey_keeps_contents (m : gmap string string) (visit : list string) :
  range_order m visit ->
  sortByKey visit m = m
  /\ (forall k, sortByKey visit m !! k = m !! k)
  /\ (forall keys, range_order (sortByKey visit m) keys <-> range_order m keys).
Proof.
  intros Hr. pose proof (sortByKey_id m visit Hr) as Heq.
  rewrite Heq. split; [done|]. split; [done|]. intros keys. done.
Qed.

Lemma sortByKey_keeps_contents_witness :
  let m : gmap string string := {[ "name" := "Alice"; "email" := "a@b.com" ]} in
  sortByKey ["name"; "email"] m = m
  /\ (forall k, sortByKey ["name"; "email"] m !! k = m !! k)
  /\ (forall keys,
        range_order (sortByKey ["name"; "email"] m) keys <-> range_order m keys).
Proof.
  apply (sortByKey_keeps_contents
           {[ "name" := "Alice"; "email" := "a@b.com" ]} ["name"; "email"]).
  solve_range_order.
Defined.

(** ** The access gate *)

Lemma existsb_key_elem (key : string) (keys : list string) :
  existsb (fun v => bool_decide (key = v)) keys = true <-> key ∈ keys.
Proof.
  rewrite existsb_exists. split.
  - intros (v & Hin & Heq). apply bool_decide_eq_true in Heq. subst v.
    by apply list_elem_of_In.
  - intros Hin. exists key. split; [by apply list_elem_of_In|].
    by apply bool_decide_eq_true.
Qed.

Lemma clientKeyMiddleware_missing keys next header s :
  default "" header = "" ->
  clientKeyMiddleware keys next header s
  = (message StatusForbidden "x-client-key header is required", s).
Proof.
  intros H. unfold clientKeyMiddleware. rewrite H.
  destruct (decide ("" = "")); done.
Qed.

Lemma clientKeyMiddleware_unknown keys next header s :
  default "" header <> "" -> default "" header ∉ keys ->
  clientKeyMiddleware keys next header s
  = (message StatusForbidden "key is not found", s).
Proof.
  intros Hne Hnot. unfold clientKeyMiddleware.
  destruct (decide (default "" header = "")); [done|].
  destruct (existsb _ keys) eqn:He; [|done].
  by apply existsb_key_elem in He.
Qed.

Lemma clientKeyMiddleware_known keys next header s :
  default "" header <> "" -> default "" header ∈ keys ->
  clientKeyMiddleware keys next header s
  = next {[ "clientKey" := default "" header ]} s.
Proof.
  intros Hne Hin. unfold clientKeyMiddleware.
  destruct (decide (default "" header = "")); [done|].
  apply existsb_key_elem in Hin. by rewrite Hin.
Qed.

(** C5. On [save-form], a missing or empty [x-client-key] header is
    denied with the missing-key message; a non-empty header that equals no
    configured key is denied with the invalid-key message, a different
    message under the same status 403; a header that equals a configured
    key lets the request through to the handler.  [get-form] and
    [submit-form] answer the same whatever the key store and the header
    are. *)
Theorem gate_only_on_save_form
    (appConf : APPConfig) (keys : list string)
    (float64 : string -> option string) (rt : Runtime)
    (header : option string) (bound : option Form) (s : Os.state) :
  let save := registerPath appConf keys float64 rt
                (mkRequest header (SaveForm bound)) s in
  (default "" header = "" ->
     save = (message StatusForbidden "x-client-key header is required", s))
  /\ (default "" header <> "" -> default "" header ∉ keys ->
        save = (message StatusForbidden "key is not found", s))
  /\ (default "" header <> "" -> default "" header ∈ keys ->
        save = saveForm (Now rt) bound s)
  /\ message StatusForbidden "x-client-key header is required"
     <> message StatusForbidden "key is not found"
  /\ (forall keys' header' formID,
        registerPath appConf keys float64 rt
          (mkRequest header (GetForm formID)) s
        = registerPath appConf keys' float64 rt
            (mkRequest header' (GetForm formID)) s)
  /\ (forall keys' header' data,
        registerPath appConf keys float64 rt
          (mkRequest header (SubmitForm data)) s
        = registerPath appConf keys' float64 rt
            (mkRequest header' (SubmitForm data)) s).
Proof.
  cbn zeta. unfold registerPath. cbn [Target XClientKey].
  split; [apply clientKeyMiddleware_missing|].
  split; [apply clientKeyMiddleware_unknown|].
  split; [intros Hne Hin; by rewrite clientKeyMiddleware_known|].
  split; [|done].
  unfold message. intros Heq.
  assert (Hm : ({[ "message" := "x-client-key header is required" ]}
                : gmap string string) !! "message"
               = ({[ "message" := "key is not found" ]}
                  : gmap string string) !! "message")
    by congruence.
  rewrite !lookup_singleton_eq in Hm. discriminate Hm.
Qed.

Lemma gate_only_on_save_form_witness :
  let appConf := APPConfig_ defaultConfig in
  let keys := ["api-key-1"; "api-key-2"] in
  let rt := mkRuntime 1700000000000 (mkRanges [] [] []) in
  registerPath appConf keys Some rt (mkRequest None (SaveForm None)) Os.empty
  = (message StatusForbidden "x-client-key header is required", Os.empty)
  /\ registerPath appConf keys Some rt
       (mkRequest (Some "guess") (SaveForm None)) Os.empty
     = (message StatusForbidden "key is not found", Os.empty)
  /\ registerPath appConf keys Some rt
       (mkRequest (Some "api-key-2") (SaveForm None)) Os.empty
     = saveForm 1700000000000 None Os.empty.
Proof.
  cbn zeta.
  split; [|split].
  - apply (gate_only_on_save_form (APPConfig_ defaultConfig)
             ["api-key-1"; "api-key-2"] Some
             (mkRuntime 1700000000000 (mkRanges [] [] [])) None None Os.empty).
    reflexivity.
  - apply (gate_only_on_save_form (APPConfig_ defaultConfig)
             ["api-key-1"; "api-key-2"] Some
             (mkRuntime 1700000000000 (mkRanges [] [] []))
             (Some "guess") None Os.empty).
    + discriminate.
    + apply (bool_decide_unpack _). vm_compute. reflexivity.
  - apply (gate_only_on_save_form (APPConfig_ defaultConfig)
             ["api-key-1"; "api-key-2"] Some
             (mkRuntime 1700000000000 (mkRanges [] [] []))
             (Some "api-key-2") None Os.empty).
    + discriminate.
    + apply (bool_decide_unpack _). vm_compute. reflexivity.
Defined.

(** ** The key store *)

Lemma Unmarshal_strings_not_array (text : string) (old : list string) :
  not_a_JSON_array text ->
  Json.Unmarshal_strings text old = (old, false)
  \/ (Json.parse text = Some Json.Null
      /\ Json.Unmarshal_strings text old = ([], true)).
Proof.
  unfold not_a_JSON_array, Json.Unmarshal_strings.
  destruct (Json.parse text) as [[]|]; intros H; try (by left); try done.
  right. done.
Qed.

(** C10. When the configured client keys are no JSON array, the error
    of [json.Unmarshal] is dropped by [main], the key store stays empty,
    and every [save-form] request that carries a non-empty [x-client-key]
    header is denied with the invalid-key message. *)
Theorem bad_key_config_denies_all (conf : Config) :
  not_a_JSON_array (ClientKeys conf) ->
  main_allowedClientKeys conf = []
  /\ (Json.parse (ClientKeys conf) <> Some Json.Null ->
      snd (Json.Unmarshal_strings (ClientKeys conf) []) = false)
  /\ (forall appConf float64 rt key bound s,
        key <> "" ->
        registerPath appConf (main_allowedClientKeys conf) float64 rt
          (mkRequest (Some key) (SaveForm bound)) s
        = (message StatusForbidden "key is not found", s)).
Proof.
  intros H. unfold main_allowedClientKeys.
  destruct (Unmarshal_strings_not_array _ [] H) as [Hu|[Hnull Hu]];
    rewrite Hu; cbn [fst snd].
  - split; [done|]. split; [done|]. intros.
    unfold registerPath. cbn [Target XClientKey].
    apply clientKeyMiddleware_unknown; [done|]. apply not_elem_of_nil.
  - split; [done|]. split; [done|]. intros.
    unfold registerPath. cbn [Target XClientKey].
    apply clientKeyMiddleware_unknown; [done|]. apply not_elem_of_nil.
Qed.

Lemma bad_key_config_denies_all_witness :
  let conf := mkConfig (APPConfig_ defaultConfig) "api-key-1,api-key-2" in
  main_allowedClientKeys conf = []
  /\ (Json.parse (ClientKeys conf) <> Some Json.Null ->
      snd (Json.Unmarshal_strings (ClientKeys conf) []) = false)
  /\ (forall appConf float64 rt key bound s,
        key <> "" ->
        registerPath appConf (main_allowedClientKeys conf) float64 rt
          (mkRequest (Some key) (SaveForm bound)) s
        = (message StatusForbidden "key is not found", s)).
Proof.
  apply (bad_key_config_denies_all
           (mkConfig (APPConfig_ defaultConfig) "api-key-1,api-key-2")).
  vm_compute. exact I.
Defined.

(** A JSON array with an element that is no string is still decoded: the
    error is dropped and the strings of the array are allowed keys. *)
Example mixed_key_array_keeps_strings :
  main_allowedClientKeys
    (mkConfig (APPConfig_ defaultConfig) ("[" ++ dq ++ "k" ++ dq ++ ",1]"))
  = ["k"; ""].
Proof. vm_compute. reflexivity. Qed.

Example default_keys :
  main_allowedClientKeys defaultConfig = ["api-key-1"; "api-key-2"].
Proof. vm_compute. reflexivity. Qed.

(** ** Empty and blank form identifiers *)

(** C7, as stated, fails: a FormID made of one space is not rejected.
    The handler asks the file system for [form-build/ /form.json] and
    answers 404. *)
Lemma blank_FormID_reaches_file_system :
  let '(resp, s') := getForm (APPConfig_ defaultConfig) Some " " Os.empty in
  Status resp = StatusNotFound
  /\ Status resp <> StatusBadRequest
  /\ Os.log s' = [Os.CStat "form-build/ /form.json"].
Proof. vm_compute. repeat split. discriminate. Qed.

(** C7, amended. A [get-form] request whose FormID is empty is answered
    400 with the message [Missing mandatory parameter], and neither the
    files nor the record of calls to the file system change. *)
Theorem empty_FormID_is_rejected
    (appConf : APPConfig) (float64 : string -> option string) (s : Os.state) :
  getForm appConf float64 "" s
  = (mkResponse StatusBadRequest
       (JSONMap {[ "message" := "Missing mandatory parameter" ]}), s).
Proof. reflexivity. Qed.

(** ** Column order of the answers *)

(** C1 at its own example.  [range] may visit the map that [sortByKey]
    returns as [name], [email]; the header row then reads [name,email],
    which is not sorted, and the data row follows it.  When [range]
    happens to visit [email] first the header reads [email,name]. *)
Theorem header_row_follows_map_iteration :
  (exists ranges s',
     valid_Ranges alice ranges
     /\ submitForm ranges (Some alice) Os.empty
        = (mkResponse StatusOK (HTML (htmlResponse "http://x")), s')
     /\ Os.files s' !! answers_csv
        = Some (Os.File ("name,email" ++ lf ++ "Alice,a@b.com" ++ lf)%string))
  /\ (exists ranges s',
        valid_Ranges alice ranges
        /\ submitForm ranges (Some alice) Os.empty
           = (mkResponse StatusOK (HTML (htmlResponse "http://x")), s')
        /\ Os.files s' !! answers_csv
           = Some (Os.File ("email,name" ++ lf ++ "a@b.com,Alice" ++ lf)%string)).
Proof.
  split.
  - exists (mkRanges ["email"; "name"] ["name"; "email"] ["name"; "email"]).
    eexists. split; [|split].
    + repeat split; try (apply (bool_decide_unpack _)); vm_compute; reflexivity.
    + vm_compute. reflexivity.
    + vm_compute. reflexivity.
  - exists (mkRanges ["email"; "name"] ["email"; "name"] ["email"; "name"]).
    eexists. split; [|split].
    + repeat split; try (apply (bool_decide_unpack _)); vm_compute; reflexivity.
    + vm_compute. reflexivity.
    + vm_compute. reflexivity.
Qed.

(** C2 at a concrete pair of submissions with the same keys.  The file
    holds one header row and two data rows, but the second data row lists
    its values as [name], [email] under the header [email,name]: each
    [range] over the map picks its own order. *)
Theorem second_row_may_leave_header_order :
  exists ranges1 ranges2 s1 s2,
    valid_Ranges alice ranges1 /\ valid_Ranges bob ranges2
    /\ submitForm ranges1 (Some alice) Os.empty
       = (mkResponse StatusOK (HTML (htmlResponse "http://x")), s1)
    /\ submitForm ranges2 (Some bob) s1
       = (mkResponse StatusOK (HTML (htmlResponse "http://x")), s2)
    /\ Os.files s2 !! answers_csv
       = Some (Os.File ("email,name" ++ lf ++ "a@b.com,Alice" ++ lf
                        ++ "Bob,b@c.com" ++ lf)%string).
Proof.
  exists (mkRanges ["email"; "name"] ["email"; "name"] ["email"; "name"]).
  exists (mkRanges ["email"; "name"] ["email"; "name"] ["name"; "email"]).
  eexists. eexists.
  split; [|split; [|split; [|split]]].
  - repeat split; try (apply (bool_decide_unpack _)); vm_compute; reflexivity.
  - repeat split; try (apply (bool_decide_unpack _)); vm_compute; reflexivity.
  - vm_compute. reflexivity.
  - vm_compute. reflexivity.
  - vm_compute. reflexivity.
Qed.

(** ** Validation before any write *)

Lemma fieldTypeValidator_enumeration (t : string) :
  fieldTypeValidator t = true -> In t fieldTypes.
Proof.
  unfold fieldTypeValidator. intros H. apply bool_decide_eq_true in H.
  destruct H as [b Hb]. unfold validFieldTypes in Hb. cbn in Hb.
  repeat (apply lookup_insert_Some in Hb as [[<- _]|[_ Hb]];
          [cbn; tauto|]).
  by rewrite lookup_empty in Hb.
Qed.

Lemma check_failure ns name tags :
  Validator.first_failure tags <> None -> Validator.check ns name tags <> [].
Proof.
  unfold Validator.check. destruct (Validator.first_failure tags); done.
Qed.

Lemma alphanum_all (s : string) :
  Validator.alphanum s = true ->
  Forall (fun c => Validator.is_alnum c = true) (to_bytes s).
Proof.
  unfold Validator.alphanum. intros H. apply andb_true_iff in H as [_ H].
  apply Forall_forall. intros c Hc. rewrite forallb_forall in H.
  apply H. by apply list_elem_of_In.
Qed.

Lemma validate_Field_invalid ns f :
  invalid_Field f -> Validator.validate_Field ns f <> [].
Proof.
  intros H Hnil. unfold Validator.validate_Field in Hnil.
  apply app_eq_nil in Hnil as [HL Hnil].
  apply app_eq_nil in Hnil as [HT HN].
  destruct H as [H|[H|[H|H]]].
  - revert HL. apply check_failure. cbn. rewrite H. done.
  - revert HT. apply check_failure. cbn.
    destruct (Validator.required (Type_ f)); [|done].
    destruct (fieldTypeValidator (Type_ f)) eqn:Hv; [|done].
    by apply fieldTypeValidator_enumeration in Hv.
  - revert HN. apply check_failure. cbn. rewrite H. done.
  - revert HN. apply check_failure. cbn.
    destruct (Validator.required (Name f)); [|done].
    destruct (Validator.alphanum (Name f)) eqn:Ha; [|done].
    apply alphanum_all in Ha. apply Exists_exists in H as (c & Hc & Hf).
    rewrite Forall_forall in Ha. specialize (Ha c Hc). congruence.
Qed.

Lemma dive_invalid i l :
  Exists invalid_Field l -> Validator.dive i l <> [].
Proof.
  intros H. revert i. induction H as [f l Hf|f l _ IH]; intros i Hnil; cbn in Hnil.
  - apply app_eq_nil in Hnil as [Hnil _].
    by apply (validate_Field_invalid _ f Hf) in Hnil.
  - apply app_eq_nil in Hnil as [_ Hnil]. by apply IH in Hnil.
Qed.

Lemma Struct_invalid form :
  invalid_Form form -> Validator.Struct form <> [].
Proof.
  intros H Hnil. unfold Validator.Struct in Hnil.
  apply app_eq_nil in Hnil as [HT HF].
  destruct H as [H|[H|(l & Hl & H)]].
  - revert HT. apply check_failure. cbn. rewrite H. done.
  - rewrite H in HF. revert HF. by apply check_failure.
  - rewrite Hl in HF. by apply (dive_invalid 0 l H) in HF.
Qed.

(** C3, as stated, fails: a form whose list of fields is empty (and not
    nil) passes [required] and is stored. *)
Lemma empty_field_list_is_stored :
  let form := mkForm "Contact" (Some []) in
  let '(resp, s') := saveForm 1700000000000 (Some form) Os.empty in
  Validate form = None
  /\ Status resp = StatusOK
  /\ Os.files s' !! "form-build/1700000000000"%string = Some Os.Dir
  /\ Os.files s' !! "form-build/1700000000000/form.json"%string
     = Some (Os.File (Encode form)).
Proof. vm_compute. repeat split. Qed.

(** C3, amended. A form with an empty title, a nil list of fields, or a
    field whose label is empty, whose type is outside the enumeration or
    whose name is empty or not alphanumeric, is answered 400 with the
    validation error, and nothing is asked of the file system: the files
    and the record of calls are unchanged.  This holds for the handler
    and for the gated route, whatever the header is. *)
Theorem invalid_form_is_rejected_unwritten
    (now : Z) (form : Form) (s : Os.state) :
  invalid_Form form ->
  exists err,
    Validate form = Some err
    /\ saveForm now (Some form) s = (message StatusBadRequest err, s)
    /\ (forall appConf keys float64 ranges header,
          default "" header <> "" -> default "" header ∈ keys ->
          registerPath appConf keys float64 (mkRuntime now ranges)
            (mkRequest header (SaveForm (Some form))) s
          = (message StatusBadRequest err, s))
    /\ (forall appConf keys float64 ranges header,
          snd (registerPath appConf keys float64 (mkRuntime now ranges)
                 (mkRequest header (SaveForm (Some form))) s) = s).
Proof.
  intros H. apply Struct_invalid in H.
  assert (Hv : exists err, Validate form = Some err).
  { unfold Validate. destruct (Validator.Struct form); [done|by eexists]. }
  destruct Hv as [err Hv]. exists err.
  assert (Hsave : saveForm now (Some form) s = (message StatusBadRequest err, s)).
  { unfold saveForm. by rewrite Hv. }
  split; [done|]. split; [done|]. split.
  - intros. unfold registerPath. cbn [Target XClientKey Now].
    by rewrite clientKeyMiddleware_known.
  - intros. unfold registerPath. cbn [Target XClientKey Now].
    unfold clientKeyMiddleware.
    destruct (decide (default "" header = "")); [done|].
    destruct (existsb _ keys); [by rewrite Hsave|done].
Qed.

Lemma invalid_form_is_rejected_unwritten_witness :
  let form := mkForm "Contact" (Some [mkField "Colour" "color" "colour" ""]) in
  exists err,
    Validate form = Some err
    /\ saveForm 1700000000000 (Some form) Os.empty
       = (message StatusBadRequest err, Os.empty)
    /\ (forall appConf keys float64 ranges header,
          default "" header <> "" -> default "" header ∈ keys ->
          registerPath appConf keys float64 (mkRuntime 1700000000000 ranges)
            (mkRequest header (SaveForm (Some form))) Os.empty
          = (message StatusBadRequest err, Os.empty))
    /\ (forall appConf keys float64 ranges header,
          snd (registerPath appConf keys float64
                 (mkRuntime 1700000000000 ranges)
                 (mkRequest header (SaveForm (Some form))) Os.empty)
          = Os.empty).
Proof.
  apply (invalid_form_is_rejected_unwritten 1700000000000
           (mkForm "Contact" (Some [mkField "Colour" "color" "colour" ""]))
           Os.empty).
  right. right. eexists. split; [reflexivity|].
  apply Exists_cons_hd. right. left. cbn.
  intros [H|[H|[H|[H|[H|[H|[]]]]]]]; discriminate H.
Defined.

(** ** Strings and paths *)

Lemma to_bytes_app (a b : string) :
  to_bytes (a ++ b)%string = to_bytes a ++ to_bytes b.
Proof. induction a as [|c a IH]; simpl; [done|by f_equal]. Qed.

Lemma of_bytes_app (a b : list ascii) :
  of_bytes (a ++ b) = (of_bytes a ++ of_bytes b)%string.
Proof. induction a as [|c a IH]; simpl; [done|by f_equal]. Qed.

Lemma append_assoc (a b c : string) :
  ((a ++ b) ++ c = a ++ (b ++ c))%string.
Proof. induction a as [|x a IH]; simpl; [done|by f_equal]. Qed.

Lemma append_nil_r (a : string) : (a ++ "")%string = a.
Proof. induction a as [|x a IH]; simpl; [done|by f_equal]. Qed.

Lemma append_length (a b : string) :
  String.length (a ++ b)%string = (String.length a + String.length b)%nat.
Proof. induction a as [|x a IH]; simpl; [done|by f_equal]. Qed.

Lemma length_to_bytes (s : string) : length (to_bytes s) = String.length s.
Proof. induction s as [|c s IH]; simpl; [done|by f_equal]. Qed.

Lemma append_cons_neq (a : string) (c : ascii) (b : string) :
  a <> (a ++ String c b)%string.
Proof.
  intros H. apply (f_equal String.length) in H.
  rewrite append_length in H. simpl in H. lia.
Qed.

Lemma plain_name_spec (s : string) :
  plain_name s = true -> s <> "" /\ s <> "." /\ s <> ".." /\ no_sep s.
Proof.
  unfold plain_name. intros H. apply andb_true_iff in H as [H1 H2].
  apply negb_true_iff, bool_decide_eq_false in H1.
  repeat split; try (intros ->; apply H1; tauto).
  apply Forall_forall. intros c Hc. rewrite forallb_forall in H2.
  apply list_elem_of_In in Hc. specialize (H2 c Hc).
  apply andb_true_iff in H2 as [Ha Hb].
  apply negb_true_iff in Ha, Hb. unfold Byte.eqb in *.
  apply Ascii.eqb_neq in Ha, Hb. done.
Qed.

Lemma split_plain_app (s rest : string) :
  no_sep s ->
  Filepath.split (s ++ String "/" rest)%string = s :: Filepath.split rest.
Proof.
  unfold no_sep. induction s as [|c s IH]; intros H.
  - reflexivity.
  - simpl in H. apply Forall_cons in H as [[Hc _] H].
    simpl. unfold Byte.eqb.
    destruct (Ascii.eqb_spec c "/"%char) as [->|_]; [done|].
    by rewrite IH.
Qed.

Lemma split_plain (s : string) : no_sep s -> Filepath.split s = [s].
Proof.
  unfold no_sep. induction s as [|c s IH]; intros H.
  - reflexivity.
  - simpl in H. apply Forall_cons in H as [[Hc _] H].
    simpl. unfold Byte.eqb.
    destruct (Ascii.eqb_spec c "/"%char) as [->|_]; [done|].
    by rewrite IH.
Qed.

Lemma split_join (l : list string) :
  l <> [] -> Forall no_sep l -> Filepath.split (Filepath.join_sep "/" l) = l.
Proof.
  intros Hne H. induction H as [|s l Hs Hl IH]; [done|].
  destruct l as [|s' l].
  - simpl. by apply split_plain.
  - change (Filepath.join_sep "/" (s :: s' :: l))
      with (s ++ String "/" (Filepath.join_sep "/" (s' :: l)))%string.
    rewrite split_plain_app by done. by rewrite IH.
Qed.

Lemma clean_go_plain (rooted : bool) (l out : list string) :
  Forall (fun s => s <> "" /\ s <> "." /\ s <> "..") l ->
  Filepath.clean_go rooted out l = rev l ++ out.
Proof.
  intros H. revert out. induction H as [|s l (H1 & H2 & H3) _ IH]; intros out.
  - reflexivity.
  - simpl. destruct (decide (s = "" \/ s = ".")) as [[?|?]|_]; [done|done|].
    destruct (decide (s = "..")); [done|].
    rewrite IH. by rewrite <- app_assoc.
Qed.

Lemma has_nul_app (a b : string) :
  Os.has_nul (a ++ b)%string = Os.has_nul a || Os.has_nul b.
Proof. unfold Os.has_nul. by rewrite to_bytes_app, existsb_app. Qed.

Lemma has_nul_plain (s : string) : no_sep s -> Os.has_nul s = false.
Proof.
  unfold Os.has_nul, no_sep. induction 1 as [|c l [_ Hc] _ IH]; [done|].
  cbn [existsb]. rewrite IH, orb_false_r. unfold Byte.eqb.
  apply Ascii.eqb_neq. congruence.
Qed.

Lemma has_nul_join (l : list string) :
  Forall no_sep l -> Os.has_nul (Filepath.join_sep "/" l) = false.
Proof.
  induction 1 as [|s l Hs Hl IH]; [done|].
  destruct l as [|s' l]; [by apply has_nul_plain|].
  change (Filepath.join_sep "/" (s :: s' :: l))
    with (s ++ String "/" (Filepath.join_sep "/" (s' :: l)))%string.
  rewrite has_nul_app, (has_nul_plain s Hs).
  change (String "/" ?x) with ("/" ++ x)%string.
  by rewrite has_nul_app, IH.
Qed.

Lemma is_rooted_join (s : string) (l : list string) :
  s <> "" -> no_sep s -> Filepath.is_rooted (Filepath.join_sep "/" (s :: l)) = false.
Proof.
  intros Hne Hs. destruct s as [|c s]; [done|].
  apply Forall_cons in Hs as [[Hc _] _].
  assert (Hr : Byte.eqb c "/"%char = false) by (by apply Ascii.eqb_neq).
  destruct l; simpl; exact Hr.
Qed.

Lemma join_nonempty (s : string) (l : list string) :
  s <> "" -> Filepath.join_sep "/" (s :: l) <> "".
Proof. destruct s; [done|]. destruct l; simpl; done. Qed.

Lemma all_plain (l : list string) :
  Forall (fun s => plain_name s = true) l ->
  Forall no_sep l /\ Forall (fun s => s <> "" /\ s <> "." /\ s <> "..") l.
Proof.
  induction 1 as [|s l Hs _ [IH1 IH2]]; [done|].
  apply plain_name_spec in Hs as (? & ? & ? & ?). split; constructor; done.
Qed.

(** A path made of plain elements is clean already. *)
Lemma Clean_join (s : string) (l : list string) :
  Forall (fun s => plain_name s = true) (s :: l) ->
  Filepath.Clean (Filepath.join_sep "/" (s :: l)) = Filepath.join_sep "/" (s :: l).
Proof.
  intros H. pose proof (all_plain _ H) as [Hsep Hpl].
  pose proof (Forall_inv Hsep) as Hs. pose proof (Forall_inv Hpl) as (Hne & _).
  unfold Filepath.Clean.
  destruct (decide (Filepath.join_sep "/" (s :: l) = "")) as [He|_];
    [by apply join_nonempty in He|].
  rewrite is_rooted_join by done. rewrite split_join by done.
  rewrite clean_go_plain by done. rewrite app_nil_r, rev_involutive. done.
Qed.

Lemma always_dir_join (s : string) (l : list string) :
  Forall (fun s => plain_name s = true) (s :: l) ->
  Os.always_dir (Filepath.join_sep "/" (s :: l)) = false.
Proof.
  intros H. pose proof (all_plain _ H) as [Hsep Hpl].
  pose proof (Forall_inv Hsep) as Hs. pose proof (Forall_inv Hpl) as (Hne & H1 & H2).
  unfold Os.always_dir. rewrite split_join by done.
  apply orb_false_iff. split.
  - apply bool_decide_eq_false. intros He.
    apply (f_equal Filepath.is_rooted) in He. rewrite is_rooted_join in He; done.
  - cbn [forallb]. apply andb_false_iff. left.
    apply bool_decide_eq_false. intros [?|?]; done.
Qed.

Section PlainName.

Variable id : string.
Hypothesis Hplain : plain_name id = true.

Lemma plain3 :
  Forall (fun s => plain_name s = true) ["form-build"; id; "form.json"].
Proof. repeat constructor; done. Qed.

Lemma plain2 : Forall (fun s => plain_name s = true) ["form-build"; id].
Proof. repeat constructor; done. Qed.

Lemma Join_dir : Filepath.Join ["form-build"; id] = dir_of id.
Proof.
  cbn [Filepath.Join]. destruct (decide ("form-build" = "")); [done|].
  by rewrite (Clean_join _ _ plain2).
Qed.

Lemma Join_form_json : Filepath.Join ["form-build"; id; "form.json"] = file_of id.
Proof.
  cbn [Filepath.Join]. destruct (decide ("form-build" = "")); [done|].
  by rewrite (Clean_join _ _ plain3).
Qed.

Lemma Join_file : Filepath.Join [(dir_of id); "form.json"] = file_of id.
Proof.
  cbn [Filepath.Join]. destruct (decide (dir_of id = "")) as [H|_]; [discriminate H|].
  replace (Filepath.join_sep "/" [(dir_of id); "form.json"])
    with (Filepath.join_sep "/" ["form-build"; id; "form.json"]).
  - by rewrite (Clean_join _ _ plain3).
  - reflexivity.
Qed.

Lemma Join_submit_url :
  Filepath.Join ["/api/submit-form/"; id] = ("/api/submit-form/" ++ id)%string.
Proof.
  destruct (plain_name_spec id Hplain) as (H1 & H2 & H3 & Hc).
  cbn [Filepath.Join]. destruct (decide ("/api/submit-form/" = "")); [done|].
  unfold Filepath.Clean. cbn [Filepath.join_sep].
  destruct (decide (("/api/submit-form/" ++ "/" ++ id)%string = "")); [done|].
  change (Filepath.split ("/api/submit-form/" ++ "/" ++ id)%string)
    with ("" :: Filepath.split ("api" ++ String "/"
            ("submit-form" ++ String "/" ("" ++ String "/" id)))%string).
  rewrite !split_plain_app by (repeat constructor; done).
  rewrite (split_plain id Hc).
  change (Filepath.is_rooted _) with true. cbv iota.
  change (Filepath.clean_go true [] [""; "api"; "submit-form"; ""; id])
    with (Filepath.clean_go true ["submit-form"; "api"] [id]).
  rewrite clean_go_plain by (repeat constructor; done).
  reflexivity.
Qed.

Lemma ancestors_dir_of : Os.ancestors (dir_of id) = ["form-build"].
Proof.
  pose proof (all_plain _ plain2) as [Hsep _]. unfold Os.ancestors.
  change (dir_of id) with (Filepath.join_sep "/" ["form-build"; id]).
  rewrite split_join by done. reflexivity.
Qed.

Lemma ancestors_file_of : Os.ancestors (file_of id) = ["form-build"; dir_of id].
Proof.
  pose proof (all_plain _ plain3) as [Hsep _]. unfold Os.ancestors.
  change (file_of id) with (Filepath.join_sep "/" ["form-build"; id; "form.json"]).
  rewrite split_join by done. reflexivity.
Qed.

Lemma has_nul_dir_of : Os.has_nul (dir_of id) = false.
Proof.
  pose proof (all_plain _ plain2) as [Hsep _].
  by apply (has_nul_join ["form-build"; id]).
Qed.

Lemma has_nul_file_of : Os.has_nul (file_of id) = false.
Proof.
  pose proof (all_plain _ plain3) as [Hsep _].
  by apply (has_nul_join ["form-build"; id; "form.json"]).
Qed.

Lemma always_dir_dir_of : Os.always_dir (dir_of id) = false.
Proof. apply (always_dir_join _ _ plain2). Qed.

Lemma always_dir_file_of : Os.always_dir (file_of id) = false.
Proof. apply (always_dir_join _ _ plain3). Qed.

Lemma dir_of_neq_root : "form-build" <> dir_of id.
Proof. intros H. discriminate H. Qed.

Lemma file_of_neq_root : "form-build" <> file_of id.
Proof. intros H. discriminate H. Qed.

Lemma dir_of_neq_file_of : dir_of id <> file_of id.
Proof.
  unfold dir_of, file_of. intros H.
  simpl in H. repeat injection H as H.
  by apply append_cons_neq in H.
Qed.

End PlainName.
Lemma uint_digits (d : Decimal.uint) :
  Forall (fun c => Byte.is_digit c = true) (to_bytes (NilEmpty.string_of_uint d)).
Proof. induction d; simpl; constructor; done. Qed.

Lemma uint_nonempty (d : Decimal.uint) :
  d <> Decimal.Nil -> NilEmpty.string_of_uint d <> "".
Proof. destruct d; simpl; done. Qed.

Lemma decimal_plain (s : string) :
  s <> "" ->
  Forall (fun c => Byte.is_digit c = true \/ c = "-"%char) (to_bytes s) ->
  plain_name s = true.
Proof.
  intros Hne H. unfold plain_name. apply andb_true_iff. split.
  - apply negb_true_iff, bool_decide_eq_false.
    destruct s as [|c s]; [done|]. apply Forall_cons in H as [Hc _].
    intros [?|[He|He]]; [done| |]; injection He as -> _;
      destruct Hc as [Hc|Hc]; discriminate Hc.
  - apply forallb_forall. intros c Hc.
    rewrite Forall_forall in H. apply list_elem_of_In in Hc.
    destruct (H c Hc) as [Hd| ->]; [|reflexivity].
    unfold Byte.eqb.
    destruct (Ascii.eqb_spec c "/"%char) as [->|_]; [discriminate Hd|].
    destruct (Ascii.eqb_spec c Byte.nul) as [->|_]; [discriminate Hd|].
    reflexivity.
Qed.

Lemma fmt_d_plain (n : Z) : plain_name (fmt_d n) = true.
Proof.
  unfold fmt_d. apply decimal_plain.
  - destruct n as [|p|p]; simpl; [done| |done].
    pose proof (Unsigned.to_uint_nonnil p) as Hn.
    destruct (Pos.to_uint p) eqn:E; simpl; done.
  - destruct n as [|p|p]; simpl.
    + repeat constructor.
    + pose proof (uint_digits (Pos.to_uint p)) as Hd.
      destruct (Pos.to_uint p); simpl in *;
        [repeat constructor|..]; (eapply Forall_impl; [exact Hd|]); cbv beta; tauto.
    + constructor; [by right|].
      pose proof (uint_digits (Pos.to_uint p)) as Hd.
      destruct (Pos.to_uint p); simpl in *;
        [repeat constructor|..]; (eapply Forall_impl; [exact Hd|]); cbv beta; tauto.
Qed.

(** The decimal string reads back as the number. *)
Lemma fmt_d_decimal (n : Z) :
  option_map Z.of_int (NilZero.int_of_string (fmt_d n)) = Some n.
Proof.
  unfold fmt_d. rewrite NilZero.isi.
  - simpl. f_equal. apply DecimalZ.of_to.
  - destruct n as [|p|p]; simpl; [done| |done].
    intros H. injection H as H. by apply Unsigned.to_uint_nonnil in H.
  - destruct n as [|p|p]; simpl; [done|done|].
    intros H. injection H as H. by apply Unsigned.to_uint_nonnil in H.
Qed.
(** ** Storing a form *)

Lemma saveForm_ok (now : Z) (form : Form) (s : Os.state)
    (resp : Response) (s' : Os.state) :
  let dir := dir_of (fmt_d now) in
  let file := file_of (fmt_d now) in
  saveForm now (Some form) s = (resp, s') ->
  Status resp = StatusOK ->
  Validate form = None
  /\ resp = mkResponse StatusOK
              (JSONMap {[ "message" := "Form saved successfully";
                          "path" := file ]})
  /\ Os.files s' !! "form-build" = Some Os.Dir
  /\ Os.files s' !! dir = Some Os.Dir
  /\ Os.files s' !! file = Some (Os.File (Encode form))
  /\ (forall p, p <> "form-build" -> p <> dir -> p <> file ->
        Os.files s' !! p = Os.files s !! p)
  /\ (Os.files s !! "form-build" = Some Os.Dir ->
      Os.files s !! dir = Some Os.Dir ->
      Os.files s' = <[ file := Os.File (Encode form) ]> (Os.files s))
  /\ Os.log s'
     = Os.log s ++ [Os.CMkdirAll dir; Os.CCreate file;
                    Os.CWrite file (Encode form)].
Proof.
  intros dir file.
  pose proof (fmt_d_plain now) as Hp.
  unfold saveForm. destruct (Validate form) as [err|] eqn:Hv.
  { intros [= <- <-]. discriminate. }
  rewrite (Join_dir _ Hp), (Join_file _ Hp). fold dir file.
  unfold Os.MkdirAll, Os.Create, Os.Write, Os.open_write, Os.bind, Os.record,
    Os.get_files, Os.put_files, Os.ret, Os.resolve.
  cbn [Os.files Os.log].
  subst dir file.
  rewrite (has_nul_dir_of _ Hp), (ancestors_dir_of _ Hp).
  rewrite (has_nul_file_of _ Hp), (ancestors_file_of _ Hp).
  cbn [app Os.mkdir_chain Os.walk].
  unfold Os.node_at.
  change (Os.always_dir "form-build") with false. cbv iota.
  rewrite !(always_dir_dir_of _ Hp), !(always_dir_file_of _ Hp).
  pose proof (dir_of_neq_root (fmt_d now)) as H1.
  pose proof (file_of_neq_root (fmt_d now)) as H2.
  pose proof (dir_of_neq_file_of (fmt_d now)) as H3.
  set (dir := dir_of (fmt_d now)) in *.
  set (file := file_of (fmt_d now)) in *.
  destruct s as [fs lg]. cbn [Os.files Os.log].
  clearbody dir file. clear Hp.
  destruct (fs !! "form-build") as [[|?]|] eqn:Ha;
    destruct (fs !! dir) as [[|?]|] eqn:Hb;
    destruct (fs !! file) as [[|?]|] eqn:Hc;
    cbn [Os.files Os.log]; simplify_map_eq; cbn [Os.files Os.log];
    simplify_map_eq; cbn [Os.files Os.log];
    try (intros [= <- <-]; discriminate).
  all: intros [= <- <-] _; cbn [Os.files Os.log].
  all: rewrite <- ?app_assoc; cbn [app].
  all: repeat split; try done; simplify_map_eq; try done.
  all: try (intros; simplify_map_eq; done).
  all: intros _ _; by rewrite insert_insert_eq.
Qed.
(** ** The layout of a stored form *)

Lemma to_bytes_json_string (s : string) :
  to_bytes (json_string s) = Json.appendString s.
Proof. unfold json_string. apply list_ascii_of_string_of_list_ascii. Qed.

Lemma pretty_Field_bytes (f : Field) :
  to_bytes (pretty_Field f)
  = to_bytes "    " ++ Json.indented "  " 2 (Field_value f).
Proof.
  unfold pretty_Field, pretty_member, Field_value, dq, lf.
  rewrite !to_bytes_app, !to_bytes_json_string.
  cbn [Json.indented Json.compact].
  unfold Json.newline. cbn [repeat concat].
  change (Json.appendString "label") with (to_bytes (String Byte.quote "label" ++ String Byte.quote "")%string).
  change (Json.appendString "type") with (to_bytes (String Byte.quote "type" ++ String Byte.quote "")%string).
  change (Json.appendString "name") with (to_bytes (String Byte.quote "name" ++ String Byte.quote "")%string).
  change (Json.appendString "placeholder") with (to_bytes (String Byte.quote "placeholder" ++ String Byte.quote "")%string).
  cbn [list_ascii_of_string String.append].
  flatten_app. reflexivity.
Qed.

Lemma more_fields (l : list Field) :
  (fix more (l : list Json.value) : list ascii :=
     match l with
     | [] => []
     | y :: ys =>
       to_bytes "," ++ Json.newline "  " 2 ++ Json.indented "  " 2 y ++ more ys
     end) (map Field_value l)
  = concat (map (fun f => to_bytes ("," ++ lf ++ pretty_Field f)%string) l).
Proof.
  induction l as [|f l IH]; [reflexivity|].
  cbn [map concat]. rewrite IH. clear IH.
  rewrite !to_bytes_app, pretty_Field_bytes.
  unfold Json.newline, lf. cbn [repeat concat list_ascii_of_string].
  flatten_app. reflexivity.
Qed.

Lemma String_concat_cons (sep a b : string) (l : list string) :
  String.concat sep (a :: b :: l) = (a ++ sep ++ String.concat sep (b :: l))%string.
Proof. reflexivity. Qed.

Lemma concat_fields (f : Field) (l : list Field) :
  to_bytes (String.concat ("," ++ lf) (pretty_Field f :: map pretty_Field l))
  = to_bytes (pretty_Field f)
    ++ concat (map (fun f => to_bytes ("," ++ lf ++ pretty_Field f)%string) l).
Proof.
  revert f. induction l as [|g l IH]; intros f.
  - cbn [map String.concat concat]. by rewrite app_nil_r.
  - cbn [map concat].
    rewrite String_concat_cons, !to_bytes_app, IH, ?to_bytes_app.
    flatten_app. reflexivity.
Qed.

Lemma pretty_Form_bytes (form : Form) :
  to_bytes (pretty_Form form)
  = Json.indented "  " 0 (Form_value form) ++ [Byte.newline].
Proof.
  unfold pretty_Form, pretty_member, Form_value.
  rewrite !to_bytes_app, !to_bytes_json_string.
  cbn [Json.indented].
  change (Json.appendString "title") with (to_bytes (String Byte.quote "title" ++ String Byte.quote "")%string).
  change (Json.appendString "fields") with (to_bytes (String Byte.quote "fields" ++ String Byte.quote "")%string).
  destruct (Fields form) as [[|f l]|]; cbn [pretty_Fields map].
  - cbn [Json.indented Json.compact]. unfold Json.newline, dq, lf.
    cbn [repeat concat list_ascii_of_string String.append].
    flatten_app. reflexivity.
  - cbn [Json.indented Json.compact].
    rewrite (more_fields l).
    rewrite !to_bytes_app.
    rewrite (concat_fields f l), pretty_Field_bytes.
    unfold Json.newline, dq, lf.
    cbn [repeat concat list_ascii_of_string String.append].
    flatten_app. reflexivity.
  - cbn [Json.indented Json.compact]. unfold Json.newline, dq, lf.
    cbn [repeat concat list_ascii_of_string String.append].
    flatten_app. reflexivity.
Qed.

Lemma Encode_pretty (form : Form) : Encode form = pretty_Form form.
Proof.
  unfold Encode. rewrite <- pretty_Form_bytes.
  apply string_of_list_ascii_of_string.
Qed.
(** ** UTF-8: decoding and encoding agree *)

Section Bits.

Local Open Scope N_scope.

Lemma land_mul_pow2_low (a b k : N) : b < 2 ^ k -> N.land (a * 2 ^ k) b = 0.
Proof.
  intros Hb. apply N.bits_inj_0. intros n. rewrite N.land_spec.
  destruct (N.lt_ge_cases n k) as [Hn|Hn].
  - by rewrite N.mul_pow2_bits_low.
  - apply andb_false_iff. right.
    destruct (N.eq_dec b 0) as [->|Hb0]; [apply N.bits_0|].
    apply N.bits_above_log2.
    apply N.lt_le_trans with k; [|done].
    apply N.log2_lt_pow2; [lia|done].
Qed.

Lemma lor_add (a b k : N) : b < 2 ^ k -> N.lor (a * 2 ^ k) b = a * 2 ^ k + b.
Proof.
  intros Hb. pose proof (land_mul_pow2_low a b k Hb) as H0.
  rewrite <- N.lxor_lor by done. symmetry. by apply N.add_nocarry_lxor.
Qed.

Lemma lor_add_mod (a b k : N) :
  a mod 2 ^ k = 0 -> b < 2 ^ k -> N.lor a b = a + b.
Proof.
  intros Ha Hb.
  assert (Hk : 2 ^ k <> 0) by (apply N.pow_nonzero; lia).
  pose proof (N.div_mod a (2 ^ k) Hk) as Hd. rewrite Ha, N.add_0_r in Hd.
  rewrite Hd at 1 2. rewrite (N.mul_comm (2 ^ k)). by apply lor_add.
Qed.

Lemma land_63 (x : N) : N.land x 63 = x mod 64.
Proof. change 63 with (N.ones 6). apply N.land_ones. Qed.
Lemma land_31 (x : N) : N.land x 31 = x mod 32.
Proof. change 31 with (N.ones 5). apply N.land_ones. Qed.
Lemma land_15 (x : N) : N.land x 15 = x mod 16.
Proof. change 15 with (N.ones 4). apply N.land_ones. Qed.
Lemma land_7 (x : N) : N.land x 7 = x mod 8.
Proof. change 7 with (N.ones 3). apply N.land_ones. Qed.

Lemma shiftl_6 (x : N) : N.shiftl x 6 = x * 64.
Proof. apply (N.shiftl_mul_pow2 x 6). Qed.
Lemma shiftl_12 (x : N) : N.shiftl x 12 = x * 4096.
Proof. apply (N.shiftl_mul_pow2 x 12). Qed.
Lemma shiftl_18 (x : N) : N.shiftl x 18 = x * 262144.
Proof. apply (N.shiftl_mul_pow2 x 18). Qed.
Lemma shiftr_6 (x : N) : N.shiftr x 6 = x / 64.
Proof. apply (N.shiftr_div_pow2 x 6). Qed.
Lemma shiftr_12 (x : N) : N.shiftr x 12 = x / 4096.
Proof. apply (N.shiftr_div_pow2 x 12). Qed.
Lemma shiftr_18 (x : N) : N.shiftr x 18 = x / 262144.
Proof. apply (N.shiftr_div_pow2 x 18). Qed.

(** The rune of a two-byte sequence and its bytes. *)
Lemma rune2 (a b : N) :
  N.lor (N.shiftl (N.land a 31) 6) (N.land b 63) = (a mod 32) * 64 + b mod 64.
Proof.
  rewrite land_31, land_63, shiftl_6.
  apply (lor_add_mod _ _ 6); change (2 ^ 6) with 64; dlia.
Qed.

Lemma rune3 (a b c : N) :
  N.lor (N.lor (N.shiftl (N.land a 15) 12) (N.shiftl (N.land b 63) 6))
        (N.land c 63)
  = (a mod 16) * 4096 + (b mod 64) * 64 + c mod 64.
Proof.
  rewrite land_15, !land_63, shiftl_6, shiftl_12.
  rewrite (lor_add_mod (a mod 16 * 4096) ((b mod 64) * 64) 12)
    by (change (2 ^ 12) with 4096; dlia).
  apply (lor_add_mod _ _ 6); change (2 ^ 6) with 64; dlia.
Qed.

Lemma rune4 (a b c d : N) :
  N.lor (N.lor (N.lor (N.shiftl (N.land a 7) 18) (N.shiftl (N.land b 63) 12))
               (N.shiftl (N.land c 63) 6))
        (N.land d 63)
  = (a mod 8) * 262144 + (b mod 64) * 4096 + (c mod 64) * 64 + d mod 64.
Proof.
  rewrite land_7, !land_63, shiftl_6, shiftl_12, shiftl_18.
  rewrite (lor_add_mod (a mod 8 * 262144) ((b mod 64) * 4096) 18)
    by (change (2 ^ 18) with 262144; dlia).
  rewrite (lor_add_mod _ ((c mod 64) * 64) 12)
    by (change (2 ^ 12) with 4096; dlia).
  apply (lor_add_mod _ _ 6); change (2 ^ 6) with 64; dlia.
Qed.

Lemma lead2 (r : N) : r <= 2047 -> N.lor 192 (N.shiftr r 6) = 192 + r / 64.
Proof.
  intros H. rewrite shiftr_6.
  apply (lor_add_mod _ _ 6); change (2 ^ 6) with 64; [reflexivity|dlia].
Qed.

Lemma lead3 (r : N) : r <= 65535 -> N.lor 224 (N.shiftr r 12) = 224 + r / 4096.
Proof.
  intros H. rewrite shiftr_12.
  apply (lor_add_mod _ _ 4); change (2 ^ 4) with 16; [reflexivity|dlia].
Qed.

Lemma lead4 (r : N) :
  r <= 1114111 -> N.lor 240 (N.shiftr r 18) = 240 + r / 262144.
Proof.
  intros H. rewrite shiftr_18.
  apply (lor_add_mod _ _ 3); change (2 ^ 3) with 8; [reflexivity|dlia].
Qed.

Lemma cont0 (r : N) : N.lor 128 (N.land r 63) = 128 + r mod 64.
Proof.
  rewrite land_63.
  apply (lor_add_mod _ _ 6); change (2 ^ 6) with 64; [reflexivity|dlia].
Qed.

Lemma cont6 (r : N) :
  N.lor 128 (N.land (N.shiftr r 6) 63) = 128 + (r / 64) mod 64.
Proof. by rewrite cont0, shiftr_6. Qed.

Lemma cont12 (r : N) :
  N.lor 128 (N.land (N.shiftr r 12) 63) = 128 + (r / 4096) mod 64.
Proof. by rewrite cont0, shiftr_12. Qed.

End Bits.
Section Runes.

Local Open Scope N_scope.

Lemma val_bound (c : ascii) : Byte.val c < 256.
Proof. apply N_ascii_bounded. Qed.

Lemma of_N_val (c : ascii) : Byte.of_N (Byte.val c) = c.
Proof.
  unfold Byte.of_N. rewrite N.mod_small by apply val_bound.
  apply ascii_N_embedding.
Qed.

Lemma of_N_eq (n : N) (c : ascii) : n = Byte.val c -> Byte.of_N n = c.
Proof. intros ->. apply of_N_val. Qed.

Lemma first_lead_ok (s0 s1 : N) (sz : nat) (lo hi : N) :
  Utf8.first s0 = Some (sz, lo, hi) ->
  (s1 <? lo) || (hi <? s1) = false ->
  lead_ok sz s0 s1.
Proof.
  unfold Utf8.first, lead_ok. intros Hf Hr.
  apply orb_false_iff in Hr as [H1 H2].
  apply N.ltb_ge in H1, H2.
  repeat match type of Hf with
         | (if ?b then _ else _) = _ =>
           let E := fresh "E" in
           destruct b eqn:E;
           [ try apply N.ltb_lt in E; try apply N.eqb_eq in E
           | try apply N.ltb_ge in E; try apply N.eqb_neq in E ]
         end;
    try discriminate Hf; injection Hf as <- <- <-; lia.
Qed.

Lemma lead_ok_first (s0 s1 : N) (size : nat) :
  lead_ok size s0 s1 ->
  exists lo hi,
    Utf8.first s0 = Some (size, lo, hi) /\ (s1 <? lo) || (hi <? s1) = false.
Proof.
  unfold lead_ok, Utf8.first. intros [Hs1 H].
  destruct size as [|[|[|[|[|?]]]]]; try done.
  - destruct H as [Ha Hb].
    destruct (s0 <? 194) eqn:E1; [apply N.ltb_lt in E1; lia|].
    destruct (s0 <? 224) eqn:E2; [|apply N.ltb_ge in E2; lia].
    eexists _, _. split; [reflexivity|].
    apply orb_false_iff. split; apply N.ltb_ge; lia.
  - destruct H as [[Ha Hb] [Hc Hd]].
    destruct (s0 <? 194) eqn:E1; [apply N.ltb_lt in E1; lia|].
    destruct (s0 <? 224) eqn:E2; [apply N.ltb_lt in E2; lia|].
    destruct (s0 =? 224) eqn:E3;
      [apply N.eqb_eq in E3|apply N.eqb_neq in E3].
    { eexists _, _. split; [reflexivity|].
      apply orb_false_iff. split; apply N.ltb_ge; lia. }
    destruct (s0 <? 237) eqn:E4;
      [apply N.ltb_lt in E4|apply N.ltb_ge in E4].
    { eexists _, _. split; [reflexivity|].
      apply orb_false_iff. split; apply N.ltb_ge; lia. }
    destruct (s0 =? 237) eqn:E5;
      [apply N.eqb_eq in E5|apply N.eqb_neq in E5].
    { eexists _, _. split; [reflexivity|].
      apply orb_false_iff. split; apply N.ltb_ge; lia. }
    destruct (s0 <? 240) eqn:E6; [|apply N.ltb_ge in E6; lia].
    eexists _, _. split; [reflexivity|].
    apply orb_false_iff. split; apply N.ltb_ge; lia.
  - destruct H as [[Ha Hb] [Hc Hd]].
    destruct (s0 <? 194) eqn:E1; [apply N.ltb_lt in E1; lia|].
    destruct (s0 <? 224) eqn:E2; [apply N.ltb_lt in E2; lia|].
    destruct (s0 =? 224) eqn:E3; [apply N.eqb_eq in E3; lia|].
    destruct (s0 <? 237) eqn:E4; [apply N.ltb_lt in E4; lia|].
    destruct (s0 =? 237) eqn:E5; [apply N.eqb_eq in E5; lia|].
    destruct (s0 <? 240) eqn:E6; [apply N.ltb_lt in E6; lia|].
    destruct (s0 =? 240) eqn:E7;
      [apply N.eqb_eq in E7|apply N.eqb_neq in E7].
    { eexists _, _. split; [reflexivity|].
      apply orb_false_iff. split; apply N.ltb_ge; lia. }
    destruct (s0 <? 244) eqn:E8;
      [apply N.ltb_lt in E8|apply N.ltb_ge in E8].
    { eexists _, _. split; [reflexivity|].
      apply orb_false_iff. split; apply N.ltb_ge; lia. }
    destruct (s0 =? 244) eqn:E9; [|apply N.eqb_neq in E9; lia].
    eexists _, _. split; [reflexivity|].
    apply orb_false_iff. split; apply N.ltb_ge; lia.
Qed.

Lemma DecodeRune_multibyte (src : list ascii) (rune : N) (size : nat) :
  Utf8.DecodeRune src = (rune, size) ->
  (forall c r, src = c :: r -> 128 <= Byte.val c) ->
  ~ (rune = Utf8.RuneError /\ size = 1%nat) ->
  src <> [] ->
  multibyte (take size src) rune size.
Proof.
  intros Hd Hhi Hbad Hne. destruct src as [|c0 r0]; [done|].
  specialize (Hhi c0 r0 eq_refl). unfold Utf8.DecodeRune in Hd.
  destruct (Byte.val c0 <? 128) eqn:E0; [apply N.ltb_lt in E0; lia|].
  destruct (Utf8.first (Byte.val c0)) as [[[sz lo] hi]|] eqn:Hf;
    [|injection Hd as <- <-; tauto].
  destruct r0 as [|c1 r1]; [injection Hd as <- <-; tauto|].
  destruct (length (c0 :: c1 :: r1) <? sz)%nat eqn:El;
    [injection Hd as <- <-; tauto|].
  destruct ((Byte.val c1 <? lo) || (hi <? Byte.val c1)) eqn:Er;
    [injection Hd as <- <-; tauto|].
  pose proof (first_lead_ok _ _ _ _ _ Hf Er) as Hok.
  destruct (sz <=? 2)%nat eqn:E2.
  { injection Hd as <- <-. rewrite rune2.
    assert (sz = 2%nat) as ->.
    { apply Nat.leb_le in E2. destruct Hok as [_ Hok].
      destruct sz as [|[|[|?]]]; try done. lia. }
    by constructor. }
  destruct r1 as [|c2 r2]; [injection Hd as <- <-; tauto|].
  destruct (negb (Utf8.cont (Byte.val c2))) eqn:Ec2;
    [injection Hd as <- <-; tauto|].
  apply negb_false_iff in Ec2.
  destruct (sz <=? 3)%nat eqn:E3.
  { injection Hd as <- <-. rewrite rune3.
    assert (sz = 3%nat) as ->.
    { apply Nat.leb_le in E3. apply Nat.leb_gt in E2. lia. }
    by constructor. }
  destruct r2 as [|c3 r3]; [injection Hd as <- <-; tauto|].
  destruct (negb (Utf8.cont (Byte.val c3))) eqn:Ec3;
    [injection Hd as <- <-; tauto|].
  apply negb_false_iff in Ec3.
  injection Hd as <- <-. rewrite rune4.
  assert (sz = 4%nat) as ->.
  { apply Nat.leb_gt in E3. destruct Hok as [_ Hok].
    destruct sz as [|[|[|[|[|?]]]]]; try done; lia. }
  by constructor.
Qed.

Lemma multibyte_length (b : list ascii) (rune : N) (size : nat) :
  multibyte b rune size -> length b = size /\ (2 <= size)%nat.
Proof. destruct 1; simpl; lia. Qed.

Lemma multibyte_head (b : list ascii) (rune : N) (size : nat) :
  multibyte b rune size -> exists c r, b = c :: r /\ 194 <= Byte.val c.
Proof.
  destruct 1 as [c0 c1 [_ H]|c0 c1 c2 [_ [H _]] _|c0 c1 c2 c3 [_ [H _]] _ _];
    eexists _, _; (split; [reflexivity|lia]).
Qed.

(** Decoding looks at the sequence only. *)
Lemma multibyte_DecodeRune (b : list ascii) (rune : N) (size : nat)
    (rest : list ascii) :
  multibyte b rune size -> Utf8.DecodeRune (b ++ rest) = (rune, size).
Proof.
  destruct 1 as [c0 c1 Hok|c0 c1 c2 Hok Hc2|c0 c1 c2 c3 Hok Hc2 Hc3];
    pose proof Hok as Hok';
    apply lead_ok_first in Hok' as (lo & hi & Hf & Hr);
    cbn [app]; unfold Utf8.DecodeRune; rewrite Hf, Hr.
  - destruct Hok as [_ Hok].
    destruct (Byte.val c0 <? 128) eqn:E0; [apply N.ltb_lt in E0; lia|].
    cbn [length Nat.ltb Nat.leb]. by rewrite rune2.
  - destruct Hok as [_ [Hok _]].
    destruct (Byte.val c0 <? 128) eqn:E0; [apply N.ltb_lt in E0; lia|].
    cbn [length Nat.ltb Nat.leb]. rewrite Hc2. cbn [negb]. by rewrite rune3.
  - destruct Hok as [_ [Hok _]].
    destruct (Byte.val c0 <? 128) eqn:E0; [apply N.ltb_lt in E0; lia|].
    cbn [length Nat.ltb Nat.leb]. rewrite Hc2, Hc3. cbn [negb].
    by rewrite rune4.
Qed.

End Runes.
Section Encode.

Local Open Scope N_scope.

Lemma cont_bounds (b : N) : Utf8.cont b = true -> 128 <= b <= 191.
Proof.
  unfold Utf8.cont. intros H. apply andb_true_iff in H as [H1 H2].
  apply N.leb_le in H1, H2. lia.
Qed.

Lemma multibyte_EncodeRune (b : list ascii) (rune : N) (size : nat) :
  multibyte b rune size ->
  Utf8.EncodeRune rune = b /\ Utf8.is_surrogate rune = false /\ 128 <= rune.
Proof.
  destruct 1 as [c0 c1 Hok|c0 c1 c2 Hok Hc2|c0 c1 c2 c3 Hok Hc2 Hc3].
  - destruct Hok as [H1 H0].
    pose proof (val_bound c0). pose proof (val_bound c1).
    set (s0 := Byte.val c0) in *. set (s1 := Byte.val c1) in *.
    set (r := s0 mod 32 * 64 + s1 mod 64).
    assert (Hr : 128 <= r <= 2047) by (subst r; dlia).
    split; [|split; [|lia]].
    + unfold Utf8.EncodeRune.
      destruct (r <=? 127) eqn:E1; [apply N.leb_le in E1; lia|].
      destruct (r <=? 2047) eqn:E2; [|apply N.leb_gt in E2; lia].
      rewrite lead2, cont0 by lia.
      f_equal; [|f_equal]; apply of_N_eq; subst r s0 s1; dlia.
    + unfold Utf8.is_surrogate. apply andb_false_iff. left.
      apply N.leb_gt. lia.
  - destruct Hok as [H1 (H0 & Ha & Hb)]. apply cont_bounds in Hc2.
    pose proof (val_bound c0). pose proof (val_bound c1).
    pose proof (val_bound c2).
    set (s0 := Byte.val c0) in *. set (s1 := Byte.val c1) in *.
    set (s2 := Byte.val c2) in *.
    set (r := s0 mod 16 * 4096 + s1 mod 64 * 64 + s2 mod 64).
    assert (Hr : 2048 <= r <= 65535 /\ (r < 55296 \/ 57343 < r))
      by (subst r; dlia).
    assert (Hs : Utf8.is_surrogate r = false).
    { unfold Utf8.is_surrogate. apply andb_false_iff.
      destruct Hr as [_ [Hr|Hr]]; [left; apply N.leb_gt|right; apply N.leb_gt];
        lia. }
    split; [|split; [done|lia]].
    unfold Utf8.EncodeRune. rewrite Hs.
    destruct (r <=? 127) eqn:E1; [apply N.leb_le in E1; lia|].
    destruct (r <=? 2047) eqn:E2; [apply N.leb_le in E2; lia|].
    destruct (Utf8.MaxRune <? r) eqn:E3;
      [apply N.ltb_lt in E3; unfold Utf8.MaxRune in E3; lia|].
    cbn [orb].
    destruct (r <=? 65535) eqn:E4; [|apply N.leb_gt in E4; lia].
    unfold Utf8.encode3. rewrite lead3, cont6, cont0 by lia.
    f_equal; [|f_equal; [|f_equal]]; apply of_N_eq; subst r s0 s1 s2; dlia.
  - destruct Hok as [H1 (H0 & Ha & Hb)].
    apply cont_bounds in Hc2, Hc3.
    pose proof (val_bound c0). pose proof (val_bound c1).
    pose proof (val_bound c2). pose proof (val_bound c3).
    set (s0 := Byte.val c0) in *. set (s1 := Byte.val c1) in *.
    set (s2 := Byte.val c2) in *. set (s3 := Byte.val c3) in *.
    set (r := s0 mod 8 * 262144 + s1 mod 64 * 4096 + s2 mod 64 * 64
              + s3 mod 64).
    assert (Hr : 65536 <= r <= 1114111) by (subst r; dlia).
    assert (Hs : Utf8.is_surrogate r = false).
    { unfold Utf8.is_surrogate. apply andb_false_iff. right.
      apply N.leb_gt. lia. }
    split; [|split; [done|lia]].
    unfold Utf8.EncodeRune. rewrite Hs.
    destruct (r <=? 127) eqn:E1; [apply N.leb_le in E1; lia|].
    destruct (r <=? 2047) eqn:E2; [apply N.leb_le in E2; lia|].
    destruct (Utf8.MaxRune <? r) eqn:E3;
      [apply N.ltb_lt in E3; unfold Utf8.MaxRune in E3; lia|].
    cbn [orb].
    destruct (r <=? 65535) eqn:E4; [apply N.leb_le in E4; lia|].
    rewrite lead4, cont12, cont6, cont0 by lia.
    f_equal; [|f_equal; [|f_equal; [|f_equal]]]; apply of_N_eq;
      subst r s0 s1 s2 s3; dlia.
Qed.

End Encode.
(** ** String literals read back *)

Lemma string_body_ascii (c : ascii) (fuel : nat) (tail : list ascii) :
  (Byte.val c <? 128)%N = true ->
  Json.string_body (S fuel)
    ((if Json.html_safe (Byte.val c) then [c] else Json.escape_byte c) ++ tail)
  = match Json.string_body fuel tail with
    | Some (t, r) => Some (c :: t, r)
    | None => None
    end.
Proof.
  destruct c as [b0 b1 b2 b3 b4 b5 b6 b7].
  destruct b7, b0, b1, b2, b3, b4, b5, b6; intros H;
    first [ discriminate H | reflexivity ].
Qed.

Lemma DecodeRune_ascii (c : ascii) (r : list ascii) :
  (Byte.val c <? 128)%N = true ->
  Utf8.DecodeRune (c :: r) = (Byte.val c, 1%nat).
Proof. intros H. unfold Utf8.DecodeRune. by rewrite H. Qed.

Lemma string_body_high (c : ascii) (r : list ascii) (fuel : nat) :
  (Byte.val c <? 128)%N = false ->
  Json.string_body (S fuel) (c :: r)
  = let '(rune, size) := Utf8.DecodeRune (c :: r) in
    match Json.string_body fuel (skipn size (c :: r)) with
    | Some (t, r') => Some (Utf8.EncodeRune rune ++ t, r')
    | None => None
    end.
Proof.
  intros H. apply N.ltb_ge in H. cbn [Json.string_body].
  destruct (Byte.val c =? 34)%N eqn:E1; [apply N.eqb_eq in E1; lia|].
  destruct (Byte.val c =? 92)%N eqn:E2; [apply N.eqb_eq in E2; lia|].
  destruct (Byte.val c <? 32)%N eqn:E3; [apply N.ltb_lt in E3; lia|].
  destruct (Byte.val c <? 128)%N eqn:E4; [apply N.ltb_lt in E4; lia|].
  reflexivity.
Qed.

Lemma string_body_u202 (rune : N) (fuel : nat) (tail : list ascii) :
  rune = 8232%N \/ rune = 8233%N ->
  Json.string_body (S fuel)
    (to_bytes "\u202" ++ [Byte.hex_digit (N.land rune 15)] ++ tail)
  = match Json.string_body fuel tail with
    | Some (t, r) => Some (Utf8.EncodeRune rune ++ t, r)
    | None => None
    end.
Proof. intros [-> | ->]; reflexivity. Qed.

Lemma escape_byte_length (c : ascii) : (2 <= length (Json.escape_byte c))%nat.
Proof.
  unfold Json.escape_byte.
  repeat match goal with |- context [if ?b then _ else _] => destruct b end;
    simpl; lia.
Qed.

(** A string written by the encoder is read back byte for byte when it
    is well-formed UTF-8. *)
Lemma string_body_quote_go (n : nat) :
  forall (src : list ascii) (k fuel : nat) (rest : list ascii),
    (length src <= n)%nat ->
    Utf8.valid_fuel k src = true ->
    (length (Json.quote_go n src) < fuel)%nat ->
    Json.string_body fuel (Json.quote_go n src ++ Byte.quote :: rest)
    = Some (src, rest).
Proof.
  induction n as [|n IH]; intros src k fuel rest Hlen Hv Hfuel.
  { destruct src; [|simpl in Hlen; lia].
    destruct fuel; [simpl in Hfuel; lia|]. reflexivity. }
  destruct src as [|c r].
  { destruct fuel; [simpl in Hfuel; lia|]. reflexivity. }
  destruct k as [|k]; [discriminate Hv|].
  cbn [Utf8.valid_fuel] in Hv. cbn [Json.quote_go] in *.
  destruct (Byte.val c <? 128)%N eqn:E.
  - rewrite (DecodeRune_ascii c r E) in Hv.
    destruct ((Byte.val c =? Utf8.RuneError)%N && (1 =? 1)%nat); [done|].
    cbn [skipn] in Hv.
    rewrite length_app in Hfuel.
    destruct fuel as [|fuel]; [lia|].
    rewrite <- app_assoc, (string_body_ascii c fuel _ E).
    rewrite (IH r k fuel rest); [done| simpl in Hlen; lia |done|].
    pose proof (escape_byte_length c).
    destruct (Json.html_safe (Byte.val c)); simpl in Hfuel; lia.
  - destruct (Utf8.DecodeRune (c :: r)) as [rune size] eqn:Hd.
    destruct ((rune =? Utf8.RuneError)%N && (size =? 1)%nat) eqn:Hbad;
      [discriminate Hv|].
    assert (Hm : multibyte (take size (c :: r)) rune size).
    { apply DecodeRune_multibyte; [done| | |done].
      - intros c' r' [= <- <-]. by apply N.ltb_ge.
      - intros [-> ->]. discriminate Hbad. }
    pose proof (multibyte_length _ _ _ Hm) as [Hl Hs].
    pose proof (multibyte_EncodeRune _ _ _ Hm) as (He & _ & _).
    assert (Hskip : (length (skipn size (c :: r)) <= n)%nat).
    { rewrite length_skipn. simpl in Hlen |- *. lia. }
    destruct fuel as [|fuel]; [lia|].
    destruct ((rune =? 8232)%N || (rune =? 8233)%N) eqn:E2.
    + rewrite <- !app_assoc, string_body_u202.
      2:{ apply orb_true_iff in E2 as [E2|E2]; apply N.eqb_eq in E2; tauto. }
      rewrite (IH _ k fuel rest); [|done|done|].
      * rewrite He. by rewrite take_drop.
      * rewrite !length_app in Hfuel. simpl in Hfuel. lia.
    + rewrite <- app_assoc.
      pose proof (multibyte_head _ _ _ Hm) as (c' & r' & Hcr & Hc').
      rewrite Hcr. cbn [app]. rewrite string_body_high.
      2:{ apply N.ltb_ge. lia. }
      change (c' :: r' ++ ?x) with ((c' :: r') ++ x). rewrite <- Hcr.
      rewrite (multibyte_DecodeRune _ _ _ _ Hm).
      rewrite drop_app_length' by done.
      rewrite (IH _ k fuel rest); [|done|done|].
      * rewrite He. by rewrite take_drop.
      * rewrite length_app in Hfuel. lia.
Qed.
(** ** A stored form parses back *)

Lemma skip_ws_app (ws x : list ascii) :
  all_ws ws -> Json.skip_ws (ws ++ x) = Json.skip_ws x.
Proof. induction 1 as [|c ws Hc _ IH]; [done|]. simpl. by rewrite Hc. Qed.

Lemma all_ws_newline (d : nat) : all_ws (Json.newline "  " d).
Proof.
  unfold Json.newline. constructor; [done|].
  induction d as [|d IH]; [constructor|]. simpl. by repeat constructor.
Qed.

Lemma skip_ws_appendString (s : string) (x : list ascii) :
  Json.skip_ws (Json.appendString s ++ x) = Json.appendString s ++ x.
Proof. reflexivity. Qed.

Lemma valid_bytes (s : string) :
  Utf8.Valid s = true -> Utf8.valid_fuel (String.length s) (to_bytes s) = true.
Proof. done. Qed.

Lemma string_body_appendString (s : string) (fuel : nat) (rest : list ascii) :
  Utf8.Valid s = true ->
  (length (Json.quote_go (String.length s) (to_bytes s)) < fuel)%nat ->
  Json.string_body fuel
    (Json.quote_go (String.length s) (to_bytes s) ++ Byte.quote :: rest)
  = Some (to_bytes s, rest).
Proof.
  intros Hv Hf. apply (string_body_quote_go _ _ (String.length s)); try done.
  by rewrite length_to_bytes.
Qed.

Lemma appendString_cons (s : string) (rest : list ascii) :
  Json.appendString s ++ rest
  = Byte.quote :: Json.quote_go (String.length s) (to_bytes s)
                  ++ Byte.quote :: rest.
Proof. unfold Json.appendString. cbn [app]. by rewrite <- app_assoc. Qed.

Lemma parse_value_Str (fuel : nat) (depth : N) (ws : list ascii) (s : string)
    (rest : list ascii) :
  all_ws ws -> Utf8.Valid s = true ->
  Json.parse_value (S fuel) depth (ws ++ Json.appendString s ++ rest)
  = Some (Json.Str s, rest).
Proof.
  intros Hws Hv. cbn [Json.parse_value].
  rewrite skip_ws_app by done. rewrite appendString_cons.
  cbn [Json.skip_ws]. change (Json.is_ws Byte.quote) with false. cbv iota.
  change (Byte.val Byte.quote =? 34)%N with true. cbv iota.
  rewrite string_body_appendString; [|done|].
  - by rewrite string_of_list_ascii_of_string.
  - rewrite length_app. simpl. lia.
Qed.

(** One member of an object, the value [v] being what [X] parses to. *)
Lemma parse_member (fuel : nat) (depth : N) (ws : list ascii) (k : string)
    (X tail : list ascii) (v : Json.value) :
  all_ws ws -> Utf8.Valid k = true ->
  Json.parse_value fuel depth (" "%char :: X ++ tail) = Some (v, tail) ->
  Json.parse_members (S fuel) depth
    (ws ++ Json.appendString k ++ ":"%char :: " "%char :: X ++ tail)
  = match Json.skip_ws tail with
    | c :: r =>
      if (Byte.val c =? 44)%N then
        match Json.parse_members fuel depth r with
        | Some (l, r') => Some ((k, v) :: l, r')
        | None => None
        end
      else if (Byte.val c =? 125)%N then Some ([(k, v)], r)
      else None
    | [] => None
    end.
Proof.
  intros Hws Hk Hv. cbn [Json.parse_members].
  rewrite skip_ws_app by done. rewrite appendString_cons.
  cbn [Json.skip_ws]. change (Json.is_ws Byte.quote) with false. cbv iota.
  change (Byte.val Byte.quote =? 34)%N with true. cbv iota.
  rewrite string_body_appendString; [|done|rewrite length_app; simpl; lia].
  cbn [Json.skip_ws]. change (Json.is_ws ":") with false. cbv iota.
  change (Byte.val ":" =? 58)%N with true. cbv iota.
  rewrite Hv. by rewrite string_of_list_ascii_of_string.
Qed.

Lemma skip_ws_lit (c : ascii) (x : list ascii) :
  Json.is_ws c = false -> Json.skip_ws (c :: x) = c :: x.
Proof. intros H. simpl. by rewrite H. Qed.

Lemma skip_ws_newline (d : nat) (x : list ascii) :
  Json.skip_ws (Json.newline "  " d ++ x) = Json.skip_ws x.
Proof. apply skip_ws_app, all_ws_newline. Qed.

Lemma utf8_Field_spec (fld : Field) :
  utf8_Field fld = true ->
  Utf8.Valid (Label fld) = true /\ Utf8.Valid (Type_ fld) = true
  /\ Utf8.Valid (Name fld) = true /\ Utf8.Valid (Placeholder fld) = true.
Proof.
  unfold utf8_Field. intros H.
  apply andb_true_iff in H as [H H4]. apply andb_true_iff in H as [H H3].
  apply andb_true_iff in H as [H1 H2]. done.
Qed.

Lemma parse_Field_value (fuel : nat) (depth : N) (d : nat) (ws : list ascii)
    (fld : Field) (rest : list ascii) :
  all_ws ws -> utf8_Field fld = true -> (depth + 1 <= 10000)%N ->
  Json.parse_value (6 + fuel) depth
    (ws ++ Json.indented "  " d (Field_value fld) ++ rest)
  = Some (Field_value fld, rest).
Proof.
  intros Hws Hu Hd. apply utf8_Field_spec in Hu as (H1 & H2 & H3 & H4).
  change (6 + fuel)%nat with (S (5 + fuel)). cbn [Json.parse_value].
  rewrite skip_ws_app by done.
  unfold Field_value. cbn [Json.indented Json.compact].
  flatten_bytes.
  rewrite skip_ws_lit by reflexivity.
  change (Byte.val "{" =? 34)%N with false.
  change (Byte.val "{" =? 91)%N with false.
  change (Byte.val "{" =? 123)%N with true. cbv iota.
  destruct (Json.maxNestingDepth <? depth + 1)%N eqn:E;
    [apply N.ltb_lt in E; unfold Json.maxNestingDepth in E; lia|].
  rewrite skip_ws_newline, appendString_cons, skip_ws_lit by reflexivity.
  change (Byte.val Byte.quote =? 125)%N with false. cbv iota.
  rewrite <- appendString_cons.
  change (5 + fuel)%nat with (S (4 + fuel)).
  rewrite (parse_member _ _ _ "label" (Json.appendString (Label fld)) _
             (Json.Str (Label fld)));
    [|apply all_ws_newline|reflexivity
     |by apply (parse_value_Str _ _ [" "%char]); [repeat constructor|]].
  rewrite skip_ws_lit by reflexivity.
  change (Byte.val "," =? 44)%N with true. cbv iota.
  change (4 + fuel)%nat with (S (3 + fuel)).
  rewrite (parse_member _ _ _ "type" (Json.appendString (Type_ fld)) _
             (Json.Str (Type_ fld)));
    [|apply all_ws_newline|reflexivity
     |by apply (parse_value_Str _ _ [" "%char]); [repeat constructor|]].
  rewrite skip_ws_lit by reflexivity.
  change (Byte.val "," =? 44)%N with true. cbv iota.
  change (3 + fuel)%nat with (S (2 + fuel)).
  rewrite (parse_member _ _ _ "name" (Json.appendString (Name fld)) _
             (Json.Str (Name fld)));
    [|apply all_ws_newline|reflexivity
     |by apply (parse_value_Str _ _ [" "%char]); [repeat constructor|]].
  rewrite skip_ws_lit by reflexivity.
  change (Byte.val "," =? 44)%N with true. cbv iota.
  change (2 + fuel)%nat with (S (1 + fuel)).
  rewrite (parse_member _ _ _ "placeholder"
             (Json.appendString (Placeholder fld)) _
             (Json.Str (Placeholder fld)));
    [|apply all_ws_newline|reflexivity
     |by apply (parse_value_Str _ _ [" "%char]); [repeat constructor|]].
  rewrite skip_ws_newline, skip_ws_lit by reflexivity.
  change (Byte.val "}" =? 44)%N with false.
  change (Byte.val "}" =? 125)%N with true. cbv iota.
  reflexivity.
Qed.

Lemma more_elems_fix (d : nat) (xs : list Json.value) :
  (fix more (l : list Json.value) : list ascii :=
     match l with
     | [] => []
     | y :: ys =>
       to_bytes "," ++ Json.newline "  " d ++ Json.indented "  " d y ++ more ys
     end) xs
  = more_elems d xs.
Proof.
  induction xs as [|y ys IH]; [reflexivity|].
  cbn [more_elems]. rewrite <- IH. reflexivity.
Qed.

Lemma indented_Array (d : nat) (x : Json.value) (xs : list Json.value) :
  Json.indented "  " d (Json.Array (x :: xs))
  = to_bytes "[" ++ Json.newline "  " (S d) ++ Json.indented "  " (S d) x
    ++ more_elems (S d) xs ++ Json.newline "  " d ++ to_bytes "]".
Proof. cbn [Json.indented]. by rewrite more_elems_fix. Qed.

Lemma more_elems_length (d : nat) (l : list Json.value) :
  (length l <= length (more_elems d l))%nat.
Proof.
  induction l as [|y ys IH]; [done|].
  cbn [more_elems]. rewrite !length_app. simpl. lia.
Qed.

Lemma parse_elems_Fields (xs : list Field) :
  forall (x : Field) (fuel : nat) (depth : N) (d d' : nat) (rest : list ascii),
    forallb utf8_Field (x :: xs) = true -> (depth + 1 <= 10000)%N ->
    Json.parse_elems (7 + length xs + fuel) depth
      (Json.newline "  " d ++ Json.indented "  " d (Field_value x)
       ++ more_elems d (map Field_value xs)
       ++ Json.newline "  " d' ++ "]"%char :: rest)
    = Some (map Field_value (x :: xs), rest).
Proof.
  induction xs as [|y ys IH]; intros x fuel depth d d' rest Hu Hd;
    cbn [forallb] in Hu; apply andb_true_iff in Hu as [Hx Hu].
  - change (7 + length [] + fuel)%nat with (S (6 + fuel)).
    cbn [Json.parse_elems].
    rewrite parse_Field_value; [|apply all_ws_newline|done|done].
    cbn [map more_elems app].
    rewrite skip_ws_newline, skip_ws_lit by reflexivity.
    change (Byte.val "]" =? 44)%N with false.
    change (Byte.val "]" =? 93)%N with true. cbv iota. reflexivity.
  - change (7 + length (y :: ys) + fuel)%nat
      with (S (6 + (1 + length ys + fuel))).
    cbn [Json.parse_elems].
    rewrite parse_Field_value; [|apply all_ws_newline|done|done].
    cbn [map more_elems]. flatten_bytes.
    rewrite skip_ws_lit by reflexivity.
    change (Byte.val "," =? 44)%N with true. cbv iota.
    replace (6 + (1 + length ys + fuel))%nat
      with (7 + length ys + fuel)%nat by lia.
    rewrite (IH y fuel depth d d' rest Hu Hd). reflexivity.
Qed.

Lemma skip_ws_Field_value (d : nat) (fld : Field) (rest : list ascii) :
  exists r,
    Json.skip_ws (Json.indented "  " d (Field_value fld) ++ rest)
    = "{"%char :: r.
Proof. eexists. reflexivity. Qed.

Lemma parse_Fields_value (fields : option (list Field)) (fuel : nat)
    (tail : list ascii) :
  utf8_Fields fields = true ->
  Json.parse_value (8 + Fields_count fields + fuel) 1
    (" "%char :: Json.indented "  " 1 (Fields_value fields) ++ tail)
  = Some (Fields_value fields, tail).
Proof.
  intros Hu. destruct fields as [[|x xs]|].
  - reflexivity.
  - cbn [Fields_value Fields_count map length].
    rewrite indented_Array.
    change (8 + S (length xs) + fuel)%nat with (S (8 + length xs + fuel)).
    cbn [Json.parse_value]. flatten_bytes.
    change (Json.skip_ws (" "%char :: "["%char :: ?x)) with ("["%char :: x).
    cbv iota.
    change (Byte.val "[" =? 34)%N with false.
    change (Byte.val "[" =? 91)%N with true. cbv iota.
    change (Json.maxNestingDepth <? 1 + 1)%N with false. cbv iota.
    rewrite skip_ws_newline.
    destruct (skip_ws_Field_value 2 x
                (more_elems 2 (map Field_value xs)
                 ++ Json.newline "  " 1 ++ "]"%char :: tail)) as [r0 Hr0].
    rewrite Hr0.
    change (Byte.val "{" =? 93)%N with false. cbv iota.
    pose proof (parse_elems_Fields xs x (1 + fuel) (1 + 1) 2 1 tail Hu) as H.
    replace (8 + length xs + fuel)%nat with (7 + length xs + (1 + fuel))%nat
      by lia.
    rewrite H by done. reflexivity.
  - reflexivity.
Qed.

Lemma parse_Form_value (form : Form) (fuel : nat) (rest : list ascii) :
  utf8_Form form = true ->
  Json.parse_value (11 + Fields_count (Fields form) + fuel) 0
    (Json.indented "  " 0 (Form_value form) ++ rest)
  = Some (Form_value form, rest).
Proof.
  intros Hu. unfold utf8_Form in Hu. apply andb_true_iff in Hu as [Ht Hf].
  fold (utf8_Fields (Fields form)) in Hf.
  unfold Form_value. fold (Fields_value (Fields form)).
  cbn [Json.indented]. cbn [Json.compact]. flatten_bytes.
  change (11 + Fields_count (Fields form) + fuel)%nat
    with (S (S (S (8 + Fields_count (Fields form) + fuel)))).
  cbn [Json.parse_value].
  rewrite skip_ws_lit by reflexivity.
  change (Byte.val "{" =? 34)%N with false.
  change (Byte.val "{" =? 91)%N with false.
  change (Byte.val "{" =? 123)%N with true. cbv iota.
  change (Json.maxNestingDepth <? 0 + 1)%N with false. cbv iota.
  rewrite skip_ws_newline, appendString_cons, skip_ws_lit by reflexivity.
  change (Byte.val Byte.quote =? 125)%N with false. cbv iota.
  rewrite <- appendString_cons.
  rewrite (parse_member _ _ _ "title" (Json.appendString (Title form)) _
             (Json.Str (Title form)));
    [|apply all_ws_newline|reflexivity|].
  2:{ change (S (8 + Fields_count (Fields form) + fuel))
        with (S (8 + Fields_count (Fields form) + fuel)).
      by apply (parse_value_Str _ _ [" "%char]); [repeat constructor|]. }
  rewrite skip_ws_lit by reflexivity.
  change (Byte.val "," =? 44)%N with true. cbv iota.
  rewrite (parse_member _ _ _ "fields"
             (Json.indented "  " 1 (Fields_value (Fields form))) _
             (Fields_value (Fields form)));
    [|apply all_ws_newline|reflexivity|by apply parse_Fields_value].
  rewrite skip_ws_newline, skip_ws_lit by reflexivity.
  change (Byte.val "}" =? 44)%N with false.
  change (Byte.val "}" =? 125)%N with true. cbv iota.
  reflexivity.
Qed.
Lemma Form_text_length (form : Form) :
  (Fields_count (Fields form) + 5
   <= length (Json.indented "  " 0 (Form_value form)))%nat.
Proof.
  unfold Form_value. fold (Fields_value (Fields form)).
  cbn [Json.indented]. rewrite !length_app.
  assert (Fields_count (Fields form)
          <= length (Json.indented "  " 1 (Fields_value (Fields form))))%nat.
  { destruct (Fields form) as [[|x xs]|]; cbn [Fields_count Fields_value map];
      [simpl; lia| |simpl; lia].
    rewrite indented_Array, !length_app.
    pose proof (more_elems_length 2 (map Field_value xs)) as H.
    rewrite length_map in H. simpl. lia. }
  simpl. lia.
Qed.

(** What [Encode] writes parses back to the value that was encoded. *)
Lemma parse_Encode (form : Form) :
  utf8_Form form = true -> Json.parse (Encode form) = Some (Form_value form).
Proof.
  intros Hu. unfold Json.parse, Encode.
  rewrite list_ascii_of_string_of_list_ascii.
  pose proof (Form_text_length form) as Hl.
  set (text := Json.indented "  " 0 (Form_value form)) in *.
  rewrite length_app. cbn [length].
  replace (2 * (length text + 1) + 2)%nat
    with (11 + Fields_count (Fields form)
          + (2 * (length text + 1) + 2 - 11 - Fields_count (Fields form)))%nat
    by lia.
  subst text. rewrite parse_Form_value by done. reflexivity.
Qed.

Lemma valueInterface_Fields (float64 : string -> option string)
    (l : list Field) :
  Json.valueInterface float64 (Json.Array (map Field_value l))
  = Some (Json.Array (map Field_interface l)).
Proof.
  cbn [Json.valueInterface].
  match goal with
  | |- option_map _ (?f _) = _ =>
    assert (H : f (map Field_value l) = Some (map Field_interface l))
  end.
  { induction l as [|x xs IH]; [reflexivity|].
    cbn [map]. rewrite IH. reflexivity. }
  rewrite H. reflexivity.
Qed.

Lemma valueInterface_Form (float64 : string -> option string) (form : Form) :
  Json.valueInterface float64 (Form_value form) = Some (Form_interface form).
Proof.
  unfold Form_value, Form_interface.
  destruct (Fields form) as [l|].
  - pose proof (valueInterface_Fields float64 l) as H.
    cbn [Json.valueInterface] in H |- *.
    match type of H with
    | option_map _ ?e = _ => destruct e as [l'|] eqn:E; [|discriminate H]
    end.
    injection H as <-. cbn [option_map]. reflexivity.
  - reflexivity.
Qed.




Lemma Unmarshal_map_Encode (float64 : string -> option string) (form : Form) :
  utf8_Form form = true ->
  Json.Unmarshal_map float64 (Encode form) = Some (Form_interface form).
Proof.
  intros Hu. unfold Json.Unmarshal_map. rewrite parse_Encode by done.
  change (Form_value form)
    with (Json.Object [("title", Json.Str (Title form));
                       ("fields", Fields_value (Fields form))]) at 1.
  cbv iota. apply valueInterface_Form.
Qed.
(** ** Reading a form *)

Lemma ReadFile_Ok (path : string) (s : Os.state) (data : string) (s' : Os.state) :
  Os.ReadFile path s = (inl data, s') ->
  Os.resolve (Os.files s) path = inl (Some (Os.File data))
  /\ s' = Os.mkState (Os.files s) (Os.log s ++ [Os.CReadFile path]).
Proof.
  unfold Os.ReadFile, Os.bind, Os.record, Os.get_files, Os.ret.
  cbn [Os.files Os.log].
  destruct (Os.resolve (Os.files s) path) as [[[|d]|]|e]; intros [= <- <-] || intros [=].
  done.
Qed.

Lemma resolve_File (fs : gmap string Os.node) (path data : string) :
  Os.resolve fs path = inl (Some (Os.File data)) ->
  fs !! path = Some (Os.File data).
Proof.
  unfold Os.resolve. destruct (Os.has_nul path); [done|].
  destruct (Os.walk fs (Os.ancestors path)); [done|].
  unfold Os.node_at. destruct (Os.always_dir path); [done|]. by intros [= ->].
Qed.


Lemma Parse_formHTML :
  Template.Parse formHTML
  = Some [Template.Text (to_bytes formHTML_head); Template.Field "data";
          Template.Text (to_bytes formHTML_mid1); Template.Field "url";
          Template.Text (to_bytes formHTML_mid2);
          Template.Field "clientXToken";
          Template.Text (to_bytes formHTML_tail)].
Proof. vm_compute. reflexivity. Qed.

Lemma Execute_formHTML (data url token : string) :
  Template.Execute
    [Template.Text (to_bytes formHTML_head); Template.Field "data";
     Template.Text (to_bytes formHTML_mid1); Template.Field "url";
     Template.Text (to_bytes formHTML_mid2); Template.Field "clientXToken";
     Template.Text (to_bytes formHTML_tail)]
    {[ "data" := data; "url" := url; "clientXToken" := token ]}
  = render_formHTML data url token.
Proof.
  unfold Template.Execute, render_formHTML. cbn [map Template.exec_node concat].
  rewrite lookup_insert_eq.
  rewrite lookup_insert_ne, lookup_insert_eq by done.
  rewrite !lookup_insert_ne, lookup_singleton_eq by done.
  cbn [default]. rewrite !of_bytes_app, !string_of_list_ascii_of_string.
  by rewrite append_nil_r.
Qed.

Lemma getForm_ok (appConf : APPConfig) (float64 : string -> option string)
    (ID : string) (s : Os.state) (resp : Response) (s' : Os.state) :
  getForm appConf float64 ID s = (resp, s') ->
  Status resp = StatusOK ->
  exists stored jsonData text t,
    Os.files s !! Filepath.Join ["form-build"; ID; "form.json"]
    = Some (Os.File stored)
    /\ Json.Unmarshal_map float64 stored = Some jsonData
    /\ Os.resolve (Os.files s) (Filepath.Join ["form-build"; "form.html"])
       = inl (Some (Os.File text))
    /\ Template.Parse text = Some t
    /\ Payload resp
       = HTML (Template.Execute t
                 {[ "data" := Json.Marshal jsonData;
                    "url" := (Domain appConf
                              ++ Filepath.Join ["/api/submit-form/"; ID])%string;
                    "clientXToken" := "x.y.z" ]})
    /\ Os.files s' = Os.files s.
Proof.
  unfold getForm. destruct (decide (ID = "")); [by intros [= <- <-]|].
  set (path := Filepath.Join ["form-build"; ID; "form.json"]).
  unfold fileExists, loadJSON, makeHTML. unfold Os.bind at 1 2.
  destruct (Os.Stat path s) as [st s1] eqn:Hst.
  assert (Hs1 : Os.files s1 = Os.files s).
  { unfold Os.Stat, Os.bind, Os.record, Os.get_files, Os.ret in Hst.
    by injection Hst as _ <-. }
  cbn [Os.ret]. destruct (negb (negb (Os.IsNotExist st))); [by intros [= <- <-]|].
  unfold Os.bind at 1 2.
  destruct (Os.ReadFile path s1) as [[data|e] s2] eqn:Hrd;
    [|by intros [= <- <-]].
  apply ReadFile_Ok in Hrd as [Hres ->]. rewrite Hs1 in Hres.
  cbn [Os.ret]. destruct (Json.Unmarshal_map float64 data) as [jsonData|] eqn:Hu;
    [|by intros [= <- <-]].
  unfold Os.bind at 1 2.
  match goal with
  | |- context [Os.ReadFile ?p ?st] =>
    destruct (Os.ReadFile p st) as [[text|e] s3] eqn:Hrt
  end; [|by intros [= <- <-]].
  apply ReadFile_Ok in Hrt as [Hrest ->]. cbn [Os.files] in Hrest.
  rewrite Hs1 in Hrest.
  destruct (Template.Parse text) as [t|] eqn:Hp; [|by intros [= <- <-]].
  cbn [Os.ret]. intros [= <- <-] _.
  exists data, jsonData, text, t. cbn [Payload Os.files].
  split; [by apply resolve_File|]. repeat split; done.
Qed.
(** ** Storing: identifier, directory and layout *)



(** The layout at an example. *)
Example pretty_sample_form :
  pretty_Form sample_form
  = String.concat lf
      ["{";
       ("  " ++ dq ++ "title" ++ dq ++ ": " ++ dq ++ "Contact" ++ dq ++ ",");
       ("  " ++ dq ++ "fields" ++ dq ++ ": [");
       "    {";
       ("      " ++ dq ++ "label" ++ dq ++ ": " ++ dq ++ "Your name" ++ dq ++ ",");
       ("      " ++ dq ++ "type" ++ dq ++ ": " ++ dq ++ "text" ++ dq ++ ",");
       ("      " ++ dq ++ "name" ++ dq ++ ": " ++ dq ++ "name" ++ dq ++ ",");
       ("      " ++ dq ++ "placeholder" ++ dq ++ ": " ++ dq ++ "Jane Doe" ++ dq);
       "    },";
       "    {";
       ("      " ++ dq ++ "label" ++ dq ++ ": " ++ dq ++ "E-mail" ++ dq ++ ",");
       ("      " ++ dq ++ "type" ++ dq ++ ": " ++ dq ++ "email" ++ dq ++ ",");
       ("      " ++ dq ++ "name" ++ dq ++ ": " ++ dq ++ "email" ++ dq ++ ",");
       ("      " ++ dq ++ "placeholder" ++ dq ++ ": " ++ dq ++ dq);
       "    }";
       "  ]";
       "}";
       ""]%string.
Proof. vm_compute. reflexivity. Qed.

(** The encoder escapes the characters that matter to HTML. *)
Example json_string_escapes :
  json_string "a<b"
  = (dq ++ "a" ++ String Byte.backslash "u003cb" ++ dq)%string.
Proof. vm_compute. reflexivity. Qed.
(** ** Reading back what was stored *)

Lemma Stat_file_of (id : string) (s : Os.state) :
  plain_name id = true ->
  Os.files s !! "form-build" = Some Os.Dir ->
  Os.files s !! dir_of id = Some Os.Dir ->
  Os.resolve (Os.files s) (file_of id) = inl (Os.files s !! file_of id).
Proof.
  intros Hp H1 H2. unfold Os.resolve.
  rewrite (has_nul_file_of id Hp), (ancestors_file_of id Hp).
  cbn [Os.walk]. unfold Os.node_at.
  change (Os.always_dir "form-build") with false. cbv iota.
  rewrite (always_dir_dir_of id Hp), (always_dir_file_of id Hp), H1, H2.
  reflexivity.
Qed.




(** ** Rendering *)

Lemma resolve_template (fs : gmap string Os.node) (text : string) :
  fs !! "form-build/form.html" = Some (Os.File formHTML) ->
  Os.resolve fs (Filepath.Join ["form-build"; "form.html"])
  = inl (Some (Os.File text)) ->
  text = formHTML.
Proof.
  intros Hf Hr. apply resolve_File in Hr.
  change (Filepath.Join ["form-build"; "form.html"])
    with "form-build/form.html" in Hr.
  congruence.
Qed.

(** C8, as stated, fails, because [filepath.Join] cleans the path.  For
    the FormID [.] the handler reads [form-build/form.json] and the
    address it substitutes ends in [/api/submit-form], not in
    [/api/submit-form/.].  And a FormID that ends in a separator finds the
    form that [save-form] stored and loses the separator in the address. *)
Lemma dot_FormID_submit_url :
  (let '(resp, _) :=
     getForm (APPConfig_ defaultConfig) Some "." stray_document in
   Status resp = StatusOK
   /\ Payload resp
      = HTML (render_formHTML "{}" "http://0.0.0.0:8080/api/submit-form"
                "x.y.z")
   /\ Payload resp
      <> HTML (render_formHTML "{}" "http://0.0.0.0:8080/api/submit-form/."
                 "x.y.z"))
  /\ (let s := snd (saveForm 1700000000000 (Some sample_form) deployed) in
      let '(resp, _) :=
        getForm (APPConfig_ defaultConfig) Some "1700000000000/" s in
      let data := Json.Marshal (Form_interface sample_form) in
      Status resp = StatusOK
      /\ Payload resp
         = HTML (render_formHTML data
                   "http://0.0.0.0:8080/api/submit-form/1700000000000" "x.y.z")
      /\ Payload resp
         <> HTML (render_formHTML data
                    "http://0.0.0.0:8080/api/submit-form/1700000000000/"
                    "x.y.z")).
Proof.
  split.
  - vm_compute. split; [reflexivity|]. split; [reflexivity|].
    intros H. apply (f_equal body_length) in H.
    vm_compute in H. discriminate H.
  - vm_compute. split; [reflexivity|]. split; [reflexivity|].
    intros H. apply (f_equal body_length) in H.
    vm_compute in H. discriminate H.
Qed.

(** C8, amended.  With [form.html] as the template, the page of every
    [get-form] request that is answered 200 is the template with its three
    actions replaced: by the JSON text that [json.Marshal] makes of the
    decoded stored document, by the configured domain followed by the
    cleaned join of [/api/submit-form/] and the FormID, which is
    [/api/submit-form/<FormID>] whenever the FormID is a plain name, and
    by the constant [x.y.z].  The files are left as they were. *)
Theorem rendered_form_substitutions
    (appConf : APPConfig) (float64 : string -> option string) (ID : string)
    (s : Os.state) (resp : Response) (s' : Os.state) :
  Os.files s !! "form-build/form.html" = Some (Os.File formHTML) ->
  getForm appConf float64 ID s = (resp, s') ->
  Status resp = StatusOK ->
  exists stored jsonData,
    Os.files s !! Filepath.Join ["form-build"; ID; "form.json"]
    = Some (Os.File stored)
    /\ Json.Unmarshal_map float64 stored = Some jsonData
    /\ Payload resp
       = HTML (formHTML_head ++ Json.Marshal jsonData ++ formHTML_mid1
               ++ (Domain appConf ++ Filepath.Join ["/api/submit-form/"; ID])
               ++ formHTML_mid2 ++ "x.y.z" ++ formHTML_tail)%string
    /\ formHTML
       = (formHTML_head ++ "{{ .data }}" ++ formHTML_mid1 ++ "{{ .url }}"
          ++ formHTML_mid2 ++ "{{ .clientXToken }}" ++ formHTML_tail)%string
    /\ (plain_name ID = true ->
        Filepath.Join ["/api/submit-form/"; ID]
        = ("/api/submit-form/" ++ ID)%string)
    /\ Os.files s' = Os.files s.
Proof.
  intros Htpl Hget Hok.
  destruct (getForm_ok appConf float64 ID s resp s' Hget Hok)
    as (stored & jsonData & text & t & H1 & H2 & H3 & H4 & H5 & H6).
  apply (resolve_template _ _ Htpl) in H3. subst text.
  rewrite Parse_formHTML in H4. injection H4 as <-.
  rewrite Execute_formHTML in H5.
  exists stored, jsonData. repeat split; try done.
  intros Hp. by apply Join_submit_url.
Qed.

Lemma rendered_form_substitutions_witness :
  let s := snd (saveForm 1700000000000 (Some sample_form) deployed) in
  let r := getForm (APPConfig_ defaultConfig) Some "1700000000000" s in
  exists stored jsonData,
    Os.files s !! Filepath.Join ["form-build"; "1700000000000"; "form.json"]
    = Some (Os.File stored)
    /\ Json.Unmarshal_map Some stored = Some jsonData
    /\ Payload (fst r)
       = HTML (formHTML_head ++ Json.Marshal jsonData ++ formHTML_mid1
               ++ (Domain (APPConfig_ defaultConfig)
                   ++ Filepath.Join ["/api/submit-form/"; "1700000000000"])
               ++ formHTML_mid2 ++ "x.y.z" ++ formHTML_tail)%string
    /\ formHTML
       = (formHTML_head ++ "{{ .data }}" ++ formHTML_mid1 ++ "{{ .url }}"
          ++ formHTML_mid2 ++ "{{ .clientXToken }}" ++ formHTML_tail)%string
    /\ (plain_name "1700000000000" = true ->
        Filepath.Join ["/api/submit-form/"; "1700000000000"]
        = ("/api/submit-form/" ++ "1700000000000")%string)
    /\ Os.files (snd r) = Os.files s.
Proof.
  cbn zeta.
  apply (rendered_form_substitutions (APPConfig_ defaultConfig) Some
           "1700000000000"
           (snd (saveForm 1700000000000 (Some sample_form) deployed))).
  - vm_compute. reflexivity.
  - vm_compute. reflexivity.
  - vm_compute. reflexivity.
Defined.

(** The text handed to the page for a stored form: compact, keys in
    increasing order. *)
Example data_of_sample_form :
  Json.Marshal (Form_interface (mkForm "T" (Some [mkField "L" "text" "n" "p"])))
  = ("{" ++ dq ++ "fields" ++ dq ++ ":[{" ++ dq ++ "label" ++ dq ++ ":" ++ dq
     ++ "L" ++ dq ++ "," ++ dq ++ "name" ++ dq ++ ":" ++ dq ++ "n" ++ dq ++ ","
     ++ dq ++ "placeholder" ++ dq ++ ":" ++ dq ++ "p" ++ dq ++ "," ++ dq
     ++ "type" ++ dq ++ ":" ++ dq ++ "text" ++ dq ++ "}]," ++ dq ++ "title"
     ++ dq ++ ":" ++ dq ++ "T" ++ dq ++ "}")%string.
Proof. vm_compute. reflexivity. Qed.

(** ** The fuel of the decoder *)

(** The scanners and the parser are written by recursion on a bound; the
    bounds that [Json.parse] passes are never exhausted, so a document is
    rejected for what it is and not for its length. *)

Lemma DecodeRune_size (c : ascii) (r : list ascii) :
  (1 <= snd (Utf8.DecodeRune (c :: r)))%nat.
Proof.
  unfold Utf8.DecodeRune.
  repeat (match goal with
          | |- context [if ?b then _ else _] => destruct b
          | |- context [match ?x with _ => _ end] => destruct x
          end; cbn [snd]; try lia).
Qed.

Lemma skip_ws_length (s : list ascii) :
  (length (Json.skip_ws s) <= length s)%nat.
Proof.
  induction s as [|c r IH]; cbn [Json.skip_ws]; [done|].
  destruct (Json.is_ws c); cbn [length] in *; lia.
Qed.

Lemma strip_prefix_length (p s r : list ascii) :
  Json.strip_prefix p s = Some r -> (length r <= length s)%nat.
Proof.
  revert s. induction p as [|a p IH]; intros [|b s] H; cbn in H;
    try discriminate H; try (injection H as <-; done).
  destruct (Byte.eqb a b); [|discriminate H].
  apply IH in H. cbn [length]. lia.
Qed.

Lemma hex4_length (s r : list ascii) (n : N) :
  Json.hex4 s = Some (n, r) -> (length r <= length s)%nat.
Proof.
  unfold Json.hex4. intros H.
  destruct s as [|a [|b [|c [|d r']]]]; try discriminate H.
  destruct (Byte.hex_val a), (Byte.hex_val b), (Byte.hex_val c),
    (Byte.hex_val d); try discriminate H.
  injection H as _ <-. cbn [length]. lia.
Qed.

Lemma unicode_escape_length (rr : N) (rest : list ascii) :
  (length (snd (Json.unicode_escape rr rest)) <= length rest)%nat.
Proof.
  unfold Json.unicode_escape.
  destruct (Utf8.is_surrogate rr); [|done].
  destruct rest as [|a [|b rest']]; [done|done|].
  destruct (Byte.eqb a Byte.backslash && Byte.eqb b "u"%char); [|done].
  destruct (Json.hex4 rest') as [[rr1 rest'']|] eqn:Hh; [|done].
  apply hex4_length in Hh.
  destruct (Json.utf16_pair rr rr1); cbn [snd length]; lia.
Qed.

Lemma string_body_fuel (s : list ascii) (f : nat) :
  (length s <= f)%nat ->
  Json.string_body f s = Json.string_body (length s) s.
Proof.
  remember (length s) as n eqn:Hn.
  assert (Hle : (length s <= n)%nat) by lia. clear Hn.
  revert s f Hle. induction n as [|n IH]; intros s f Hle Hf.
  - destruct s; [|cbn in Hle; lia]. by destruct f.
  - destruct f as [|f]; [lia|].
    destruct s as [|c r]; [done|]. cbn [length] in Hle.
    cbn [Json.string_body].
    assert (Hrec : forall x, (length x <= length r)%nat ->
              Json.string_body f x = Json.string_body n x).
    { intros x Hx. rewrite (IH x f) by lia. done. }
    destruct (Byte.val c =? 34)%N; [done|].
    destruct (Byte.val c =? 92)%N.
    { destruct r as [|e r']; [done|]. cbn [length] in Hrec.
      rewrite (Hrec r') by lia.
      destruct (Json.hex4 r') as [[rr r'']|] eqn:Hh; [|done].
      apply hex4_length in Hh.
      pose proof (unicode_escape_length rr r'') as Hu.
      destruct (Json.unicode_escape rr r'') as [rune r3]. cbn [snd] in Hu.
      rewrite (Hrec r3) by lia. done. }
    destruct (Byte.val c <? 32)%N; [done|].
    destruct (Byte.val c <? 128)%N; [by rewrite (Hrec r)|].
    pose proof (DecodeRune_size c r) as Hd.
    destruct (Utf8.DecodeRune (c :: r)) as [rune size]. cbn [snd] in Hd.
    rewrite (Hrec (skipn size (c :: r))); [done|].
    rewrite length_skipn. cbn [length]. lia.
Qed.

Lemma string_body_rest (f : nat) (s t r : list ascii) :
  Json.string_body f s = Some (t, r) -> (length r <= length s)%nat.
Proof.
  revert s t r. induction f as [|f IH]; intros s t r H; [discriminate H|].
  destruct s as [|c s']; [discriminate H|]. cbn [Json.string_body] in H.
  cbn [length].
  destruct (Byte.val c =? 34)%N; [injection H as _ <-; lia|].
  destruct (Byte.val c =? 92)%N.
  { destruct s' as [|e r']; [discriminate H|]. cbn [length].
    assert (Hs : forall x, match Json.string_body f r' with
                           | Some (t0, r'') => Some (x :: t0, r'')
                           | None => None
                           end = Some (t, r) -> (length r <= length r')%nat).
    { intros x Hx. destruct (Json.string_body f r') as [[t0 r'']|] eqn:Hb;
        [|discriminate Hx].
      injection Hx as _ <-. by apply IH in Hb. }
    repeat (match type of H with
            | (if ?b then _ else _) = _ =>
              destruct b; [apply Hs in H; lia|]
            end).
    destruct (Byte.val e =? 117)%N; [|discriminate H].
    destruct (Json.hex4 r') as [[rr r'']|] eqn:Hh; [|discriminate H].
    apply hex4_length in Hh.
    pose proof (unicode_escape_length rr r'') as Hu.
    destruct (Json.unicode_escape rr r'') as [rune r3]. cbn [snd] in Hu.
    destruct (Json.string_body f r3) as [[t0 r4]|] eqn:Hb; [|discriminate H].
    injection H as _ <-. apply IH in Hb. lia. }
  destruct (Byte.val c <? 32)%N; [discriminate H|].
  destruct (Byte.val c <? 128)%N.
  { destruct (Json.string_body f s') as [[t0 r']|] eqn:Hb; [|discriminate H].
    injection H as _ <-. apply IH in Hb. lia. }
  destruct (Utf8.DecodeRune (c :: s')) as [rune size].
  destruct (Json.string_body f (skipn size (c :: s'))) as [[t0 r']|] eqn:Hb;
    [|discriminate H].
  injection H as _ <-. apply IH in Hb. rewrite length_skipn in Hb.
  cbn [length] in Hb. lia.
Qed.

Lemma digits_rest (s : list ascii) :
  (length (snd (Json.digits s)) <= length s)%nat.
Proof.
  induction s as [|c r IH]; [done|]. cbn [Json.digits].
  destruct (Byte.is_digit c); [|done].
  destruct (Json.digits r) as [d r']. cbn [snd length] in *. lia.
Qed.

Lemma digits1_rest (s d r : list ascii) :
  Json.digits1 s = Some (d, r) -> (length r <= length s)%nat.
Proof.
  unfold Json.digits1. intros H. pose proof (digits_rest s) as Hd.
  destruct (Json.digits s) as [[|c d'] r']; [discriminate H|].
  injection H as _ <-. done.
Qed.

Lemma number_rest (s lit r : list ascii) :
  Json.number s = Some (lit, r) -> (length r <= length s)%nat.
Proof.
  unfold Json.number. intros H.
  set (p := match s with
            | c :: r0 => if Byte.eqb c "-"%char then ([c], r0) else ([], s)
            | [] => ([], s)
            end) in H.
  assert (Hp : (length (snd p) <= length s)%nat).
  { subst p. destruct s as [|c r0]; [done|].
    destruct (Byte.eqb c "-"%char); cbn [snd length]; lia. }
  destruct p as [sign s1]. cbn [snd] in Hp.
  destruct s1 as [|c r0]; [discriminate H|]. cbn zeta in H.
  set (ip := if Byte.eqb c "0"%char then Some ([c], r0)
             else if Byte.is_digit c then Json.digits1 (c :: r0) else None) in H.
  assert (Hip : forall i s2, ip = Some (i, s2) ->
                  (length s2 <= length (c :: r0))%nat).
  { subst ip. intros i s2 Hi. destruct (Byte.eqb c "0"%char).
    - injection Hi as _ <-. cbn [length]. lia.
    - destruct (Byte.is_digit c); [|discriminate Hi].
      by apply digits1_rest in Hi. }
  destruct ip as [[i s2]|]; [|discriminate H].
  specialize (Hip i s2 eq_refl).
  set (fp := match s2 with
             | c2 :: r2 =>
               if Byte.eqb c2 "."%char then
                 match Json.digits1 r2 with
                 | Some (d, r3) => Some (c2 :: d, r3)
                 | None => None
                 end
               else Some ([], s2)
             | [] => Some ([], s2)
             end) in H.
  assert (Hfp : forall f s3, fp = Some (f, s3) -> (length s3 <= length s2)%nat).
  { subst fp. intros f s3 Hf. destruct s2 as [|c2 r2].
    - injection Hf as _ <-. done.
    - destruct (Byte.eqb c2 "."%char).
      + destruct (Json.digits1 r2) as [[d r3]|] eqn:Hd; [|discriminate Hf].
        injection Hf as _ <-. apply digits1_rest in Hd. cbn [length]. lia.
      + injection Hf as _ <-. done. }
  destruct fp as [[f s3]|]; [|discriminate H].
  specialize (Hfp f s3 eq_refl).
  destruct s3 as [|c3 r3]; [injection H as _ <-; cbn [length] in *; lia|].
  destruct (Byte.eqb c3 "e"%char || Byte.eqb c3 "E"%char);
    [|injection H as _ <-; cbn [length] in *; lia].
  set (ep := match r3 with
             | c4 :: r4 =>
               if Byte.eqb c4 "+"%char || Byte.eqb c4 "-"%char
               then ([c4], r4) else ([], r3)
             | [] => ([], r3)
             end) in H.
  assert (Hep : (length (snd ep) <= length r3)%nat).
  { subst ep. destruct r3 as [|c4 r4]; [done|].
    destruct (Byte.eqb c4 "+"%char || Byte.eqb c4 "-"%char);
      cbn [snd length]; lia. }
  destruct ep as [esign r4]. cbn [snd] in Hep.
  destruct (Json.digits1 r4) as [[d r5]|] eqn:Hd; [|discriminate H].
  injection H as _ <-. apply digits1_rest in Hd. cbn [length] in *. lia.
Qed.

Lemma parse_rest (f : nat) :
  forall (d : N) (s : list ascii),
    (forall v r, Json.parse_value f d s = Some (v, r) ->
                 (length r <= length s)%nat)
    /\ (forall l r, Json.parse_elems f d s = Some (l, r) ->
                    (length r <= length s)%nat)
    /\ (forall l r, Json.parse_members f d s = Some (l, r) ->
                    (length r <= length s)%nat).
Proof.
  induction f as [|f IH]; intros d s; [repeat split; intros; discriminate|].
  assert (Hv : forall d s v r, Json.parse_value f d s = Some (v, r) ->
                 (length r <= length s)%nat)
    by (intros d0 s0; apply (IH d0 s0)).
  assert (He : forall d s l r, Json.parse_elems f d s = Some (l, r) ->
                 (length r <= length s)%nat)
    by (intros d0 s0; apply (IH d0 s0)).
  assert (Hm : forall d s l r, Json.parse_members f d s = Some (l, r) ->
                 (length r <= length s)%nat)
    by (intros d0 s0; apply (IH d0 s0)).
  clear IH. split; [|split].
  - intros v r H. cbn [Json.parse_value] in H.
    pose proof (skip_ws_length s) as Hw.
    destruct (Json.skip_ws s) as [|c s']; [discriminate H|].
    cbn [length] in Hw. cbn zeta in H.
    destruct (Byte.val c =? 34)%N.
    { destruct (Json.string_body (length s') s') as [[t r']|] eqn:Hb;
        [|discriminate H].
      injection H as _ <-. apply string_body_rest in Hb. lia. }
    destruct (Byte.val c =? 91)%N.
    { destruct (Json.maxNestingDepth <? d + 1)%N; [discriminate H|].
      pose proof (skip_ws_length s') as Hw'.
      destruct (Json.skip_ws s') as [|c' r']; [discriminate H|].
      cbn [length] in Hw'.
      destruct (Byte.val c' =? 93)%N; [injection H as _ <-; lia|].
      destruct (Json.parse_elems f (d + 1) s') as [[l r'']|] eqn:Hp;
        [|discriminate H].
      injection H as _ <-. apply He in Hp. lia. }
    destruct (Byte.val c =? 123)%N.
    { destruct (Json.maxNestingDepth <? d + 1)%N; [discriminate H|].
      pose proof (skip_ws_length s') as Hw'.
      destruct (Json.skip_ws s') as [|c' r']; [discriminate H|].
      cbn [length] in Hw'.
      destruct (Byte.val c' =? 125)%N; [injection H as _ <-; lia|].
      destruct (Json.parse_members f (d + 1) s') as [[l r'']|] eqn:Hp;
        [|discriminate H].
      injection H as _ <-. apply Hm in Hp. lia. }
    assert (Hlit : forall (x : Json.value) p,
              option_map (pair x) (Json.strip_prefix p (c :: s')) = Some (v, r)
              -> (length r <= length s)%nat).
    { intros x p Hx.
      destruct (Json.strip_prefix p (c :: s')) as [r0|] eqn:Hp;
        [|discriminate Hx].
      injection Hx as _ <-. apply strip_prefix_length in Hp.
      cbn [length] in Hp. lia. }
    destruct (Byte.val c =? 116)%N; [by apply Hlit in H|].
    destruct (Byte.val c =? 102)%N; [by apply Hlit in H|].
    destruct (Byte.val c =? 110)%N; [by apply Hlit in H|].
    destruct (Json.number (c :: s')) as [[lit r']|] eqn:Hn; [|discriminate H].
    injection H as _ <-. apply number_rest in Hn. cbn [length] in Hn. lia.
  - intros l r H. cbn [Json.parse_elems] in H.
    destruct (Json.parse_value f d s) as [[v r0]|] eqn:Hp; [|discriminate H].
    apply Hv in Hp. pose proof (skip_ws_length r0) as Hw.
    destruct (Json.skip_ws r0) as [|c r']; [discriminate H|].
    cbn [length] in Hw.
    destruct (Byte.val c =? 44)%N.
    { destruct (Json.parse_elems f d r') as [[l' r'']|] eqn:Hq;
        [|discriminate H].
      injection H as _ <-. apply He in Hq. lia. }
    destruct (Byte.val c =? 93)%N; [|discriminate H].
    injection H as _ <-. lia.
  - intros l r H. cbn [Json.parse_members] in H.
    pose proof (skip_ws_length s) as Hw.
    destruct (Json.skip_ws s) as [|q r0]; [discriminate H|].
    cbn [length] in Hw.
    destruct (Byte.val q =? 34)%N; [|discriminate H].
    destruct (Json.string_body (length r0) r0) as [[k r1]|] eqn:Hb;
      [|discriminate H].
    apply string_body_rest in Hb. pose proof (skip_ws_length r1) as Hw1.
    destruct (Json.skip_ws r1) as [|colon r2]; [discriminate H|].
    cbn [length] in Hw1.
    destruct (Byte.val colon =? 58)%N; [|discriminate H].
    destruct (Json.parse_value f d r2) as [[v r3]|] eqn:Hp; [|discriminate H].
    apply Hv in Hp. pose proof (skip_ws_length r3) as Hw3.
    destruct (Json.skip_ws r3) as [|c r4]; [discriminate H|].
    cbn [length] in Hw3.
    destruct (Byte.val c =? 44)%N.
    { destruct (Json.parse_members f d r4) as [[l' r5]|] eqn:Hq;
        [|discriminate H].
      injection H as _ <-. apply Hm in Hq. lia. }
    destruct (Byte.val c =? 125)%N; [|discriminate H].
    injection H as _ <-. lia.
Qed.

(** Above twice the length of the input the bound plays no part. *)
Lemma parse_fuel (n : nat) :
  forall (s : list ascii) (d : N) (f1 f2 : nat),
    (length s <= n)%nat ->
    ((2 * n + 1 <= f1)%nat -> (2 * n + 1 <= f2)%nat ->
     Json.parse_value f1 d s = Json.parse_value f2 d s)
    /\ ((2 * n + 2 <= f1)%nat -> (2 * n + 2 <= f2)%nat ->
        Json.parse_elems f1 d s = Json.parse_elems f2 d s)
    /\ ((2 * n + 2 <= f1)%nat -> (2 * n + 2 <= f2)%nat ->
        Json.parse_members f1 d s = Json.parse_members f2 d s).
Proof.
  induction n as [|n IH].
  - intros [|c r] d f1 f2 Hs; [|cbn in Hs; lia].
    repeat split; intros H1 H2;
      destruct f1 as [|[|f1]], f2 as [|[|f2]]; try lia; reflexivity.
  - assert (Hv : forall s d f1 f2, (length s <= n)%nat ->
               (2 * n + 1 <= f1)%nat -> (2 * n + 1 <= f2)%nat ->
               Json.parse_value f1 d s = Json.parse_value f2 d s)
      by (intros s d f1 f2 Hs; apply (IH s d f1 f2 Hs)).
    assert (He : forall s d f1 f2, (length s <= n)%nat ->
               (2 * n + 2 <= f1)%nat -> (2 * n + 2 <= f2)%nat ->
               Json.parse_elems f1 d s = Json.parse_elems f2 d s)
      by (intros s d f1 f2 Hs; apply (IH s d f1 f2 Hs)).
    assert (Hm : forall s d f1 f2, (length s <= n)%nat ->
               (2 * n + 2 <= f1)%nat -> (2 * n + 2 <= f2)%nat ->
               Json.parse_members f1 d s = Json.parse_members f2 d s)
      by (intros s d f1 f2 Hs; apply (IH s d f1 f2 Hs)).
    clear IH.
    assert (Hv' : forall s d f1 f2, (length s <= S n)%nat ->
               (2 * S n + 1 <= f1)%nat -> (2 * S n + 1 <= f2)%nat ->
               Json.parse_value f1 d s = Json.parse_value f2 d s).
    { intros s d f1 f2 Hs H1 H2.
      destruct f1 as [|f1]; [lia|]. destruct f2 as [|f2]; [lia|].
      cbn [Json.parse_value].
      pose proof (skip_ws_length s) as Hw.
      destruct (Json.skip_ws s) as [|c s']; [done|].
      cbn [length] in Hw. cbn zeta.
      destruct (Byte.val c =? 34)%N; [done|].
      destruct (Byte.val c =? 91)%N.
      { rewrite (He s' (d + 1)%N f1 f2) by lia. done. }
      destruct (Byte.val c =? 123)%N.
      { rewrite (Hm s' (d + 1)%N f1 f2) by lia. done. }
      done. }
    intros s d f1 f2 Hs. split; [by apply Hv'|]. split.
    + intros H1 H2.
      destruct f1 as [|f1]; [lia|]. destruct f2 as [|f2]; [lia|].
      cbn [Json.parse_elems].
      rewrite (Hv' s d f1 f2) by lia.
      destruct (Json.parse_value f2 d s) as [[v r0]|] eqn:Hp; [|done].
      apply parse_rest in Hp. pose proof (skip_ws_length r0) as Hw.
      destruct (Json.skip_ws r0) as [|c r']; [done|].
      cbn [length] in Hw.
      rewrite (He r' d f1 f2) by lia. done.
    + intros H1 H2.
      destruct f1 as [|f1]; [lia|]. destruct f2 as [|f2]; [lia|].
      cbn [Json.parse_members].
      pose proof (skip_ws_length s) as Hw.
      destruct (Json.skip_ws s) as [|q r0]; [done|].
      cbn [length] in Hw.
      destruct (Byte.val q =? 34)%N; [|done].
      destruct (Json.string_body (length r0) r0) as [[k r1]|] eqn:Hb; [|done].
      apply string_body_rest in Hb. pose proof (skip_ws_length r1) as Hw1.
      destruct (Json.skip_ws r1) as [|colon r2]; [done|].
      cbn [length] in Hw1.
      destruct (Byte.val colon =? 58)%N; [|done].
      rewrite (Hv r2 d f1 f2) by lia.
      destruct (Json.parse_value f2 d r2) as [[v r3]|] eqn:Hp; [|done].
      apply parse_rest in Hp. pose proof (skip_ws_length r3) as Hw3.
      destruct (Json.skip_ws r3) as [|c r4]; [done|].
      cbn [length] in Hw3.
      rewrite (Hm r4 d f1 f2) by lia. done.
Qed.

(** [Json.parse] gives the result of every larger bound. *)
Lemma parse_any_fuel (text : string) (f : nat) :
  (2 * String.length text + 2 <= f)%nat ->
  Json.parse text
  = match Json.parse_value f 0 (to_bytes text) with
    | Some (v, r) => match Json.skip_ws r with [] => Some v | _ => None end
    | None => None
    end.
Proof.
  intros Hf. unfold Json.parse.
  rewrite (proj1 (parse_fuel (length (to_bytes text)) (to_bytes text) 0%N
                    (2 * length (to_bytes text) + 2) f (le_n _)));
    [done|lia|].
  rewrite length_to_bytes. lia.
Qed.

(** ** The rules of the tags, both ways *)

Lemma fieldTypeValidator_accepts (t : string) :
  In t fieldTypes -> fieldTypeValidator t = true.
Proof.
  intros H. cbn in H.
  repeat (destruct H as [<-|H]; [vm_compute; reflexivity|]). destruct H.
Qed.

Lemma check_passes ns name tags :
  Validator.first_failure tags = None -> Validator.check ns name tags = [].
Proof. unfold Validator.check. by intros ->. Qed.

Lemma alphanum_accepts (s : string) :
  s <> "" -> ~ Exists (fun c => Validator.is_alnum c = false) (to_bytes s) ->
  Validator.alphanum s = true.
Proof.
  intros Hne Hex. unfold Validator.alphanum.
  apply andb_true_iff. split.
  - apply negb_true_iff, bool_decide_eq_false. done.
  - apply forallb_forall. intros c Hc.
    destruct (Validator.is_alnum c) eqn:Hal; [done|].
    exfalso. apply Hex, Exists_exists. exists c. split; [|done].
    by apply list_elem_of_In.
Qed.

Lemma required_accepts (s : string) : s <> "" -> Validator.required s = true.
Proof.
  intros H. unfold Validator.required.
  by apply negb_true_iff, bool_decide_eq_false.
Qed.

Lemma validate_Field_valid ns f :
  ~ invalid_Field f -> Validator.validate_Field ns f = [].
Proof.
  intros H. unfold invalid_Field in H.
  assert (HL : Label f <> "") by tauto.
  assert (HN : Name f <> "") by tauto.
  assert (HA : ~ Exists (fun c => Validator.is_alnum c = false)
                   (to_bytes (Name f))) by tauto.
  assert (HT : fieldTypeValidator (Type_ f) = true).
  { destruct (fieldTypeValidator (Type_ f)) eqn:Hv; [done|].
    exfalso. apply H. right. left. intros Hin.
    apply fieldTypeValidator_accepts in Hin. congruence. }
  assert (HT' : Type_ f <> "").
  { intros Heq. rewrite Heq in HT. vm_compute in HT. discriminate HT. }
  unfold Validator.validate_Field.
  rewrite !check_passes; [done| | |]; cbn [Validator.first_failure].
  - by rewrite (required_accepts _ HN), (alphanum_accepts _ HN HA).
  - by rewrite (required_accepts _ HT'), HT.
  - by rewrite (required_accepts _ HL).
Qed.

Lemma dive_valid i l :
  ~ Exists invalid_Field l -> Validator.dive i l = [].
Proof.
  revert i. induction l as [|f l IH]; intros i H; [done|].
  cbn [Validator.dive]. rewrite validate_Field_valid, IH; [done| |].
  - intros He. apply H. by apply Exists_cons_tl.
  - intros He. apply H. by apply Exists_cons_hd.
Qed.

Lemma Struct_valid form :
  ~ invalid_Form form -> Validator.Struct form = [].
Proof.
  intros H. unfold invalid_Form in H. unfold Validator.Struct.
  assert (HT : Title form <> "") by tauto.
  rewrite check_passes
    by (cbn [Validator.first_failure]; by rewrite (required_accepts _ HT)).
  destruct (Fields form) as [l|] eqn:Hf; [|tauto].
  apply dive_valid. intros He. apply H. right. right. by exists l.
Qed.

(** X1. [save-form] validates by the tags exactly: the validator has no
    complaint if and only if the title is not empty, the list of fields
    is not nil and every field has a label that is not empty, a type of
    the enumeration and a name that is not empty and made of letters and
    digits only.  The handler never answers 400 to a form that
    passes. *)
Theorem validation_is_exactly_the_tag_rules (form : Form) :
  (Validate form = None <-> ~ invalid_Form form)
  /\ (Validate form = None ->
      forall now s, Status (fst (saveForm now (Some form) s))
                    <> StatusBadRequest).
Proof.
  split; [split|].
  - intros Hv Hinv. apply Struct_invalid in Hinv. unfold Validate in Hv.
    destruct (Validator.Struct form); [done|discriminate Hv].
  - intros H. unfold Validate. by rewrite (Struct_valid form H).
  - intros Hv now s. unfold saveForm. rewrite Hv.
    unfold Os.bind.
    destruct (Os.MkdirAll _ s) as [[e|] s1]; [done|].
    destruct (Os.Create _ s1) as [[file|e] s2]; [|done].
    destruct (Os.Write file _ s2) as [[e|] s3]; done.
Qed.

(** ** [save-form] on every state *)

(** What the handler does with a form that passes validation, by what
    stands at the three paths it uses. *)
Lemma saveForm_run (now : Z) (form : Form) (s : Os.state) :
  Validate form = None ->
  let dir := dir_of (fmt_d now) in
  let file := file_of (fmt_d now) in
  let fs := Os.files s in
  let fs1 := match fs !! "form-build" with
             | None => <[ "form-build" := Os.Dir ]> fs
             | _ => fs
             end in
  let fs2 := match fs !! dir with
             | None => <[ dir := Os.Dir ]> fs1
             | _ => fs1
             end in
  saveForm now (Some form) s
  = match fs !! "form-build", fs !! dir, fs !! file with
    | Some (Os.File _), _, _ =>
      (message StatusInternalServerError "Failed to create directory",
       Os.mkState fs (Os.log s ++ [Os.CMkdirAll dir]))
    | _, Some (Os.File _), _ =>
      (message StatusInternalServerError "Failed to create directory",
       Os.mkState fs1 (Os.log s ++ [Os.CMkdirAll dir]))
    | _, _, Some Os.Dir =>
      (message StatusInternalServerError "Failed to create file",
       Os.mkState fs2 (Os.log s ++ [Os.CMkdirAll dir; Os.CCreate file]))
    | _, _, _ =>
      (mkResponse StatusOK
         (JSONMap {[ "message" := "Form saved successfully";
                     "path" := file ]}),
       Os.mkState (<[ file := Os.File (Encode form) ]> fs2)
         (Os.log s ++ [Os.CMkdirAll dir; Os.CCreate file;
                       Os.CWrite file (Encode form)]))
    end.
Proof.
  intros Hv dir file fs fs1 fs2.
  pose proof (fmt_d_plain now) as Hp.
  unfold saveForm. rewrite Hv.
  rewrite (Join_dir _ Hp), (Join_file _ Hp). fold dir file.
  unfold Os.MkdirAll, Os.Create, Os.Write, Os.open_write, Os.bind, Os.record,
    Os.get_files, Os.put_files, Os.ret, Os.resolve.
  cbn [Os.files Os.log].
  subst fs1 fs2 fs dir file.
  rewrite (has_nul_dir_of _ Hp), (ancestors_dir_of _ Hp).
  rewrite (has_nul_file_of _ Hp), (ancestors_file_of _ Hp).
  cbn [app Os.mkdir_chain Os.walk].
  unfold Os.node_at.
  change (Os.always_dir "form-build") with false. cbv iota.
  rewrite !(always_dir_dir_of _ Hp), !(always_dir_file_of _ Hp).
  pose proof (dir_of_neq_root (fmt_d now)) as H1.
  pose proof (file_of_neq_root (fmt_d now)) as H2.
  pose proof (dir_of_neq_file_of (fmt_d now)) as H3.
  set (dir := dir_of (fmt_d now)) in *.
  set (file := file_of (fmt_d now)) in *.
  destruct s as [fs lg]. cbn [Os.files Os.log].
  clearbody dir file. clear Hp.
  destruct (fs !! "form-build") as [[|?]|] eqn:Ha;
    destruct (fs !! dir) as [[|?]|] eqn:Hb;
    destruct (fs !! file) as [[|?]|] eqn:Hc;
    cbn [Os.files Os.log]; simplify_map_eq; cbn [Os.files Os.log];
    simplify_map_eq; cbn [Os.files Os.log];
    rewrite <- ?app_assoc; cbn [app]; rewrite ?insert_insert_eq;
    reflexivity.
Qed.

Lemma dir_of_inj (a b : string) : dir_of a = dir_of b -> a = b.
Proof. unfold dir_of. intros H. by simplify_eq. Qed.

Lemma append_inj_l (p a b : string) : (p ++ a = p ++ b)%string -> a = b.
Proof.
  induction p as [|c p IH]; cbn; [done|]. intros [= H]. by apply IH.
Qed.

Lemma append_inj_r (a b q : string) : (a ++ q = b ++ q)%string -> a = b.
Proof.
  intros H.
  assert (Hlen : String.length a = String.length b).
  { apply (f_equal String.length) in H. rewrite !append_length in H. lia. }
  revert b H Hlen. induction a as [|c a IH]; intros [|d b] H Hlen;
    try discriminate Hlen; [done|].
  cbn in H. injection H as -> H. f_equal. apply IH; [done|].
  cbn in Hlen. lia.
Qed.

Lemma file_of_inj (a b : string) : file_of a = file_of b -> a = b.
Proof.
  unfold file_of. intros H. apply append_inj_l in H.
  by apply append_inj_r in H.
Qed.

Lemma dir_of_neq_file_of_any (a b : string) :
  plain_name a = true -> dir_of a <> file_of b.
Proof.
  intros Hp H. unfold dir_of, file_of in H. apply append_inj_l in H.
  apply plain_name_spec in Hp as (_ & _ & _ & Hn).
  unfold no_sep in Hn. rewrite H, to_bytes_app in Hn.
  apply Forall_app in Hn as [_ Hn]. cbn in Hn.
  apply Forall_cons in Hn as [[Hn _] _]. done.
Qed.

Lemma fmt_d_inj (a b : Z) : fmt_d a = fmt_d b -> a = b.
Proof.
  intros H. pose proof (fmt_d_decimal a) as Ha.
  rewrite H, fmt_d_decimal in Ha. by injection Ha.
Qed.

(** X2. [save-form] answers 200 exactly when the form passes validation
    and nothing stands in the way: no regular file at [form-build] or at
    the directory of the FormID, and no directory at the path of the
    document.  Directories that are missing are no obstacle, and neither
    is a document that is there already. *)
Theorem save_form_succeeds_exactly_when (now : Z) (form : Form) (s : Os.state) :
  Status (fst (saveForm now (Some form) s)) = StatusOK
  <-> (Validate form = None
       /\ (forall d, Os.files s !! "form-build" <> Some (Os.File d))
       /\ (forall d, Os.files s !! dir_of (fmt_d now) <> Some (Os.File d))
       /\ Os.files s !! file_of (fmt_d now) <> Some Os.Dir).
Proof.
  destruct (Validate form) as [err|] eqn:Hv.
  { unfold saveForm. rewrite Hv. cbn. split; [discriminate|].
    intros (H & _). discriminate H. }
  rewrite (saveForm_run now form s Hv). cbn zeta.
  destruct (Os.files s !! "form-build") as [[|a]|];
    destruct (Os.files s !! dir_of (fmt_d now)) as [[|b]|];
    destruct (Os.files s !! file_of (fmt_d now)) as [[|c]|];
    cbn [fst Status message]; split;
    try (intros H; discriminate H);
    try (intros _; repeat split; congruence).
  all: intros (_ & H1 & H2 & H3); exfalso.
  all: first [ by apply H3 | by eapply H1 | by eapply H2 ].
Qed.

(** X3. When a regular file stands where [save-form] needs a directory,
    the answer is 500 with [Failed to create directory]; when a
    directory stands where the document goes, it is 500 with
    [Failed to create file].  In both cases no document is created or
    changed, and [os.Create] is not called in the first. *)
Theorem blocked_save_form (now : Z) (form : Form) (s : Os.state) :
  Validate form = None ->
  let dir := dir_of (fmt_d now) in
  let file := file_of (fmt_d now) in
  let r := saveForm now (Some form) s in
  ((exists d, Os.files s !! "form-build" = Some (Os.File d)
              \/ Os.files s !! dir = Some (Os.File d)) ->
   fst r = message StatusInternalServerError "Failed to create directory"
   /\ Os.files (snd r) !! file = Os.files s !! file
   /\ Os.log (snd r) = Os.log s ++ [Os.CMkdirAll dir])
  /\ ((forall d, Os.files s !! "form-build" <> Some (Os.File d)) ->
      (forall d, Os.files s !! dir <> Some (Os.File d)) ->
      Os.files s !! file = Some Os.Dir ->
      fst r = message StatusInternalServerError "Failed to create file"
      /\ Os.files (snd r) !! file = Some Os.Dir
      /\ Os.log (snd r) = Os.log s ++ [Os.CMkdirAll dir; Os.CCreate file]).
Proof.
  intros Hv dir file r. subst r. rewrite (saveForm_run now form s Hv).
  cbn zeta. fold dir file.
  pose proof (file_of_neq_root (fmt_d now)) as H2.
  pose proof (dir_of_neq_file_of (fmt_d now)) as H3.
  fold dir file in H2, H3.
  split.
  - intros (d & Hd).
    destruct (Os.files s !! "form-build") as [[|?]|] eqn:Ha;
      destruct (Os.files s !! dir) as [[|?]|] eqn:Hb;
      try (destruct Hd as [Hd|Hd]; discriminate Hd);
      cbn [fst snd Os.files Os.log]; repeat split;
      by rewrite ?lookup_insert_ne.
  - intros Ha Hb Hc. rewrite Hc.
    destruct (Os.files s !! "form-build") as [[|d]|] eqn:Ea;
      try (by destruct (Ha d));
      destruct (Os.files s !! dir) as [[|d]|] eqn:Eb;
      try (by destruct (Hb d));
      cbn [fst snd Os.files Os.log]; repeat split;
      by rewrite ?lookup_insert_ne.
Qed.

Lemma blocked_save_form_witness :
  let s := Os.mkState {[ "form-build" := Os.File "x" ]} [] in
  let r := saveForm 1700000000000 (Some sample_form) s in
  fst r = message StatusInternalServerError "Failed to create directory"
  /\ Os.files (snd r) !! "form-build/1700000000000/form.json" = None
  /\ Os.log (snd r) = [Os.CMkdirAll "form-build/1700000000000"].
Proof.
  cbn zeta.
  refine (proj1 (blocked_save_form 1700000000000 sample_form
                   (Os.mkState {[ "form-build" := Os.File "x" ]} []) _) _).
  - vm_compute. reflexivity.
  - exists "x". left. vm_compute. reflexivity.
Defined.

Lemma saveForm_frame
    (now : Z) (bound : option Form) (s : Os.state) (p : string) :
  p <> "form-build" -> p <> dir_of (fmt_d now) -> p <> file_of (fmt_d now) ->
  Os.files (snd (saveForm now bound s)) !! p = Os.files s !! p.
Proof.
  intros H1 H2 H3. destruct bound as [form|]; [|done].
  destruct (Validate form) as [err|] eqn:Hv.
  { unfold saveForm. by rewrite Hv. }
  rewrite (saveForm_run now form s Hv). cbn zeta.
  destruct (Os.files s !! "form-build") as [[|?]|];
    destruct (Os.files s !! dir_of (fmt_d now)) as [[|?]|];
    destruct (Os.files s !! file_of (fmt_d now)) as [[|?]|];
    cbn [snd Os.files]; by rewrite ?lookup_insert_ne.
Qed.

(** X4. Whatever the request and the answer, [save-form] leaves every
    path alone but [form-build], the directory of its FormID and the
    document in it: the template and the forms and answers stored under
    other FormIDs are as before. *)
Theorem save_form_touches_only_its_paths
    (now : Z) (bound : option Form) (s : Os.state) (p : string) :
  p <> "form-build" -> p <> dir_of (fmt_d now) -> p <> file_of (fmt_d now) ->
  Os.files (snd (saveForm now bound s)) !! p = Os.files s !! p.
Proof. apply saveForm_frame. Qed.

Lemma save_form_touches_only_its_paths_witness :
  Os.files (snd (saveForm 1700000000000 (Some sample_form) deployed))
    !! "form-build/form.html"
  = Os.files deployed !! "form-build/form.html".
Proof.
  apply (save_form_touches_only_its_paths 1700000000000 (Some sample_form)
           deployed "form-build/form.html"); discriminate.
Defined.

(** X5. The FormID is the clock.  Two forms saved in the same
    millisecond share it: the second save is answered 200 and its
    document replaces the first.  Two forms saved at different
    milliseconds have different FormIDs, and the document of the first
    is still there after the second request, whatever its answer. *)
Theorem second_save_form
    (now1 now2 : Z) (form1 form2 : Form) (s s1 : Os.state) (resp1 : Response) :
  saveForm now1 (Some form1) s = (resp1, s1) ->
  Status resp1 = StatusOK ->
  let r2 := saveForm now2 (Some form2) s1 in
  (now1 = now2 -> Validate form2 = None ->
   Status (fst r2) = StatusOK
   /\ Os.files (snd r2) !! file_of (fmt_d now1)
      = Some (Os.File (pretty_Form form2))
   /\ Os.files (snd r2)
      = <[ file_of (fmt_d now1) := Os.File (pretty_Form form2) ]> (Os.files s1))
  /\ (now1 <> now2 ->
      fmt_d now1 <> fmt_d now2
      /\ Os.files (snd r2) !! file_of (fmt_d now1)
         = Some (Os.File (pretty_Form form1))).
Proof.
  intros Hsave Hok r2. subst r2.
  destruct (saveForm_ok now1 form1 s resp1 s1 Hsave Hok)
    as (_ & _ & Ha & Hb & Hc & _).
  rewrite Encode_pretty in Hc.
  split.
  - intros <- Hv. rewrite (saveForm_run now1 form2 s1 Hv). cbn zeta.
    rewrite Ha, Hb, Hc, Encode_pretty. cbn [fst snd Os.files Status].
    split; [done|]. split; [|done]. by rewrite lookup_insert_eq.
  - intros Hne.
    assert (Hid : fmt_d now1 <> fmt_d now2)
      by (intros H; by apply fmt_d_inj in H).
    split; [done|].
    rewrite saveForm_frame; [done| | |].
    + intros H. by apply (file_of_neq_root (fmt_d now1)).
    + intros H. symmetry in H.
      by apply (dir_of_neq_file_of_any _ _ (fmt_d_plain now2)) in H.
    + intros H. by apply file_of_inj in H.
Qed.

Lemma second_save_form_witness :
  let other := mkForm "Other" (Some []) in
  let s1 := snd (saveForm 1700000000000 (Some sample_form) Os.empty) in
  let r2 := saveForm 1700000000000 (Some other) s1 in
  Status (fst r2) = StatusOK
  /\ Os.files (snd r2) !! file_of (fmt_d 1700000000000)
     = Some (Os.File (pretty_Form other))
  /\ Os.files (snd r2)
     = <[ file_of (fmt_d 1700000000000) := Os.File (pretty_Form other) ]>
         (Os.files s1).
Proof.
  cbn zeta.
  refine (proj1 (second_save_form 1700000000000 1700000000000 sample_form
                   (mkForm "Other" (Some [])) Os.empty
                   (snd (saveForm 1700000000000 (Some sample_form) Os.empty))
                   (fst (saveForm 1700000000000 (Some sample_form) Os.empty))
                   _ _) _ _).
  - apply surjective_pairing.
  - vm_compute. reflexivity.
  - reflexivity.
  - vm_compute. reflexivity.
Defined.

(** ** [get-form] on every state *)

(** The handler, by what the file system holds of the document and of the
    template. *)
Lemma getForm_run (appConf : APPConfig) (float64 : string -> option string)
    (ID : string) (s : Os.state) :
  ID <> "" ->
  let path := Filepath.Join ["form-build"; ID; "form.json"] in
  let tpl := Filepath.Join ["form-build"; "form.html"] in
  let after calls := Os.mkState (Os.files s) (Os.log s ++ calls) in
  getForm appConf float64 ID s
  = match Os.resolve (Os.files s) path with
    | inr Os.ENOENT | inl None =>
      (mkResponse StatusNotFound (JSONMap failedNotfoundMsg),
       after [Os.CStat path])
    | inl (Some (Os.File stored)) =>
      match Json.Unmarshal_map float64 stored with
      | None => (internalServerError, after [Os.CStat path; Os.CReadFile path])
      | Some jsonData =>
        match Os.resolve (Os.files s) tpl with
        | inl (Some (Os.File text)) =>
          match Template.Parse text with
          | Some t =>
            (mkResponse StatusOK
               (HTML (Template.Execute t
                        {[ "data" := Json.Marshal jsonData;
                           "url" := (Domain appConf
                                     ++ Filepath.Join ["/api/submit-form/"; ID])
                                    %string;
                           "clientXToken" := "x.y.z" ]})),
             after [Os.CStat path; Os.CReadFile path; Os.CReadFile tpl])
          | None =>
            (internalServerError,
             after [Os.CStat path; Os.CReadFile path; Os.CReadFile tpl])
          end
        | _ =>
          (internalServerError,
           after [Os.CStat path; Os.CReadFile path; Os.CReadFile tpl])
        end
      end
    | _ => (internalServerError, after [Os.CStat path; Os.CReadFile path])
    end.
Proof.
  intros Hne path tpl after. unfold getForm.
  destruct (decide (ID = "")); [done|]. fold path tpl.
  subst after. clearbody path tpl. destruct s as [fs lg].
  run_os.
  destruct (Os.resolve fs path) as [[[|stored]|]|[]] eqn:Hr; run_os;
    rewrite ?Hr; run_os; try reflexivity.
  destruct (Json.Unmarshal_map float64 stored) as [jsonData|]; run_os;
    [|reflexivity].
  destruct (Os.resolve fs tpl) as [[[|text]|]|[]] eqn:Ht; run_os;
    rewrite ?Ht; run_os; try reflexivity.
  destruct (Template.Parse text); reflexivity.
Qed.

(** X6. [get-form] only looks: whatever the request, the files are as
    before, the handler calls nothing but [os.Stat] and [os.ReadFile], at
    most three times, and the status is one of 200, 400, 404 and 500. *)
Theorem get_form_only_reads (appConf : APPConfig)
    (float64 : string -> option string) (ID : string) (s : Os.state) :
  let r := getForm appConf float64 ID s in
  Os.files (snd r) = Os.files s
  /\ (exists calls,
        Os.log (snd r) = Os.log s ++ calls
        /\ forallb reads calls = true /\ (length calls <= 3)%nat)
  /\ In (Status (fst r))
        [StatusOK; StatusBadRequest; StatusNotFound;
         StatusInternalServerError].
Proof.
  cbn zeta. destruct (decide (ID = "")) as [->|Hne].
  { split; [done|]. split; [|cbn; tauto].
    exists []. cbn. rewrite app_nil_r. repeat split. lia. }
  rewrite (getForm_run appConf float64 ID s Hne). cbn zeta.
  destruct (Os.resolve (Os.files s) _) as [[[|stored]|]|[]];
    [| | | | | |];
    try (destruct (Json.Unmarshal_map float64 stored) as [jsonData|];
         [destruct (Os.resolve (Os.files s) _) as [[[|text]|]|[]];
          [|destruct (Template.Parse text)| | | | |]|]);
    cbn [fst snd Os.files Os.log Status internalServerError];
    (split; [done|]);
    (split; [eexists; split; [reflexivity|]; cbn; split; [reflexivity|lia]
            |cbn; tauto]).
Qed.

Lemma resolve_no_template (fs : gmap string Os.node) :
  fs !! "form-build/form.html" = None ->
  forall text,
    Os.resolve fs (Filepath.Join ["form-build"; "form.html"])
    <> inl (Some (Os.File text)).
Proof.
  intros Hnone text.
  change (Filepath.Join ["form-build"; "form.html"])
    with "form-build/form.html".
  unfold Os.resolve.
  change (Os.has_nul "form-build/form.html") with false.
  change (Os.ancestors "form-build/form.html") with ["form-build"].
  cbn [Os.walk]. unfold Os.node_at.
  change (Os.always_dir "form-build") with false.
  change (Os.always_dir "form-build/form.html") with false.
  cbv iota. rewrite Hnone.
  destruct (fs !! "form-build") as [[|?]|]; discriminate.
Qed.

(** X7. A document that is there but cannot be decoded into a map (it is
    malformed, or an array, a string, a number or a boolean), and any
    document when the template is missing, is answered 500.  The body of
    that answer is the JSON string [Internal Server Error], not an object
    with a message as in the other errors. *)
Theorem unusable_form_is_500 (appConf : APPConfig)
    (float64 : string -> option string) (ID : string) (s : Os.state)
    (stored : string) :
  ID <> "" ->
  Os.resolve (Os.files s) (Filepath.Join ["form-build"; ID; "form.json"])
  = inl (Some (Os.File stored)) ->
  Json.Unmarshal_map float64 stored = None
  \/ Os.files s !! "form-build/form.html" = None ->
  fst (getForm appConf float64 ID s)
  = mkResponse StatusInternalServerError (JSONString "Internal Server Error")
  /\ forall m, Payload (fst (getForm appConf float64 ID s)) <> JSONMap m.
Proof.
  intros Hne Hres Hbad.
  assert (H : fst (getForm appConf float64 ID s) = internalServerError).
  { rewrite (getForm_run appConf float64 ID s Hne). cbn zeta. rewrite Hres.
    destruct (Json.Unmarshal_map float64 stored) as [jsonData|] eqn:Hu;
      [|done].
    destruct Hbad as [Hbad|Hbad]; [discriminate Hbad|].
    pose proof (resolve_no_template _ Hbad) as Hno.
    destruct (Os.resolve (Os.files s)
                (Filepath.Join ["form-build"; "form.html"]))
      as [[[|text]|]|[]]; try done.
    exfalso. by apply (Hno text). }
  rewrite H. split; [done|]. intros m. discriminate.
Qed.

Lemma unusable_form_is_500_witness :
  let s := Os.mkState
             (list_to_map [("form-build", Os.Dir); ("form-build/7", Os.Dir);
                           ("form-build/7/form.json", Os.File "[]");
                           ("form-build/form.html", Os.File formHTML)]) [] in
  fst (getForm (APPConfig_ defaultConfig) Some "7" s)
  = mkResponse StatusInternalServerError (JSONString "Internal Server Error")
  /\ forall m,
       Payload (fst (getForm (APPConfig_ defaultConfig) Some "7" s))
       <> JSONMap m.
Proof.
  cbn zeta.
  apply (unusable_form_is_500 (APPConfig_ defaultConfig) Some "7"
           (Os.mkState
              (list_to_map [("form-build", Os.Dir); ("form-build/7", Os.Dir);
                            ("form-build/7/form.json", Os.File "[]");
                            ("form-build/form.html", Os.File formHTML)]) [])
           "[]").
  - discriminate.
  - vm_compute. reflexivity.
  - left. vm_compute. reflexivity.
Defined.

(** *** The text handed to the page *)

Lemma compact_Field_bytes (f : Field) :
  to_bytes (compact_Field f) = Json.compact (Field_interface f).
Proof.
  unfold compact_Field, compact_member, Field_interface, dq.
  rewrite !to_bytes_app, !to_bytes_json_string.
  cbn [Json.compact].
  change (Json.appendString "label") with (to_bytes (String Byte.quote "label" ++ String Byte.quote "")%string).
  change (Json.appendString "type") with (to_bytes (String Byte.quote "type" ++ String Byte.quote "")%string).
  change (Json.appendString "name") with (to_bytes (String Byte.quote "name" ++ String Byte.quote "")%string).
  change (Json.appendString "placeholder") with (to_bytes (String Byte.quote "placeholder" ++ String Byte.quote "")%string).
  cbn [list_ascii_of_string String.append].
  flatten_app. reflexivity.
Qed.

Lemma more_compact_fields (l : list Field) :
  (fix more (l : list Json.value) : list ascii :=
     match l with
     | [] => []
     | y :: ys => to_bytes "," ++ Json.compact y ++ more ys
     end) (map Field_interface l)
  = concat (map (fun f => to_bytes ("," ++ compact_Field f)%string) l).
Proof.
  induction l as [|f l IH]; [reflexivity|].
  cbn [map concat]. rewrite IH. clear IH.
  rewrite !to_bytes_app, compact_Field_bytes.
  cbn [list_ascii_of_string]. flatten_app. reflexivity.
Qed.

Lemma concat_compact_fields (f : Field) (l : list Field) :
  to_bytes (String.concat "," (compact_Field f :: map compact_Field l))
  = to_bytes (compact_Field f)
    ++ concat (map (fun f => to_bytes ("," ++ compact_Field f)%string) l).
Proof.
  revert f. induction l as [|g l IH]; intros f.
  - cbn [map String.concat concat]. by rewrite app_nil_r.
  - cbn [map concat].
    rewrite String_concat_cons, !to_bytes_app, IH, ?to_bytes_app.
    flatten_app. reflexivity.
Qed.

Lemma Marshal_Form_interface (form : Form) :
  Json.Marshal (Form_interface form) = compact_Form form.
Proof.
  unfold Json.Marshal.
  rewrite <- (string_of_list_ascii_of_string (compact_Form form)). f_equal.
  unfold compact_Form, compact_member, Form_interface, dq.
  rewrite !to_bytes_app, !to_bytes_json_string.
  cbn [Json.compact].
  change (Json.appendString "title") with (to_bytes (String Byte.quote "title" ++ String Byte.quote "")%string).
  change (Json.appendString "fields") with (to_bytes (String Byte.quote "fields" ++ String Byte.quote "")%string).
  destruct (Fields form) as [[|f l]|]; cbn [compact_Fields map].
  - cbn [Json.compact String.concat list_ascii_of_string String.append].
    flatten_app. reflexivity.
  - cbn [Json.compact].
    rewrite (more_compact_fields l).
    rewrite !to_bytes_app.
    rewrite (concat_compact_fields f l), compact_Field_bytes.
    cbn [list_ascii_of_string String.append].
    flatten_app. reflexivity.
  - cbn [Json.compact list_ascii_of_string String.append].
    flatten_app. reflexivity.
Qed.

Lemma fmt_d_chars (n : Z) :
  Forall (fun c => Byte.is_digit c = true \/ c = "-"%char) (to_bytes (fmt_d n)).
Proof.
  unfold fmt_d. destruct n as [|p|p]; simpl.
  - repeat constructor.
  - pose proof (uint_digits (Pos.to_uint p)) as Hd.
    destruct (Pos.to_uint p); simpl in *;
      [repeat constructor|..]; (eapply Forall_impl; [exact Hd|]); cbv beta; tauto.
  - constructor; [by right|].
    pose proof (uint_digits (Pos.to_uint p)) as Hd.
    destruct (Pos.to_uint p); simpl in *;
      [repeat constructor|..]; (eapply Forall_impl; [exact Hd|]); cbv beta; tauto.
Qed.

Lemma template_is_no_form (n : Z) :
  "form-build/form.html" <> dir_of (fmt_d n)
  /\ "form-build/form.html" <> file_of (fmt_d n).
Proof.
  split.
  - intros H. change "form-build/form.html" with (dir_of "form.html") in H.
    apply dir_of_inj in H. pose proof (fmt_d_chars n) as Hc.
    rewrite <- H in Hc. apply Forall_cons in Hc as [[Hc|Hc] _]; discriminate Hc.
  - intros H. unfold file_of in H.
    change "form-build/form.html" with ("form-build/" ++ "form.html")%string in H.
    apply append_inj_l in H. apply (f_equal String.length) in H.
    rewrite append_length in H. cbn in H. lia.
Qed.

Lemma resolve_template_file (fs : gmap string Os.node) (text : string) :
  fs !! "form-build" = Some Os.Dir ->
  fs !! "form-build/form.html" = Some (Os.File text) ->
  Os.resolve fs (Filepath.Join ["form-build"; "form.html"])
  = inl (Some (Os.File text)).
Proof.
  intros Ha Ht.
  change (Filepath.Join ["form-build"; "form.html"])
    with "form-build/form.html".
  unfold Os.resolve.
  change (Os.has_nul "form-build/form.html") with false.
  change (Os.ancestors "form-build/form.html") with ["form-build"].
  cbn [Os.walk]. unfold Os.node_at.
  change (Os.always_dir "form-build") with false.
  change (Os.always_dir "form-build/form.html") with false.
  cbv iota. by rewrite Ha, Ht.
Qed.

(** X8. A form that was stored can be shown at once.  After [save-form]
    has answered 200, [get-form] with the FormID it made answers 200 with
    the template in which the data is the form written compactly, the
    keys of every object in increasing order ([fields] before [title];
    [label], [name], [placeholder], [type]), the address is the domain
    followed by [/api/submit-form/] and the FormID, and the token is
    [x.y.z]. *)
Theorem saved_form_is_rendered (appConf : APPConfig)
    (float64 : string -> option string) (now : Z) (form : Form)
    (s : Os.state) (resp : Response) (s' : Os.state) :
  utf8_Form form = true ->
  Os.files s !! "form-build/form.html" = Some (Os.File formHTML) ->
  saveForm now (Some form) s = (resp, s') ->
  Status resp = StatusOK ->
  fst (getForm appConf float64 (fmt_d now) s')
  = mkResponse StatusOK
      (HTML (render_formHTML (compact_Form form)
               (Domain appConf ++ "/api/submit-form/" ++ fmt_d now)
               "x.y.z")).
Proof.
  intros Hu Htpl Hsave Hok.
  destruct (saveForm_ok now form s resp s' Hsave Hok)
    as (_ & _ & Ha & Hb & Hc & Hframe & _).
  pose proof (fmt_d_plain now) as Hp.
  destruct (template_is_no_form now) as [Hn1 Hn2].
  assert (Hne : fmt_d now <> "")
    by (apply plain_name_spec in Hp; tauto).
  rewrite (getForm_run appConf float64 (fmt_d now) s' Hne). cbn zeta.
  rewrite (Join_form_json _ Hp), (Stat_file_of _ s' Hp Ha Hb), Hc.
  rewrite (Unmarshal_map_Encode float64 form Hu).
  rewrite (resolve_template_file (Os.files s') formHTML Ha);
    [|rewrite Hframe; done].
  rewrite Parse_formHTML, Execute_formHTML, Marshal_Form_interface.
  rewrite (Join_submit_url _ Hp). reflexivity.
Qed.

Lemma saved_form_is_rendered_witness :
  let s' := snd (saveForm 1700000000000 (Some sample_form) deployed) in
  fst (getForm (APPConfig_ defaultConfig) Some (fmt_d 1700000000000) s')
  = mkResponse StatusOK
      (HTML (render_formHTML (compact_Form sample_form)
               (Domain (APPConfig_ defaultConfig) ++ "/api/submit-form/"
                ++ fmt_d 1700000000000)
               "x.y.z")).
Proof.
  cbn zeta.
  apply (saved_form_is_rendered (APPConfig_ defaultConfig) Some
           1700000000000 sample_form deployed
           (fst (saveForm 1700000000000 (Some sample_form) deployed))).
  - vm_compute. reflexivity.
  - vm_compute. reflexivity.
  - apply surjective_pairing.
  - vm_compute. reflexivity.
Defined.

(** ** [submit-form] on every state *)

Section PlainCsv.

Variable id : string.
Hypothesis Hplain : plain_name id = true.

Lemma plain_csv :
  Forall (fun s => plain_name s = true) ["form-build"; id; "form_answer.csv"].
Proof. repeat constructor; done. Qed.

Lemma Join_csv : Filepath.Join [(dir_of id); "form_answer.csv"] = csv_of id.
Proof.
  cbn [Filepath.Join].
  destruct (decide (dir_of id = "")) as [H|_]; [discriminate H|].
  replace (Filepath.join_sep "/" [(dir_of id); "form_answer.csv"])
    with (Filepath.join_sep "/" ["form-build"; id; "form_answer.csv"]).
  - by rewrite (Clean_join _ _ plain_csv).
  - reflexivity.
Qed.

Lemma ancestors_csv_of : Os.ancestors (csv_of id) = ["form-build"; dir_of id].
Proof.
  pose proof (all_plain _ plain_csv) as [Hsep _]. unfold Os.ancestors.
  change (csv_of id)
    with (Filepath.join_sep "/" ["form-build"; id; "form_answer.csv"]).
  rewrite split_join by done. reflexivity.
Qed.

Lemma has_nul_csv_of : Os.has_nul (csv_of id) = false.
Proof.
  pose proof (all_plain _ plain_csv) as [Hsep _].
  by apply (has_nul_join ["form-build"; id; "form_answer.csv"]).
Qed.

Lemma always_dir_csv_of : Os.always_dir (csv_of id) = false.
Proof. apply (always_dir_join _ _ plain_csv). Qed.

Lemma csv_of_neq_root : "form-build" <> csv_of id.
Proof. intros H. discriminate H. Qed.

Lemma dir_of_neq_csv_of : dir_of id <> csv_of id.
Proof.
  unfold dir_of, csv_of. intros H.
  simpl in H. repeat injection H as H.
  by apply append_cons_neq in H.
Qed.

End PlainCsv.

(** The handler on a bound map whose [formID] is a plain name, by what
    stands at the three paths it uses. *)
Lemma submitForm_run (ranges : Ranges) (formData : gmap string string)
    (s : Os.state) :
  let id := index formData "formID" in
  plain_name id = true ->
  let dir := dir_of id in
  let csv := csv_of id in
  let fs := Os.files s in
  let fs1 := match fs !! "form-build" with
             | None => <[ "form-build" := Os.Dir ]> fs
             | _ => fs
             end in
  let fs2 := match fs !! dir with
             | None => <[ dir := Os.Dir ]> fs1
             | _ => fs1
             end in
  let old := match fs !! csv with
             | Some (Os.File d) => d
             | _ => ""
             end in
  let rows :=
    ((if (String.length old =? 0)%nat
      then Csv.Write (range_headers ranges) else "")
     ++ Csv.Write (map (index (answer (range_sortByKey ranges) formData))
                       (range_record ranges)))%string in
  submitForm ranges (Some formData) s
  = match fs !! "form-build", fs !! dir, fs !! csv with
    | Some (Os.File _), _, _ =>
      (message StatusInternalServerError "Failed to create directory",
       Os.mkState fs (Os.log s ++ [Os.CMkdirAll dir]))
    | _, Some (Os.File _), _ =>
      (message StatusInternalServerError "Failed to create directory",
       Os.mkState fs1 (Os.log s ++ [Os.CMkdirAll dir]))
    | _, _, Some Os.Dir =>
      (message StatusInternalServerError "Failed to open CSV file",
       Os.mkState fs2 (Os.log s ++ [Os.CMkdirAll dir; Os.COpenFile csv]))
    | _, _, _ =>
      (mkResponse StatusOK (HTML (htmlResponse (index formData "referrer"))),
       Os.mkState (<[ csv := Os.File (old ++ rows) ]> fs2)
         (Os.log s ++ [Os.CMkdirAll dir; Os.COpenFile csv; Os.CFileStat csv;
                       Os.CWrite csv rows]))
    end.
Proof.
  intros id Hp dir csv fs fs1 fs2 old rows.
  assert (Hne : id <> "") by (apply plain_name_spec in Hp; tauto).
  unfold submitForm. fold id.
  destruct (decide (id = "")); [done|].
  rewrite (Join_dir _ Hp), (Join_csv _ Hp). fold dir csv.
  unfold Os.MkdirAll, Os.OpenFileAppend, Os.FileSize, Os.Write, Os.open_write,
    Os.bind, Os.record, Os.get_files, Os.put_files, Os.ret, Os.resolve.
  cbn [Os.files Os.log].
  subst rows old fs1 fs2 fs dir csv.
  rewrite (has_nul_dir_of _ Hp), (ancestors_dir_of _ Hp).
  rewrite (has_nul_csv_of _ Hp), (ancestors_csv_of _ Hp).
  cbn [app Os.mkdir_chain Os.walk].
  unfold Os.node_at.
  change (Os.always_dir "form-build") with false. cbv iota.
  rewrite !(always_dir_dir_of _ Hp), !(always_dir_csv_of _ Hp).
  pose proof (dir_of_neq_root id) as H1.
  pose proof (csv_of_neq_root id) as H2.
  pose proof (dir_of_neq_csv_of id) as H3.
  set (dir := dir_of id) in *.
  set (csv := csv_of id) in *.
  set (hdr := Csv.Write (range_headers ranges)).
  set (row := Csv.Write _).
  destruct s as [fs lg]. cbn [Os.files Os.log].
  clearbody dir csv hdr row. clear Hp.
  destruct (fs !! "form-build") as [[|?]|] eqn:Ha;
    destruct (fs !! dir) as [[|?]|] eqn:Hb;
    destruct (fs !! csv) as [[|d]|] eqn:Hc;
    cbn [Os.files Os.log]; simplify_map_eq; cbn [Os.files Os.log];
    simplify_map_eq; cbn [Os.files Os.log Os.Ok Os.Err];
    rewrite <- ?app_assoc; cbn [app String.length Nat.eqb String.append];
    rewrite ?insert_insert_eq; try reflexivity.
Qed.

(** X9. A submission whose bound map has no [formID], or an empty one, is
    answered 400 with [Invalid form data], and so is a body that cannot be
    bound; the file system is not asked anything.  The route carries no
    key check: the header plays no part. *)
Theorem submit_form_needs_formID (ranges : Ranges)
    (bound : option (gmap string string)) (s : Os.state) :
  match bound with
  | None => True
  | Some formData =>
    formData !! "formID" = None \/ formData !! "formID" = Some ""
  end ->
  submitForm ranges bound s = (message StatusBadRequest "Invalid form data", s)
  /\ forall appConf keys float64 now header,
       registerPath appConf keys float64 (mkRuntime now ranges)
         (mkRequest header (SubmitForm bound)) s
       = (message StatusBadRequest "Invalid form data", s).
Proof.
  intros H.
  assert (Hs : submitForm ranges bound s
               = (message StatusBadRequest "Invalid form data", s)).
  { destruct bound as [formData|]; [|done]. unfold submitForm, index.
    destruct H as [-> | ->]; reflexivity. }
  split; [done|]. intros. exact Hs.
Qed.

Lemma submit_form_needs_formID_witness :
  submitForm (mkRanges [] [] []) (Some {[ "name" := "Alice" ]}) Os.empty
  = (message StatusBadRequest "Invalid form data", Os.empty)
  /\ forall appConf keys float64 now header,
       registerPath appConf keys float64 (mkRuntime now (mkRanges [] [] []))
         (mkRequest header (SubmitForm (Some {[ "name" := "Alice" ]})))
         Os.empty
       = (message StatusBadRequest "Invalid form data", Os.empty).
Proof.
  apply (submit_form_needs_formID (mkRanges [] [] [])
           (Some {[ "name" := "Alice" ]}) Os.empty).
  left. reflexivity.
Defined.



(** *** What a submission appends *)






(** ** The key store from a JSON array *)

(** The elements of an array of strings after the first, as the text of
    [keys_json] has them. *)
Lemma keys_json_bytes (k : string) (keys : list string) :
  to_bytes (keys_json (k :: keys))
  = "["%char :: Json.appendString k
    ++ concat (map (fun k' => ","%char :: Json.appendString k') keys)
    ++ ["]"%char].
Proof.
  unfold keys_json. rewrite !to_bytes_app. cbn [list_ascii_of_string app].
  f_equal.
  assert (H : forall k l,
             to_bytes (String.concat "," (map json_string (k :: l)))
             = Json.appendString k
               ++ concat (map (fun k' => ","%char :: Json.appendString k') l)).
  { clear. intros k l. revert k. induction l as [|k' l IH]; intros k.
    - cbn [map String.concat concat]. rewrite to_bytes_json_string.
      by rewrite app_nil_r.
    - cbn [map] in *. rewrite String_concat_cons, !to_bytes_app, IH.
      rewrite to_bytes_json_string. cbn [concat list_ascii_of_string app].
      reflexivity. }
  rewrite H. by rewrite <- app_assoc.
Qed.

Lemma all_ws_nil : all_ws [].
Proof. constructor. Qed.

Lemma parse_elems_step (fuel : nat) (depth : N) (s : list ascii) :
  Json.parse_elems (S fuel) depth s
  = match Json.parse_value fuel depth s with
    | Some (v, r) =>
      match Json.skip_ws r with
      | c :: r' =>
        if (Byte.val c =? 44)%N then
          match Json.parse_elems fuel depth r' with
          | Some (l, r'') => Some (v :: l, r'')
          | None => None
          end
        else if (Byte.val c =? 93)%N then Some ([v], r')
        else None
      | [] => None
      end
    | None => None
    end.
Proof. reflexivity. Qed.

Lemma parse_elems_strings (keys : list string) :
  forall (k : string) (fuel : nat) (depth : N) (rest : list ascii),
    forallb Utf8.Valid (k :: keys) = true ->
    Json.parse_elems (2 + length keys + fuel) depth
      (Json.appendString k
       ++ concat (map (fun k' => ","%char :: Json.appendString k') keys)
       ++ "]"%char :: rest)
    = Some (map Json.Str (k :: keys), rest).
Proof.
  induction keys as [|k' keys IH]; intros k fuel depth rest Hv;
    cbn [forallb] in Hv; apply andb_true_iff in Hv as [Hk Hv].
  - cbn [length map concat app Nat.add]. rewrite parse_elems_step.
    pose proof (parse_value_Str fuel depth [] k ("]"%char :: rest)
                  all_ws_nil Hk) as Hpv.
    cbn [app] in Hpv. rewrite Hpv. reflexivity.
  - cbn [length map concat Nat.add]. rewrite parse_elems_step.
    rewrite <- app_assoc.
    pose proof (parse_value_Str (S (length keys + fuel)) depth [] k
                  ((","%char :: Json.appendString k')
                   ++ concat (map (fun k' => ","%char :: Json.appendString k')
                                  keys)
                   ++ "]"%char :: rest)
                  all_ws_nil Hk) as Hpv.
    cbn [app] in Hpv. cbn [app]. rewrite Hpv.
    cbn [Json.skip_ws].
    change (Json.is_ws ",") with false. cbv iota.
    change (Byte.val "," =? 44)%N with true. cbv iota.
    pose proof (IH k' fuel depth rest Hv) as IH'.
    cbn [Nat.add] in IH'. rewrite IH'. reflexivity.
Qed.

Lemma parse_keys_json (keys : list string) :
  forallb Utf8.Valid keys = true ->
  Json.parse (keys_json keys) = Some (Json.Array (map Json.Str keys)).
Proof.
  intros Hv. destruct keys as [|k keys]; [vm_compute; reflexivity|].
  rewrite (parse_any_fuel _
             (S (2 + length keys
                 + (2 * String.length (keys_json (k :: keys)) + 2)))) by lia.
  rewrite keys_json_bytes.
  cbn [Json.parse_value Json.skip_ws].
  change (Json.is_ws "[") with false. cbv iota.
  change (Byte.val "[" =? 34)%N with false.
  change (Byte.val "[" =? 91)%N with true. cbv iota.
  change (Json.maxNestingDepth <? 0 + 1)%N with false. cbv iota.
  rewrite (skip_ws_appendString k).
  rewrite (appendString_cons k) at 1.
  change (Byte.val Byte.quote =? 93)%N with false. cbv iota.
  rewrite (parse_elems_strings keys k _ _ [] Hv).
  reflexivity.
Qed.

(** X12. When the configured value is the JSON array of a list of keys,
    [main] fills the key store with exactly those keys, in order and
    without error, and [save-form] lets a request through if and only if
    its [x-client-key] is one of them and not empty. *)
Theorem configured_keys_are_allowed (app : APPConfig) (keys : list string) :
  forallb Utf8.Valid keys = true ->
  let conf := mkConfig app (keys_json keys) in
  main_allowedClientKeys conf = keys
  /\ snd (Json.Unmarshal_strings (ClientKeys conf) []) = true
  /\ (forall float64 rt key bound s,
        key <> "" ->
        (key ∈ keys ->
         registerPath app (main_allowedClientKeys conf) float64 rt
           (mkRequest (Some key) (SaveForm bound)) s
         = saveForm (Now rt) bound s)
        /\ (key ∉ keys ->
            registerPath app (main_allowedClientKeys conf) float64 rt
              (mkRequest (Some key) (SaveForm bound)) s
            = (message StatusForbidden "key is not found", s))).
Proof.
  intros Hv conf.
  assert (Hk : main_allowedClientKeys conf = keys).
  { unfold main_allowedClientKeys, Json.Unmarshal_strings. subst conf.
    cbn [ClientKeys]. rewrite (parse_keys_json keys Hv). cbn [fst].
    rewrite map_map. cbn. apply map_id. }
  split; [done|]. split.
  - unfold Json.Unmarshal_strings. subst conf. cbn [ClientKeys].
    rewrite (parse_keys_json keys Hv). cbn [snd].
    apply forallb_forall. intros v Hin. apply in_map_iff in Hin as (k & <- & _).
    reflexivity.
  - intros float64 rt key bound s Hne. rewrite Hk.
    unfold registerPath. cbn [Target XClientKey]. split; intros Hin.
    + by rewrite clientKeyMiddleware_known.
    + by apply clientKeyMiddleware_unknown.
Qed.

Lemma configured_keys_are_allowed_witness :
  let conf := mkConfig (APPConfig_ defaultConfig)
                (keys_json ["api-key-1"; "a<b"]) in
  main_allowedClientKeys conf
  = ["api-key-1"; "a<b"]
  /\ snd (Json.Unmarshal_strings (ClientKeys conf) []) = true.
Proof.
  cbn zeta.
  pose proof (configured_keys_are_allowed (APPConfig_ defaultConfig)
                ["api-key-1"; "a<b"]) as H.
  cbn zeta in H. destruct H as (H1 & H2 & _).
  - vm_compute. reflexivity.
  - split; [exact H1|exact H2].
Defined.

(** ** What a submission leaves alone *)

Lemma plain_prefix_inj (a b x y : string) :
  no_sep a -> no_sep b ->
  (a ++ String "/" x = b ++ String "/" y)%string -> a = b /\ x = y.
Proof.
  revert b. induction a as [|c a IH]; intros [|d b] Ha Hb H; cbn in H.
  - by injection H as ->.
  - injection H as <- _. apply Forall_cons in Hb as [[Hb _] _]. done.
  - injection H as -> _. apply Forall_cons in Ha as [[Ha _] _]. done.
  - injection H as -> H. apply Forall_cons in Ha as [_ Ha].
    apply Forall_cons in Hb as [_ Hb].
    destruct (IH b Ha Hb H) as [-> ->]. done.
Qed.

Lemma csv_of_neq_file_of (a b : string) :
  plain_name a = true -> plain_name b = true -> csv_of a <> file_of b.
Proof.
  intros Ha Hb H. unfold csv_of, file_of in H. apply append_inj_l in H.
  apply plain_name_spec in Ha as (_ & _ & _ & Ha).
  apply plain_name_spec in Hb as (_ & _ & _ & Hb).
  apply (plain_prefix_inj a b _ _ Ha Hb) in H as [_ H]. discriminate H.
Qed.

(** X13. A submission under a FormID that is a plain name changes
    nothing but [form-build], the directory of the FormID and its file of
    answers, whatever the answer: the document of every stored form, the
    one of the same FormID included, is as before, and so is the
    template unless the FormID is its name. *)
Theorem submit_form_touches_only_its_paths (ranges : Ranges)
    (formData : gmap string string) (s : Os.state) :
  let id := index formData "formID" in
  plain_name id = true ->
  let r := submitForm ranges (Some formData) s in
  (forall p, p <> "form-build" -> p <> dir_of id -> p <> csv_of id ->
     Os.files (snd r) !! p = Os.files s !! p)
  /\ (forall id', plain_name id' = true ->
        Os.files (snd r) !! file_of id' = Os.files s !! file_of id')
  /\ (id <> "form.html" ->
      Os.files (snd r) !! "form-build/form.html"
      = Os.files s !! "form-build/form.html").
Proof.
  intros id Hp r.
  assert (Hframe : forall p,
            p <> "form-build" -> p <> dir_of id -> p <> csv_of id ->
            Os.files (snd r) !! p = Os.files s !! p).
  { intros p H1 H2 H3. subst r.
    rewrite (submitForm_run ranges formData s Hp). cbn zeta. fold id.
    destruct (Os.files s !! "form-build") as [[|?]|];
      destruct (Os.files s !! dir_of id) as [[|?]|];
      destruct (Os.files s !! csv_of id) as [[|?]|];
      cbn [snd Os.files]; by rewrite ?lookup_insert_ne. }
  split; [exact Hframe|]. split.
  - intros id' Hp'. apply Hframe.
    + intros H. by apply (file_of_neq_root id').
    + intros H. symmetry in H. by apply (dir_of_neq_file_of_any id id' Hp).
    + intros H. symmetry in H. by apply (csv_of_neq_file_of id id' Hp Hp').
  - intros Hid. apply Hframe.
    + discriminate.
    + intros H. change "form-build/form.html" with (dir_of "form.html") in H.
      apply dir_of_inj in H. by symmetry in H.
    + intros H. unfold csv_of in H.
      change "form-build/form.html" with ("form-build/" ++ "form.html")%string in H.
      apply append_inj_l in H. apply (f_equal String.length) in H.
      rewrite append_length in H. cbn in H. lia.
Qed.

Lemma submit_form_touches_only_its_paths_witness :
  let s := snd (saveForm 123 (Some sample_form) deployed) in
  let r := submitForm (mkRanges ["email"; "name"] ["email"; "name"]
                         ["email"; "name"]) (Some alice) s in
  Os.files (snd r) !! file_of "123" = Some (Os.File (pretty_Form sample_form))
  /\ Os.files (snd r) !! "form-build/form.html" = Some (Os.File formHTML).
Proof.
  cbn zeta.
  pose proof (submit_form_touches_only_its_paths
                (mkRanges ["email"; "name"] ["email"; "name"] ["email"; "name"])
                alice (snd (saveForm 123 (Some sample_form) deployed))) as H.
  cbn zeta in H. destruct H as (_ & H1 & H2).
  - vm_compute. reflexivity.
  - split.
    + etransitivity; [apply (H1 "123"); vm_compute; reflexivity|].
      vm_compute. reflexivity.
    + etransitivity; [apply H2; vm_compute; discriminate|].
      vm_compute. reflexivity.
Defined.
